(** * DEM_ESP_MQTT: Wi-Fi + MQTT smart setup (main/main.c)

    A shallow embedding of [main.c] and the properties of its
    provisioning state machine, its line reader and its publish loop.

    The file follows the source top to bottom: error codes, the global
    variables, the NVS helpers, [read_input], the two event handlers, the
    connection logic and [app_main].  The ESP-IDF collaborators (NVS, UART,
    Wi-Fi driver, MQTT client, FreeRTOS delay) are external to the
    repository; each is modelled by what the program can observe of it:

    - NVS namespace "storage" is a finite map from keys to strings, with
      the code [nvs_open] returns, one code for the read-only open of
      [load_from_nvs] and the read-write open of [save_to_nvs]; a first
      boot, where the namespace does not exist yet and only the read-only
      open fails, is the state where the namespace opens and the store is
      empty: every load fails on its missing key and every save succeeds;
    - the UART receiver is the list of results of the successive
      [uart_read_bytes] calls ([None] is a time-out without a byte); when
      the list is used up no byte arrives any more, and a loop that waits
      for one is [Blocked];
    - the event loop is the list of event batches handed to the registered
      handlers, one batch per [vTaskDelay] of the foreground task: the
      handlers run while [app_main] sleeps, and the two flags change at
      these points only; when the list is used up no event arrives any
      more;
    - the random generator and the publish call are the lists of the
      values they return;
    - every call that leaves the program is appended to a trace.

    The initialisation steps 2 and 3 of [app_main] (UART driver, Wi-Fi
    stack and the registration of [wifi_event_handler]) are taken as
    done: the model of [app_main] starts at the boot menu.  Step 1, the
    initialisation of the flash partition, is modelled on its own by
    [flash_init]. *)

From Stdlib Require Import ZArith String Ascii List Bool Lia.
From stdpp Require Import base option list strings gmap pretty.

Local Open Scope string_scope.
Local Open Scope Z_scope.
Local Open Scope list_scope.

(** ** Error codes (esp_err.h, nvs.h) *)

Definition esp_err_t := Z.
Definition ESP_OK : esp_err_t := 0.
Definition ESP_FAIL : esp_err_t := -1.
Definition ESP_ERR_NVS_BASE : esp_err_t := 0x1100.
Definition ESP_ERR_NVS_NOT_FOUND : esp_err_t := ESP_ERR_NVS_BASE + 0x02.
Definition ESP_ERR_NVS_INVALID_LENGTH : esp_err_t := ESP_ERR_NVS_BASE + 0x0c.

(** ** Characters and C strings *)

Definition NUL : ascii := "000"%char.
Definition BS : ascii := "008"%char.
Definition LF : ascii := "010"%char.
Definition CR : ascii := "013"%char.

(** The numeric value of a [uint8_t]. *)
Definition code (ch : ascii) : Z := Z.of_N (N_of_ascii ch).

(** The characters of a string, and back. *)
Fixpoint chars (str : string) : list ascii :=
  match str with
  | EmptyString => []
  | String c rest => c :: chars rest
  end.

Fixpoint of_chars (l : list ascii) : string :=
  match l with
  | [] => EmptyString
  | c :: rest => String c (of_chars rest)
  end.

(** The C string held by a [char] array: the characters before the first
    NUL. *)
Fixpoint cstr (buf : list ascii) : string :=
  match buf with
  | [] => EmptyString
  | c :: rest => if Ascii.eqb c NUL then EmptyString else String c (cstr rest)
  end.

(** [strlen] of a Rocq string, as a [size_t]. *)
Definition strlen (str : string) : Z := Z.of_nat (String.length str).

(** Storing [l] at the start of an array, the rest of the array unchanged
    ([memcpy] into the caller's buffer). *)
Definition store_prefix (l buf : list ascii) : list ascii :=
  l ++ drop (length l) buf.

(** [memset(buffer, 0, len)]. *)
Definition memset0 (buf : list ascii) (len : Z) : list ascii :=
  store_prefix (replicate (Z.to_nat len) NUL) buf.

(** [strncpy(dst, src, n)] into a zeroed destination of [n] bytes. *)
Definition strncpy (n : nat) (src : list ascii) : list ascii :=
  take n (chars (cstr src) ++ replicate n NUL).

(** [snprintf(dst, size, ...)] keeps at most [size - 1] characters. *)
Definition snprintf (size : nat) (formatted : string) : string :=
  substring 0 (size - 1) formatted.

(** ** Events and the trace of outgoing calls *)

Inductive event_base := WIFI_EVENT | IP_EVENT | MQTT_EVENTS.

Inductive event_id :=
| WIFI_EVENT_STA_START
| WIFI_EVENT_STA_DISCONNECTED
| IP_EVENT_STA_GOT_IP
| MQTT_EVENT_CONNECTED
| MQTT_EVENT_DISCONNECTED
| EVENT_OTHER.

Definition event : Type := event_base * event_id.

Inductive log_level := LOGI | LOGW.

Inductive action :=
| a_printf (text : string)
| a_uart_write_bytes (bytes : string)
| a_log (lvl : log_level) (text : string)
| a_esp_wifi_set_mode_sta
| a_esp_wifi_set_config (sta_ssid sta_password : list ascii)
| a_esp_wifi_start
| a_esp_wifi_connect
| a_esp_wifi_stop
| a_nvs_set_str (key value : string)
| a_esp_mqtt_client_start (uri : string)
| a_esp_mqtt_client_publish (topic data : string) (len qos retain : Z)
| a_vTaskDelay (ms : Z).

(** ** Global variables and the environment *)

Record state := mkState {
  (* static variables and buffers of main.c *)
  wifi_connected : bool;
  mqtt_connected : bool;
  client : option string;
  ssid : list ascii;
  wifi_pass : list ascii;
  mqtt_broker : list ascii;
  mqtt_topic : list ascii;
  (* collaborators *)
  nvs_open_ret : esp_err_t;
  nvs : gmap string string;
  uart_rx : list (option ascii);
  events : list (list event);
  rng : list Z;
  publish_ret : list Z;
  trace : list action
}.

Definition set_wifi_connected (b : bool) (s : state) : state :=
  mkState b (mqtt_connected s) (client s) (ssid s) (wifi_pass s)
    (mqtt_broker s) (mqtt_topic s) (nvs_open_ret s) (nvs s) (uart_rx s)
    (events s) (rng s) (publish_ret s) (trace s).

Definition set_mqtt_connected (b : bool) (s : state) : state :=
  mkState (wifi_connected s) b (client s) (ssid s) (wifi_pass s)
    (mqtt_broker s) (mqtt_topic s) (nvs_open_ret s) (nvs s) (uart_rx s)
    (events s) (rng s) (publish_ret s) (trace s).

Definition set_client (c : option string) (s : state) : state :=
  mkState (wifi_connected s) (mqtt_connected s) c (ssid s) (wifi_pass s)
    (mqtt_broker s) (mqtt_topic s) (nvs_open_ret s) (nvs s) (uart_rx s)
    (events s) (rng s) (publish_ret s) (trace s).

Definition set_nvs (m : gmap string string) (s : state) : state :=
  mkState (wifi_connected s) (mqtt_connected s) (client s) (ssid s)
    (wifi_pass s) (mqtt_broker s) (mqtt_topic s) (nvs_open_ret s) m
    (uart_rx s) (events s) (rng s) (publish_ret s) (trace s).

Definition set_uart_rx (rx : list (option ascii)) (s : state) : state :=
  mkState (wifi_connected s) (mqtt_connected s) (client s) (ssid s)
    (wifi_pass s) (mqtt_broker s) (mqtt_topic s) (nvs_open_ret s) (nvs s)
    rx (events s) (rng s) (publish_ret s) (trace s).

Definition set_events (evs : list (list event)) (s : state) : state :=
  mkState (wifi_connected s) (mqtt_connected s) (client s) (ssid s)
    (wifi_pass s) (mqtt_broker s) (mqtt_topic s) (nvs_open_ret s) (nvs s)
    (uart_rx s) evs (rng s) (publish_ret s) (trace s).

Definition set_rng (r : list Z) (s : state) : state :=
  mkState (wifi_connected s) (mqtt_connected s) (client s) (ssid s)
    (wifi_pass s) (mqtt_broker s) (mqtt_topic s) (nvs_open_ret s) (nvs s)
    (uart_rx s) (events s) r (publish_ret s) (trace s).

Definition set_publish_ret (r : list Z) (s : state) : state :=
  mkState (wifi_connected s) (mqtt_connected s) (client s) (ssid s)
    (wifi_pass s) (mqtt_broker s) (mqtt_topic s) (nvs_open_ret s) (nvs s)
    (uart_rx s) (events s) (rng s) r (trace s).

(** Appending one outgoing call to the trace. *)
Definition emit (a : action) (s : state) : state :=
  mkState (wifi_connected s) (mqtt_connected s) (client s) (ssid s)
    (wifi_pass s) (mqtt_broker s) (mqtt_topic s) (nvs_open_ret s) (nvs s)
    (uart_rx s) (events s) (rng s) (publish_ret s) (trace s ++ [a]).

(** The four credential buffers are passed to [load_from_nvs] and
    [read_input] by address; a [cred_buf] names the array a pointer
    designates. *)
Inductive cred_buf := SSID | WIFI_PASS | MQTT_BROKER | MQTT_TOPIC.

Global Instance cred_buf_eq_dec : EqDecision cred_buf.
Proof. solve_decision. Defined.

Definition get_buf (b : cred_buf) (s : state) : list ascii :=
  match b with
  | SSID => ssid s
  | WIFI_PASS => wifi_pass s
  | MQTT_BROKER => mqtt_broker s
  | MQTT_TOPIC => mqtt_topic s
  end.

Definition set_buf (b : cred_buf) (v : list ascii) (s : state) : state :=
  match b with
  | SSID =>
      mkState (wifi_connected s) (mqtt_connected s) (client s) v
        (wifi_pass s) (mqtt_broker s) (mqtt_topic s) (nvs_open_ret s)
        (nvs s) (uart_rx s) (events s) (rng s) (publish_ret s) (trace s)
  | WIFI_PASS =>
      mkState (wifi_connected s) (mqtt_connected s) (client s) (ssid s) v
        (mqtt_broker s) (mqtt_topic s) (nvs_open_ret s) (nvs s)
        (uart_rx s) (events s) (rng s) (publish_ret s) (trace s)
  | MQTT_BROKER =>
      mkState (wifi_connected s) (mqtt_connected s) (client s) (ssid s)
        (wifi_pass s) v (mqtt_topic s) (nvs_open_ret s) (nvs s)
        (uart_rx s) (events s) (rng s) (publish_ret s) (trace s)
  | MQTT_TOPIC =>
      mkState (wifi_connected s) (mqtt_connected s) (client s) (ssid s)
        (wifi_pass s) (mqtt_broker s) v (nvs_open_ret s) (nvs s)
        (uart_rx s) (events s) (rng s) (publish_ret s) (trace s)
  end.

(** [sizeof] of the four arrays: [char ssid[32]], the others [[64]]. *)
Definition sizeof (b : cred_buf) : Z :=
  match b with
  | SSID => 32
  | _ => 64
  end.

(** ** NVS helper functions *)

(** [nvs_get_str(handle, key, NULL, &required_size)]: the length query.
    It reports the size of the stored string including its terminator, or
    [ESP_ERR_NVS_NOT_FOUND].  [required_size] is left as it was (here 0)
    when the key is absent. *)
Definition nvs_get_str_size (m : gmap string string) (key : string)
  : esp_err_t * Z :=
  match m !! key with
  | Some v => (ESP_OK, strlen v + 1)
  | None => (ESP_ERR_NVS_NOT_FOUND, 0)
  end.

(** [nvs_get_str(handle, key, buffer, &length)]: copies the string and its
    terminator when [length] suffices. *)
Definition nvs_get_str (m : gmap string string) (key : string)
    (buffer : list ascii) (len : Z) : esp_err_t * list ascii :=
  match m !! key with
  | Some v =>
      if len <? strlen v + 1 then (ESP_ERR_NVS_INVALID_LENGTH, buffer)
      else (ESP_OK, store_prefix (chars v ++ [NUL]) buffer)
  | None => (ESP_ERR_NVS_NOT_FOUND, buffer)
  end.

(** [nvs_set_str(handle, key, value)] and [nvs_commit(handle)] of a healthy
    partition, for keys and values within the sizes the library accepts
    (keys of at most 15 characters), as those of the program are: its four
    keys are fixed and its values come from buffers of 32 and 64 bytes. *)
Definition nvs_set_str (m : gmap string string) (key value : string)
  : esp_err_t * gmap string string :=
  (ESP_OK, <[key := value]> m).

Definition nvs_commit : esp_err_t := ESP_OK.

(** [save_to_nvs(key, value)]. *)
Definition save_to_nvs (key value : string) (s : state)
  : esp_err_t * state :=
  let err := nvs_open_ret s in
  if negb (err =? ESP_OK) then (err, s)
  else
    let s := emit (a_nvs_set_str key value) s in
    let '(err, m) := nvs_set_str (nvs s) key value in
    let s := set_nvs m s in
    let err := if err =? ESP_OK then nvs_commit else err in
    (err, s).

(** [load_from_nvs(key, buffer, max_len)]: the length query, then the copy
    when the stored size fits the caller's buffer. *)
Definition load_from_nvs (key : string) (buffer : cred_buf) (max_len : Z)
    (s : state) : esp_err_t * state :=
  let err := nvs_open_ret s in
  if negb (err =? ESP_OK) then (err, s)
  else
    let '(err, required_size) := nvs_get_str_size (nvs s) key in
    if (err =? ESP_OK) && (required_size <=? max_len) then
      let '(err, filled) :=
        nvs_get_str (nvs s) key (get_buf buffer s) required_size in
      (err, set_buf buffer filled s)
    else (err, s).

(** ** UART input function *)

(** What a blocking part of the program comes to: it returns, it waits for
    input that never arrives, or the iteration budget given to an unbounded
    loop of the model is used up. *)
Inductive outcome (A : Type) :=
| Done (a : A) (s : state)
| Blocked (s : state)
| OutOfFuel.
Arguments Done {A} a s.
Arguments Blocked {A} s.
Arguments OutOfFuel {A}.

Definition bind {A B : Type} (m : outcome A) (k : A -> state -> outcome B)
  : outcome B :=
  match m with
  | Done a s => k a s
  | Blocked s => Blocked s
  | OutOfFuel => OutOfFuel
  end.

Definition endl : string := String LF "".
Definition erase_seq : string := String BS (String " " (String BS "")).

(** Conversion to [size_t] (32 bits on the target). *)
Definition to_size_t (z : Z) : Z := z mod 2 ^ 32.

(** The [while (i < len - 1)] loop of [read_input].  Each iteration takes
    the result of one [uart_read_bytes] call from [rx]; the receive list of
    the state is written back when the loop is left. *)
Fixpoint read_input_loop (rx : list (option ascii)) (buffer : cred_buf)
    (len : Z) (mask : bool) (i : Z) (s : state) : outcome Z :=
  if to_size_t i <? to_size_t (len - 1) then
    match rx with
    | [] => Blocked (set_uart_rx [] s)
    | None :: rx' => read_input_loop rx' buffer len mask i s
    | Some ch :: rx' =>
        if Ascii.eqb ch CR || Ascii.eqb ch LF then
          Done i (set_uart_rx rx' (emit (a_uart_write_bytes endl) s))
        else if Ascii.eqb ch BS || (code ch =? 127) then
          if 0 <? i then
            read_input_loop rx' buffer len mask (i - 1)
              (emit (a_uart_write_bytes erase_seq) s)
          else read_input_loop rx' buffer len mask i s
        else if (32 <=? code ch) && (code ch <=? 126) then
          read_input_loop rx' buffer len mask (i + 1)
            (emit (a_uart_write_bytes (if mask then "*" else String ch ""))
               (set_buf buffer (<[Z.to_nat i := ch]> (get_buf buffer s)) s))
        else read_input_loop rx' buffer len mask i s
    end
  else Done i (set_uart_rx rx s).

Definition read_input (prompt : string) (buffer : cred_buf) (len : Z)
    (mask : bool) (s : state) : outcome unit :=
  let s := emit (a_printf prompt) s in
  let s := set_buf buffer (memset0 (get_buf buffer s) len) s in
  bind (read_input_loop (uart_rx s) buffer len mask 0 s) (fun i s =>
  Done tt (set_buf buffer (<[Z.to_nat i := NUL]> (get_buf buffer s)) s)).

(** ** Event handlers *)

Definition wifi_event_handler (base : event_base) (id : event_id)
    (s : state) : state :=
  match base, id with
  | WIFI_EVENT, WIFI_EVENT_STA_START => emit a_esp_wifi_connect s
  | WIFI_EVENT, WIFI_EVENT_STA_DISCONNECTED => set_wifi_connected false s
  | IP_EVENT, IP_EVENT_STA_GOT_IP =>
      emit (a_log LOGI "Wi-Fi Connected! IP Obtained.")
        (set_wifi_connected true s)
  | _, _ => s
  end.

Definition mqtt_event_handler (id : event_id) (s : state) : state :=
  match id with
  | MQTT_EVENT_CONNECTED =>
      emit (a_log LOGI "MQTT Connected.") (set_mqtt_connected true s)
  | MQTT_EVENT_DISCONNECTED =>
      emit (a_log LOGW "MQTT Disconnected.") (set_mqtt_connected false s)
  | _ => s
  end.

(** The registrations of [wifi_stack_init] and [start_mqtt]: every
    [WIFI_EVENT], [IP_EVENT_STA_GOT_IP], and every event of the MQTT client
    once it exists. *)
Definition deliver (s : state) (e : event) : state :=
  match e with
  | (WIFI_EVENT, id) => wifi_event_handler WIFI_EVENT id s
  | (IP_EVENT, IP_EVENT_STA_GOT_IP) =>
      wifi_event_handler IP_EVENT IP_EVENT_STA_GOT_IP s
  | (IP_EVENT, _) => s
  | (MQTT_EVENTS, id) =>
      match client s with
      | Some _ => mqtt_event_handler id s
      | None => s
      end
  end.

(** [vTaskDelay(pdMS_TO_TICKS(ms))]: the foreground task sleeps and the
    event loop runs the handlers on the next batch of events. *)
Definition vTaskDelay (ms : Z) (s : state) : state :=
  let s := emit (a_vTaskDelay ms) s in
  match events s with
  | [] => s
  | batch :: later => foldl deliver (set_events later s) batch
  end.

(** ** Connection logic *)

(** [attempt_wifi_connect] up to and including [esp_wifi_connect()]. *)
Definition attempt_begin (s : state) : state :=
  let s := set_wifi_connected false s in
  let s := emit a_esp_wifi_set_mode_sta s in
  let s :=
    emit (a_esp_wifi_set_config (strncpy 32 (ssid s))
            (strncpy 64 (wifi_pass s))) s in
  let s := emit a_esp_wifi_start s in
  emit a_esp_wifi_connect s.

(** [while (!wifi_connected && attempts < 80)].  [budget] bounds the
    iterations of the model; with 80 the loop is left because its test
    fails ([wait_for_link_exit]). *)
Fixpoint wait_for_link (budget : nat) (attempts : Z) (s : state)
  : Z * state :=
  match budget with
  | O => (attempts, s)
  | S budget' =>
      if negb (wifi_connected s) && (attempts <? 80) then
        wait_for_link budget' (attempts + 1) (vTaskDelay 100 s)
      else (attempts, s)
  end.

Definition attempt_wifi_connect (s : state) : esp_err_t * state :=
  let s := attempt_begin s in
  let '(_, s) := wait_for_link 80 0 s in
  (if wifi_connected s then ESP_OK else ESP_FAIL, s).

(** [start_mqtt]: the URI, then [esp_mqtt_client_init], the registration
    of [mqtt_event_handler] and [esp_mqtt_client_start], which make one
    entry of the trace.  The code returned is the one of
    [esp_mqtt_client_start], taken to be [ESP_OK]: [app_main], the only
    caller, discards it. *)
Definition start_mqtt (s : state) : esp_err_t * state :=
  let uri :=
    snprintf 128 ("mqtt://" +:+ cstr (mqtt_broker s) +:+ ":1883") in
  let s := set_client (Some uri) s in
  (ESP_OK, emit (a_esp_mqtt_client_start uri) s).

(** ** Main application *)

(** [esp_random()]: the next draw of the hardware generator, a
    [uint32_t] (0 once the list of draws is used up). *)
Definition esp_random (s : state) : Z * state :=
  match rng s with
  | [] => (0, s)
  | r :: rest => (r mod 2 ^ 32, set_rng rest s)
  end.

(** [esp_mqtt_client_publish]: the message id, or -1 on failure (also
    once the list of return values is used up). *)
Definition esp_mqtt_client_publish (topic data : string)
    (len qos retain : Z) (s : state) : Z * state :=
  let s := emit (a_esp_mqtt_client_publish topic data len qos retain) s in
  match publish_ret s with
  | [] => (-1, s)
  | r :: rest => (r, set_publish_ret rest s)
  end.

(** [printf("%d", val)]. *)
Definition fmt_d (val : Z) : string := pretty val.

Definition print_menu (s : state) : state :=
  let s :=
    emit (a_printf (endl +:+ "===================================" +:+ endl))
      s in
  let s := emit (a_printf ("   BOOT MENU" +:+ endl)) s in
  let s := emit (a_printf ("   [O] Auto Connect (Load NVS)" +:+ endl)) s in
  let s := emit (a_printf ("   [N] New Setup (Manual Entry)" +:+ endl)) s in
  let s :=
    emit (a_printf ("===================================" +:+ endl)) s in
  emit (a_printf "Select >> ") s.

(** [while (uart_read_bytes(..., &choice, 1, ...) <= 0) vTaskDelay(50)]. *)
Fixpoint wait_choice (rx : list (option ascii)) (s : state)
  : outcome ascii :=
  match rx with
  | [] => Blocked (set_uart_rx [] s)
  | None :: rx' => wait_choice rx' (vTaskDelay 50 s)
  | Some ch :: rx' => Done ch (set_uart_rx rx' s)
  end.

Definition msg_loading : string :=
  "Loading configuration from NVS..." +:+ endl.
Definition msg_no_config : string :=
  "No saved configuration found! Please use New Setup [N]." +:+ endl.
Definition msg_connect_failed : string :=
  "Failed to connect! Please use New Setup [N]." +:+ endl.
Definition msg_invalid : string := "Invalid selection." +:+ endl.

(** The four loads of the auto mode, joined by [&&]: a load is attempted
    only when the ones before it returned [ESP_OK]. *)
Definition load_all (s : state) : bool * state :=
  let '(e, s) := load_from_nvs "ssid" SSID (sizeof SSID) s in
  if negb (e =? ESP_OK) then (false, s) else
  let '(e, s) := load_from_nvs "pass" WIFI_PASS (sizeof WIFI_PASS) s in
  if negb (e =? ESP_OK) then (false, s) else
  let '(e, s) := load_from_nvs "broker" MQTT_BROKER (sizeof MQTT_BROKER) s in
  if negb (e =? ESP_OK) then (false, s) else
  let '(e, s) := load_from_nvs "topic" MQTT_TOPIC (sizeof MQTT_TOPIC) s in
  (e =? ESP_OK, s).

(** The branch [choice == 'O' || choice == 'o']; the result is the new
    value of [config_ready]. *)
Definition auto_mode (s : state) : bool * state :=
  let s := emit (a_printf msg_loading) s in
  let '(loaded, s) := load_all s in
  if loaded then
    let s :=
      emit (a_printf ("Credentials found for SSID: " +:+ cstr (ssid s)
                      +:+ endl +:+ "Connecting..." +:+ endl)) s in
    let '(err, s) := attempt_wifi_connect s in
    if err =? ESP_OK then (true, s)
    else (false, emit (a_printf msg_connect_failed) s)
  else (false, emit (a_printf msg_no_config) s).

(** One pass through the body of the wizard's [while(1)]: the result
    tells whether the pass left the loop by [break]. *)
Definition wizard_wifi_pass (s : state) : outcome bool :=
  bind (read_input "Enter SSID: " SSID (sizeof SSID) false s) (fun _ s =>
  bind (read_input "Enter Password: " WIFI_PASS (sizeof WIFI_PASS) true s)
    (fun _ s =>
  let s := emit (a_printf ("Attempting connection..." +:+ endl)) s in
  let '(err, s) := attempt_wifi_connect s in
  if err =? ESP_OK then
    let s :=
      emit (a_printf ("Wi-Fi Connected! Saving to NVS..." +:+ endl)) s in
    let '(_, s) := save_to_nvs "ssid" (cstr (ssid s)) s in
    let '(_, s) := save_to_nvs "pass" (cstr (wifi_pass s)) s in
    Done true s
  else
    let s := emit (a_printf ("Connection Failed. Try again." +:+ endl)) s in
    let s := emit a_esp_wifi_stop s in
    Done false s)).

(** The [while(1)] loop of the wizard: Wi-Fi entry until a link attempt
    succeeds. *)
Fixpoint wizard_wifi (fuel : nat) (s : state) : outcome unit :=
  match fuel with
  | O => OutOfFuel
  | S fuel' =>
      bind (wizard_wifi_pass s) (fun connected s =>
      if connected then Done tt s else wizard_wifi fuel' s)
  end.

(** MQTT entry of the wizard. *)
Definition wizard_mqtt (s : state) : outcome unit :=
  bind (read_input "Enter MQTT Broker IP: " MQTT_BROKER (sizeof MQTT_BROKER)
          false s) (fun _ s =>
  bind (read_input "Enter MQTT Topic: " MQTT_TOPIC (sizeof MQTT_TOPIC)
          false s) (fun _ s =>
  let '(_, s) := save_to_nvs "broker" (cstr (mqtt_broker s)) s in
  let '(_, s) := save_to_nvs "topic" (cstr (mqtt_topic s)) s in
  Done tt s)).

(** The branch [choice == 'N' || choice == 'n']. *)
Definition wizard_mode (fuel : nat) (s : state) : outcome bool :=
  let s := emit (a_printf (endl +:+ "--- STARTING WIZARD ---" +:+ endl)) s in
  bind (wizard_wifi fuel s) (fun _ s =>
  bind (wizard_mqtt s) (fun _ s => Done true s)).

Definition is_O (choice : ascii) : bool :=
  Ascii.eqb choice "O" || Ascii.eqb choice "o".
Definition is_N (choice : ascii) : bool :=
  Ascii.eqb choice "N" || Ascii.eqb choice "n".

(** One pass through the body of [while (!config_ready)]; the result is
    [config_ready] at the end of the pass. *)
Definition menu_pass (fuel : nat) (s : state) : outcome bool :=
  let s := print_menu s in
  bind (wait_choice (uart_rx s) s) (fun choice s =>
  let s := emit (a_printf (String choice endl)) s in
  if is_O choice then
    let '(ready, s) := auto_mode s in Done ready s
  else if is_N choice then wizard_mode fuel s
  else Done false (emit (a_printf msg_invalid) s)).

(** [while (!config_ready) { ... }]. *)
Fixpoint boot_menu (fuel : nat) (s : state) : outcome unit :=
  match fuel with
  | O => OutOfFuel
  | S fuel' =>
      bind (menu_pass fuel' s) (fun config_ready s =>
      if config_ready then Done tt s else boot_menu fuel' s)
  end.

(** The body of the publish loop before its [vTaskDelay]. *)
Definition publish_step (s : state) : state :=
  if wifi_connected s && mqtt_connected s then
    let '(r, s) := esp_random s in
    let val := r mod 100 in
    let payload := snprintf 16 (fmt_d val) in
    let '(_, s) :=
      esp_mqtt_client_publish (cstr (mqtt_topic s)) payload 0 1 0 s in
    emit (a_log LOGI ("Published: " +:+ payload)) s
  else if negb (wifi_connected s) then
    let s := emit (a_log LOGW "Wi-Fi Lost. Reconnecting...") s in
    emit a_esp_wifi_connect s
  else s.

(** One iteration of [while (1)]: the body, then ten seconds of sleep. *)
Definition tick (s : state) : state :=
  vTaskDelay 10000 (publish_step s).

(** The first [n] iterations of the publish loop. *)
Fixpoint publish_loop (n : nat) (s : state) : state :=
  match n with
  | O => s
  | S n' => publish_loop n' (tick s)
  end.

(** [app_main] from the boot menu on, cut after [n] iterations of the
    publish loop. *)
Definition app_main (fuel n : nat) (s : state) : outcome unit :=
  bind (boot_menu fuel s) (fun _ s =>
  let '(_, s) := start_mqtt s in
  let s := emit (a_printf (endl +:+ "--- SYSTEM RUNNING ---" +:+ endl)) s in
  let s :=
    emit (a_log LOGI ("Starting loop. Sending data to topic: "
                      +:+ cstr (mqtt_topic s))) s in
  Done tt (publish_loop n s)).

(** The state at reset: flags down, buffers zeroed, nothing sent yet. *)
Definition boot_state (open_ret : esp_err_t) (stored : gmap string string)
    (rx : list (option ascii)) (evs : list (list event)) (draws : list Z)
    (pubs : list Z) : state :=
  mkState false false None (replicate 32 NUL) (replicate 64 NUL)
    (replicate 64 NUL) (replicate 64 NUL) open_ret stored rx evs draws pubs
    [].

Definition typed (text : string) : list (option ascii) :=
  map Some (chars text).


(** ** Flash initialisation *)

Definition ESP_ERR_NVS_NO_FREE_PAGES : esp_err_t := ESP_ERR_NVS_BASE + 0x0d.
Definition ESP_ERR_NVS_NEW_VERSION_FOUND : esp_err_t :=
  ESP_ERR_NVS_BASE + 0x10.

Inductive flash_call := c_nvs_flash_init | c_nvs_flash_erase | c_abort.

(** Step 1 of [app_main], given the results of the first
    [nvs_flash_init()], of [nvs_flash_erase()] and of the second
    [nvs_flash_init()]: the calls made, and whether the program goes on
    ([ESP_ERROR_CHECK], with assertions enabled as in the default build,
    calls [abort()] on every code but [ESP_OK]). *)
Definition flash_init (init1 erase init2 : esp_err_t)
  : list flash_call * bool :=
  let ret := init1 in
  if (ret =? ESP_ERR_NVS_NO_FREE_PAGES) ||
     (ret =? ESP_ERR_NVS_NEW_VERSION_FOUND) then
    if negb (erase =? ESP_OK) then
      ([c_nvs_flash_init; c_nvs_flash_erase; c_abort], false)
    else
      let ret := init2 in
      if negb (ret =? ESP_OK) then
        ([c_nvs_flash_init; c_nvs_flash_erase; c_nvs_flash_init; c_abort],
         false)
      else ([c_nvs_flash_init; c_nvs_flash_erase; c_nvs_flash_init], true)
  else if negb (ret =? ESP_OK) then ([c_nvs_flash_init; c_abort], false)
  else ([c_nvs_flash_init], true).

(** *** Vocabulary of the statements about the auto mode *)

(** The four keys with the buffer each one is loaded into. *)
Definition cred_keys : list (string * cred_buf) :=
  [("ssid", SSID); ("pass", WIFI_PASS); ("broker", MQTT_BROKER);
   ("topic", MQTT_TOPIC)].

(** The return code of the load of one key, and the buffer it leaves. *)
Definition load_ret (kb : string * cred_buf) (s : state) : esp_err_t :=
  fst (load_from_nvs kb.1 kb.2 (sizeof kb.2) s).

Definition loaded_buf (kb : string * cred_buf) (s : state) : list ascii :=
  get_buf kb.2 (snd (load_from_nvs kb.1 kb.2 (sizeof kb.2) s)).

(** The [&&] chain over a list of keys: stop at the first load that does
    not return [ESP_OK] ([load_all] is the chain over [cred_keys]). *)
Fixpoint load_chain (l : list (string * cred_buf)) (s : state)
  : bool * state :=
  match l with
  | [] => (true, s)
  | kb :: rest =>
      let '(e, s) := load_from_nvs kb.1 kb.2 (sizeof kb.2) s in
      if negb (e =? ESP_OK) then (false, s) else load_chain rest s
  end.

(** The state in which the auto mode calls [attempt_wifi_connect]. *)
Definition link_ready (s : state) : state :=
  let s := snd (load_all (emit (a_printf msg_loading) s)) in
  emit (a_printf ("Credentials found for SSID: " +:+ cstr (ssid s)
                  +:+ endl +:+ "Connecting..." +:+ endl)) s.

(** *** Vocabulary of the statements about the link attempt *)



(** The number of [vTaskDelay(ms)] calls in a trace. *)
Definition is_delay (ms : Z) (a : action) : bool :=
  match a with
  | a_vTaskDelay ms' => ms' =? ms
  | _ => false
  end.

Definition delays (ms : Z) (t : list action) : nat :=
  length (List.filter (is_delay ms) t).




(** *** A stored value that does not fit its buffer *)

Definition long_ssid : string :=
  "0123456789012345678901234567890123456789".

Definition oversized_state : state :=
  boot_state ESP_OK (<["ssid" := long_ssid]> ∅) [] [] [] [].

(** *** Vocabulary of the statements about the publish loop *)

Definition is_publish (a : action) : bool :=
  match a with
  | a_esp_mqtt_client_publish _ _ _ _ _ => true
  | _ => false
  end.

Definition is_connect (a : action) : bool :=
  match a with
  | a_esp_wifi_connect => true
  | _ => false
  end.

(** The number of publish calls, and of [esp_wifi_connect()] calls, in a
    trace. *)
Definition publishes (t : list action) : nat :=
  length (List.filter is_publish t).

Definition connects (t : list action) : nat :=
  length (List.filter is_connect t).

(** The log lines of a trace, in order. *)
Definition logged (t : list action) : list (log_level * string) :=
  omap (λ a, match a with
             | a_log lvl text => Some (lvl, text)
             | _ => None
             end) t.

(** A failed publish is logged: the pass whose publish call returns -1
    writes log lines that the same pass does not write when the call
    returns the message id [msg_id]. *)
Definition failure_logged (s : state) (msg_id : Z) : Prop :=
  logged (trace (publish_step (set_publish_ret [-1] s))) ≠
  logged (trace (publish_step (set_publish_ret [msg_id] s))).





(** The flags a state shares with another one. *)
Definition same_flags (s s' : state) : Prop :=
  wifi_connected s' = wifi_connected s ∧
  mqtt_connected s' = mqtt_connected s.

(** *** What event handlers and sleeps may do *)

(** The calls a handler makes: a log line, or [esp_wifi_connect()]. *)
Definition handler_action (a : action) : Prop :=
  match a with
  | a_log _ _ | a_esp_wifi_connect => True
  | _ => False
  end.

(** What a handler never touches. *)
Definition kept_by_handlers (s s' : state) : Prop :=
  client s' = client s ∧
  (∀ b, get_buf b s' = get_buf b s) ∧
  nvs_open_ret s' = nvs_open_ret s ∧
  nvs s' = nvs s ∧
  uart_rx s' = uart_rx s ∧
  rng s' = rng s ∧
  publish_ret s' = publish_ret s.

(** *** The line reader as the specification words it *)

Definition is_terminator (ch : ascii) : bool :=
  Ascii.eqb ch CR || Ascii.eqb ch LF.

Definition is_backspace (ch : ascii) : bool :=
  Ascii.eqb ch BS || (code ch =? 127).

Definition is_printable (ch : ascii) : bool :=
  (32 <=? code ch) && (code ch <=? 126).

(** The echo of an accepted character. *)
Definition glyph (mask : bool) (ch : ascii) : string :=
  if mask then "*" else String ch "".

(** A line editor on the list of accumulated characters: it ends on a
    terminator or when [limit] characters are accumulated; backspace and
    delete drop the last character and erase it on the terminal, and do
    nothing on an empty line; printable characters are appended and
    echoed, masked or not; every other byte is dropped without echo.
    The result is the line, what was written to the terminal, and the
    input not yet consumed; [None] when the input ends first. *)
Fixpoint line_editor (rx : list (option ascii)) (limit : nat) (mask : bool)
    (acc : list ascii) (echo : list action)
  : option (list ascii * list action * list (option ascii)) :=
  if (length acc <? limit)%nat then
    match rx with
    | [] => None
    | None :: rx' => line_editor rx' limit mask acc echo
    | Some ch :: rx' =>
        if is_terminator ch then
          Some (acc, echo ++ [a_uart_write_bytes endl], rx')
        else if is_backspace ch then
          match acc with
          | [] => line_editor rx' limit mask acc echo
          | _ :: _ =>
              line_editor rx' limit mask (removelast acc)
                (echo ++ [a_uart_write_bytes erase_seq])
          end
        else if is_printable ch then
          line_editor rx' limit mask (acc ++ [ch])
            (echo ++ [a_uart_write_bytes (glyph mask ch)])
        else line_editor rx' limit mask acc echo
    end
  else Some (acc, echo, rx).

(** What [read_input] on buffer [b] leaves alone. *)
Definition kept_by_read (b : cred_buf) (s s' : state) : Prop :=
  wifi_connected s' = wifi_connected s ∧
  mqtt_connected s' = mqtt_connected s ∧
  client s' = client s ∧
  (∀ b', b' ≠ b → get_buf b' s' = get_buf b' s) ∧
  nvs_open_ret s' = nvs_open_ret s ∧
  nvs s' = nvs s ∧
  events s' = events s ∧
  rng s' = rng s ∧
  publish_ret s' = publish_ret s.

(** *** Vocabulary of the statements about persistence *)

(** The [nvs_set_str] calls of a trace, in order. *)
Definition stores (t : list action) : list (string * string) :=
  omap (λ a, match a with
             | a_nvs_set_str key value => Some (key, value)
             | _ => None
             end) t.

Definition put (m : gmap string string) (kv : string * string)
  : gmap string string :=
  <[kv.1 := kv.2]> m.

(** From [s] to [s'] the program has stored exactly the pairs [kvs], in
    this order, when the namespace opens, and nothing when it does not. *)
Definition persisted (kvs : list (string * string)) (s s' : state) : Prop :=
  nvs_open_ret s' = nvs_open_ret s ∧
  let written := if nvs_open_ret s =? ESP_OK then kvs else [] in
  nvs s' = foldl put (nvs s) written ∧
  stores (trace s') = stores (trace s) ++ written.

(** All four credential buffers are the same in two states. *)
Definition same_buffers (s s' : state) : Prop :=
  ∀ b, get_buf b s' = get_buf b s.

(** A property of the state a blocking part ends in, whether it returns
    or waits for input for ever. *)
Definition ends_in {A : Type} (o : outcome A) (P : state → Prop) : Prop :=
  match o with
  | Done _ s' => P s'
  | Blocked s' => P s'
  | OutOfFuel => True
  end.

(** The success branch of a wizard pass, from the return of the link
    attempt on. *)
Definition save_wifi_credentials (s : state) : state :=
  let s :=
    emit (a_printf ("Wi-Fi Connected! Saving to NVS..." +:+ endl)) s in
  let s := snd (save_to_nvs "ssid" (cstr (ssid s)) s) in
  snd (save_to_nvs "pass" (cstr (wifi_pass s)) s).

(** The pairs the wizard stores, as the buffers of a state hold them. *)
Definition wifi_pairs (s : state) : list (string * string) :=
  [("ssid", cstr (ssid s)); ("pass", cstr (wifi_pass s))].

Definition mqtt_pairs (s : state) : list (string * string) :=
  [("broker", cstr (mqtt_broker s)); ("topic", cstr (mqtt_topic s))].

(** [n] passes of the wizard's Wi-Fi entry in a row, each ending in a
    failed link attempt, lead from [s] to [s']. *)
Fixpoint failed_passes (n : nat) (s s' : state) : Prop :=
  match n with
  | O => s' = s
  | S n' =>
      ∃ s1, wizard_wifi_pass s = Done false s1 ∧ failed_passes n' s1 s'
  end.

(** *** Vocabulary of the statements about the boot menu *)

(** The six lines of the menu. *)
Definition menu_text : list action :=
  [a_printf (endl +:+ "===================================" +:+ endl);
   a_printf ("   BOOT MENU" +:+ endl);
   a_printf ("   [O] Auto Connect (Load NVS)" +:+ endl);
   a_printf ("   [N] New Setup (Manual Entry)" +:+ endl);
   a_printf ("===================================" +:+ endl);
   a_printf "Select >> "].

(** The state of a menu pass once the selection [ch] has arrived, after
    [k] time-outs, and has been echoed; [rest] is the input that
    follows. *)
Definition chosen (k : nat) (ch : ascii) (rest : list (option ascii))
    (s : state) : state :=
  emit (a_printf (String ch endl))
    (set_uart_rx rest (Nat.iter k (vTaskDelay 50) (print_menu s))).

(** A menu pass that reads [ch] at once and rejects it. *)
Definition rejected (s : state) (ch : ascii) : state :=
  emit (a_printf msg_invalid) (chosen 0 ch (tail (uart_rx s)) s).

Definition unrecognized (ch : ascii) : Prop :=
  is_O ch = false ∧ is_N ch = false.

(** *** Vocabulary of the statements about the buffers and the line reader *)

(** An array of [size] bytes that holds a terminated C string. *)
Definition terminated (size : Z) (buf : list ascii) : Prop :=
  length buf = Z.to_nat size ∧ NUL ∈ buf.

Definition buffers_ok (s : state) : Prop :=
  ∀ b, terminated (sizeof b) (get_buf b s).

(** The echo of a run of accepted characters. *)
Definition echo_of (mask : bool) (w : list ascii) : list action :=
  map (λ c, a_uart_write_bytes (glyph mask c)) w.

(** What a masked entry writes to the terminal. *)
Definition masked_write (a : action) : Prop :=
  a = a_uart_write_bytes "*" ∨ a = a_uart_write_bytes erase_seq ∨
  a = a_uart_write_bytes endl.

(** An entry for buffer [b]: printable characters, few enough for the
    line to be ended by its terminator and not by the size of [b]. *)
Definition entry (w : string) (b : cred_buf) : Prop :=
  Forall (λ c, is_printable c = true) (chars w) ∧ strlen w < sizeof b - 1.

(** *** Vocabulary of the statements about provisioning *)

(** From [s] to [s'] input is taken from the front of the receive list
    only, and as long as no MQTT client exists none is created and
    [mqtt_connected] keeps its value. *)
Definition provisioning (s s' : state) : Prop :=
  uart_rx s' `suffix_of` uart_rx s ∧
  (client s = None →
   client s' = None ∧ mqtt_connected s' = mqtt_connected s).

(** Two states the event loop cannot tell apart. *)
Definition same_network (s s' : state) : Prop :=
  same_flags s s' ∧ client s' = client s ∧ events s' = events s.

(** The calls that neither start nor stop the Wi-Fi driver and do not reach
    the MQTT client. *)
Definition plain (a : action) : bool :=
  match a with
  | a_esp_wifi_start | a_esp_wifi_stop | a_esp_mqtt_client_start _
  | a_esp_mqtt_client_publish _ _ _ _ _ => false
  | _ => true
  end.

(** The calls of a trace that [p] selects, in order. *)
Definition selected (p : action → bool) (t : list action) : list action :=
  List.filter p t.

(** A run of link attempts: each one starts the driver, and the ones
    marked [true] are followed by [esp_wifi_stop()]. *)
Definition rounds (l : list bool) : list action :=
  concat (map (λ stopped : bool,
                 a_esp_wifi_start ::
                 if stopped then [a_esp_wifi_stop] else []) l).

(** From [s] to [s'] the calls that are not plain are the ones of the
    attempts [l]. *)
Definition attempts_made (p : action → bool) (l : list bool)
    (s s' : state) : Prop :=
  selected p (trace s') = selected p (trace s) ++ selected p (rounds l).

Definition is_driver (a : action) : bool :=
  match a with
  | a_esp_wifi_start | a_esp_wifi_stop => true
  | _ => false
  end.

Definition is_mqtt (a : action) : bool :=
  match a with
  | a_esp_mqtt_client_start _ | a_esp_mqtt_client_publish _ _ _ _ _ => true
  | _ => false
  end.

(** The [esp_wifi_start()] and [esp_wifi_stop()] calls of a trace, and its
    calls to the MQTT client, in order. *)
Definition driver_calls (t : list action) : list action :=
  selected is_driver t.

Definition mqtt_calls (t : list action) : list action :=
  selected is_mqtt t.

(** What a poll of the link wait adds to the trace. *)
Definition poll_action (a : action) : Prop :=
  a = a_vTaskDelay 100 ∨ handler_action a.

(** *** Vocabulary of the statements about events and the publish loop *)

(** What an event says about the link, and about the MQTT session. *)
Definition link_news (e : event) : option bool :=
  match e with
  | (WIFI_EVENT, WIFI_EVENT_STA_DISCONNECTED) => Some false
  | (IP_EVENT, IP_EVENT_STA_GOT_IP) => Some true
  | _ => None
  end.

Definition session_news (e : event) : option bool :=
  match e with
  | (MQTT_EVENTS, MQTT_EVENT_CONNECTED) => Some true
  | (MQTT_EVENTS, MQTT_EVENT_DISCONNECTED) => Some false
  | _ => None
  end.

(** The last news of a batch, or [flag] when the batch has none. *)
Definition latest (news : event → option bool) (batch : list event)
    (flag : bool) : bool :=
  foldl (λ cur e, default cur (news e)) flag batch.

Definition is_sta_start (e : event) : bool :=
  match e with
  | (WIFI_EVENT, WIFI_EVENT_STA_START) => true
  | _ => false
  end.

Definition sta_starts (batch : list event) : nat :=
  length (List.filter is_sta_start batch).

(** No event arrives any more. *)
Definition silent (s : state) : Prop :=
  Forall (λ batch : list event, batch = []) (events s).

(** * Properties *)

(** ** Setters and projections *)

Lemma get_set_buf_eq b v s : get_buf b (set_buf b v s) = v.
Proof. by destruct b. Qed.

Lemma get_set_buf_ne b b' v s :
  b ≠ b' → get_buf b' (set_buf b v s) = get_buf b' s.
Proof. by destruct b, b'. Qed.

Lemma set_buf_id b s : set_buf b (get_buf b s) s = s.
Proof. by destruct b, s. Qed.

(** What a state shares with another one when only credential buffers and
    the trace may differ. *)
Definition same_outside_buffers (s s' : state) : Prop :=
  wifi_connected s' = wifi_connected s ∧
  mqtt_connected s' = mqtt_connected s ∧
  client s' = client s ∧
  nvs_open_ret s' = nvs_open_ret s ∧
  nvs s' = nvs s ∧
  uart_rx s' = uart_rx s ∧
  events s' = events s ∧
  rng s' = rng s ∧
  publish_ret s' = publish_ret s.

Lemma same_outside_buffers_refl s : same_outside_buffers s s.
Proof. by repeat split. Qed.

Lemma same_outside_buffers_trans s1 s2 s3 :
  same_outside_buffers s1 s2 → same_outside_buffers s2 s3 →
  same_outside_buffers s1 s3.
Proof. unfold same_outside_buffers. intuition congruence. Qed.

Lemma same_outside_buffers_set_buf b v s :
  same_outside_buffers s (set_buf b v s).
Proof. by destruct b. Qed.

Lemma same_outside_buffers_emit a s : same_outside_buffers s (emit a s).
Proof. by repeat split. Qed.

(** ** The NVS helpers *)

(** [load_from_nvs] by cases on the store. *)
Lemma load_from_nvs_cases key b max_len s :
  load_from_nvs key b max_len s =
  if negb (nvs_open_ret s =? ESP_OK) then (nvs_open_ret s, s)
  else
    match nvs s !! key with
    | None => (ESP_ERR_NVS_NOT_FOUND, s)
    | Some v =>
        if strlen v + 1 <=? max_len then
          (ESP_OK,
           set_buf b (store_prefix (chars v ++ [NUL]) (get_buf b s)) s)
        else (ESP_OK, s)
    end.
Proof.
  unfold load_from_nvs, nvs_get_str_size, nvs_get_str.
  destruct (negb _); [done|].
  destruct (nvs s !! key) as [v|]; [|done].
  change (ESP_OK =? ESP_OK) with true. cbn [andb].
  destruct (strlen v + 1 <=? max_len); [|done].
  by rewrite Z.ltb_irrefl.
Qed.

(** The return code of a load: success exactly when the namespace opens
    and the key is present. *)
Lemma load_from_nvs_ok_iff key b max_len s :
  fst (load_from_nvs key b max_len s) = ESP_OK ↔
  nvs_open_ret s = ESP_OK ∧ is_Some (nvs s !! key).
Proof.
  rewrite load_from_nvs_cases.
  destruct (Z.eqb_spec (nvs_open_ret s) ESP_OK) as [Ho|Ho]; cbn [negb].
  - destruct (nvs s !! key) as [v|] eqn:Hk.
    + destruct (_ <=? _); cbn; split; eauto.
    + cbn. split; [done|]. intros [_ [? ?]]. done.
  - cbn. tauto.
Qed.

Lemma load_from_nvs_absent key b max_len s :
  nvs s !! key = None → fst (load_from_nvs key b max_len s) ≠ ESP_OK.
Proof.
  intros Hk Hok. apply load_from_nvs_ok_iff in Hok as [_ [v Hv]]. congruence.
Qed.

Lemma load_from_nvs_same key b max_len s :
  same_outside_buffers s (snd (load_from_nvs key b max_len s)).
Proof.
  rewrite load_from_nvs_cases.
  destruct (negb _); [apply same_outside_buffers_refl|].
  destruct (nvs s !! key); [|apply same_outside_buffers_refl].
  destruct (_ <=? _); [apply same_outside_buffers_set_buf|].
  apply same_outside_buffers_refl.
Qed.

Lemma load_from_nvs_trace key b max_len s :
  trace (snd (load_from_nvs key b max_len s)) = trace s.
Proof.
  rewrite load_from_nvs_cases.
  destruct (negb _); [done|]. destruct (nvs s !! key); [|done].
  destruct (_ <=? _); [|done]. by destruct b.
Qed.

(** A load that does not return [ESP_OK] leaves every buffer alone. *)
Lemma load_from_nvs_failed key b max_len s :
  fst (load_from_nvs key b max_len s) ≠ ESP_OK →
  snd (load_from_nvs key b max_len s) = s.
Proof.
  rewrite load_from_nvs_cases.
  destruct (negb _); [done|]. destruct (nvs s !! key); [|done].
  destruct (_ <=? _); cbn; [|done]. intros H. by destruct H.
Qed.

(** A load touches no buffer but its own. *)
Lemma load_from_nvs_other key b b' max_len s :
  b ≠ b' → get_buf b' (snd (load_from_nvs key b max_len s)) = get_buf b' s.
Proof.
  intros Hb. rewrite load_from_nvs_cases.
  destruct (negb _); [done|]. destruct (nvs s !! key); [|done].
  destruct (_ <=? _); [|done]. cbn. by apply get_set_buf_ne.
Qed.

(** The return code of a load depends on the store only. *)
Lemma load_from_nvs_ret_indep key b max_len s s' :
  same_outside_buffers s s' →
  fst (load_from_nvs key b max_len s') = fst (load_from_nvs key b max_len s).
Proof.
  intros (_ & _ & _ & Ho & Hn & _). rewrite !load_from_nvs_cases, Ho, Hn.
  destruct (negb _); [done|]. destruct (nvs s !! key); [|done].
  by destruct (_ <=? _).
Qed.

(** A stored value larger than the caller's buffer: the copy is skipped
    and the code of the length query, [ESP_OK], is what is returned. *)
Lemma load_from_nvs_oversized key b max_len s v :
  nvs_open_ret s = ESP_OK → nvs s !! key = Some v →
  max_len < strlen v + 1 →
  load_from_nvs key b max_len s = (ESP_OK, s).
Proof.
  intros Ho Hk Hlen. rewrite load_from_nvs_cases, Ho, Hk.
  change (negb (ESP_OK =? ESP_OK)) with false. cbn match.
  by rewrite (proj2 (Z.leb_gt _ _)) by lia.
Qed.

(** C2, at a stored SSID of 40 characters and the 32-byte buffer [ssid]:
    the value does not fit, yet [load_from_nvs] returns [ESP_OK] and the
    buffer is still the empty string. *)
Theorem load_from_nvs_oversized_reports_ok :
  sizeof SSID < strlen long_ssid + 1 ∧
  load_from_nvs "ssid" SSID (sizeof SSID) oversized_state =
    (ESP_OK, oversized_state) ∧
  cstr (ssid oversized_state) = "".
Proof.
  split; [done|]. split; [|done].
  by apply load_from_nvs_oversized with (v := long_ssid).
Qed.

(** ** The completeness gate of the auto mode *)

Lemma load_all_chain s : load_all s = load_chain cred_keys s.
Proof.
  unfold load_all, cred_keys, load_chain. cbn [fst snd].
  do 4 destruct (load_from_nvs _ _ _ _) as [? ?].
  by repeat destruct (_ =? _).
Qed.

Lemma load_from_nvs_buf_indep key b max_len s s' :
  same_outside_buffers s s' → get_buf b s' = get_buf b s →
  get_buf b (snd (load_from_nvs key b max_len s')) =
  get_buf b (snd (load_from_nvs key b max_len s)).
Proof.
  intros (_ & _ & _ & Ho & Hn & _) Hb.
  rewrite !load_from_nvs_cases, Ho, Hn.
  destruct (negb _); [done|]. destruct (nvs s !! key); [|done].
  destruct (_ <=? _); [|done]. cbn [snd].
  by rewrite !get_set_buf_eq, Hb.
Qed.

Lemma load_chain_ok_iff l s0 s :
  same_outside_buffers s0 s →
  fst (load_chain l s) = true ↔ Forall (λ kb, load_ret kb s0 = ESP_OK) l.
Proof.
  revert s. induction l as [|kb l IH]; intros s F; cbn [load_chain].
  { split; [constructor|done]. }
  rewrite Forall_cons. unfold load_ret at 1.
  rewrite <- (load_from_nvs_ret_indep _ _ _ _ _ F).
  pose proof (load_from_nvs_same kb.1 kb.2 (sizeof kb.2) s) as G.
  destruct (load_from_nvs _ _ _ s) as [e s1]. cbn [fst snd] in *.
  destruct (Z.eqb_spec e ESP_OK) as [K|K]; cbn [negb fst].
  - rewrite (IH s1) by eauto using same_outside_buffers_trans. tauto.
  - split; [done|tauto].
Qed.

Lemma load_chain_same l s : same_outside_buffers s (snd (load_chain l s)).
Proof.
  revert s. induction l as [|kb l IH]; intros s; cbn [load_chain].
  { apply same_outside_buffers_refl. }
  pose proof (load_from_nvs_same kb.1 kb.2 (sizeof kb.2) s) as G.
  destruct (load_from_nvs _ _ _ s) as [e s1]. cbn [snd] in G.
  destruct (negb _); [done|].
  eauto using same_outside_buffers_trans.
Qed.

Lemma load_chain_trace l s : trace (snd (load_chain l s)) = trace s.
Proof.
  revert s. induction l as [|kb l IH]; intros s; cbn [load_chain]; [done|].
  pose proof (load_from_nvs_trace kb.1 kb.2 (sizeof kb.2) s) as G.
  destruct (load_from_nvs _ _ _ s) as [e s1]. cbn [snd] in G.
  destruct (negb _); [done|]. by rewrite IH.
Qed.

(** A buffer that is not the target of a load of the chain keeps its
    contents. *)
Lemma load_chain_other l b s :
  b ∉ l.*2 → get_buf b (snd (load_chain l s)) = get_buf b s.
Proof.
  revert s. induction l as [|kb l IH]; intros s Hb; cbn [load_chain]; [done|].
  rewrite fmap_cons, not_elem_of_cons in Hb. destruct Hb as [Hne Hb].
  pose proof (load_from_nvs_other kb.1 kb.2 b (sizeof kb.2) s) as G.
  destruct (load_from_nvs _ _ _ s) as [e s1]. cbn [snd] in G.
  destruct (negb _); cbn [snd]; [by apply G|].
  rewrite IH by done. by apply G.
Qed.

(** After the chain every target buffer is as before, or holds what its
    own successful load has put there. *)
Lemma load_chain_buffers l s0 s :
  NoDup l.*2 → same_outside_buffers s0 s →
  (∀ kb, kb ∈ l → get_buf kb.2 s = get_buf kb.2 s0) →
  Forall (λ kb, get_buf kb.2 (snd (load_chain l s)) = get_buf kb.2 s0 ∨
                (load_ret kb s0 = ESP_OK ∧
                 get_buf kb.2 (snd (load_chain l s)) = loaded_buf kb s0)) l.
Proof.
  revert s. induction l as [|kb l IH]; intros s Hnd F Hb; [constructor|].
  rewrite fmap_cons in Hnd. apply NoDup_cons in Hnd as [Hkb Hnd].
  cbn [load_chain].
  pose proof (load_from_nvs_same kb.1 kb.2 (sizeof kb.2) s) as G.
  pose proof (load_from_nvs_failed kb.1 kb.2 (sizeof kb.2) s) as Hf.
  pose proof (load_from_nvs_ret_indep _ kb.2 (sizeof kb.2) _ _ F
                : _ = load_ret kb s0) as Hr.
  pose proof (load_from_nvs_buf_indep kb.1 kb.2 (sizeof kb.2) s0 s F
                (Hb kb ltac:(left)) : _ = loaded_buf kb s0) as Hl.
  pose proof (λ b, load_from_nvs_other kb.1 kb.2 b (sizeof kb.2) s) as Ho.
  destruct (load_from_nvs _ _ _ s) as [e s1]. cbn [fst snd] in *.
  destruct (Z.eqb_spec e ESP_OK) as [K|K]; cbn [negb snd].
  - constructor.
    + right. rewrite load_chain_other by done. split; congruence.
    + apply IH; [done|eauto using same_outside_buffers_trans|].
      intros kb' Hin. rewrite Ho; [apply Hb; by right|].
      intros Heq. apply Hkb. rewrite Heq. by apply list_elem_of_fmap_2.
  - rewrite (Hf K). constructor; [left; apply Hb; by left|].
    apply Forall_forall. intros kb' Hin. left. apply Hb. by right.
Qed.

Lemma auto_mode_unfold s :
  auto_mode s =
  if fst (load_all (emit (a_printf msg_loading) s)) then
    let r := attempt_wifi_connect (link_ready s) in
    if fst r =? ESP_OK then (true, snd r)
    else (false, emit (a_printf msg_connect_failed) (snd r))
  else
    (false,
     emit (a_printf msg_no_config)
       (snd (load_all (emit (a_printf msg_loading) s)))).
Proof.
  unfold auto_mode, link_ready.
  destruct (load_all _) as [[] s1]; cbn [fst snd]; [|done].
  by destruct (attempt_wifi_connect _) as [e s2].
Qed.

Lemma load_all_emit_ok_iff a s :
  fst (load_all (emit a s)) = true ↔
  Forall (λ kb, load_ret kb s = ESP_OK) cred_keys.
Proof.
  rewrite load_all_chain.
  apply load_chain_ok_iff, same_outside_buffers_emit.
Qed.

(** C1. In the auto mode [config_ready] becomes true exactly when the four
    loads return [ESP_OK] and the link attempt that follows succeeds.
    When some load fails, the pass ends with [config_ready] false after the
    two lines "Loading..." and "No saved configuration found!" and nothing
    else: no call to the Wi-Fi driver, flags, store and inputs untouched,
    and each buffer either as before or as its own successful load left
    it.  Every non-empty set of missing keys makes a load fail. *)
Theorem auto_mode_completeness_gate (s : state) :
  let s' := snd (auto_mode s) in
  (fst (auto_mode s) = true ↔
     Forall (λ kb, load_ret kb s = ESP_OK) cred_keys ∧
     fst (attempt_wifi_connect (link_ready s)) = ESP_OK) ∧
  (Exists (λ kb, load_ret kb s ≠ ESP_OK) cred_keys →
     fst (auto_mode s) = false ∧
     trace s' = trace s ++ [a_printf msg_loading; a_printf msg_no_config] ∧
     same_outside_buffers s s' ∧
     Forall (λ kb, get_buf kb.2 s' = get_buf kb.2 s ∨
                   (load_ret kb s = ESP_OK ∧
                    get_buf kb.2 s' = loaded_buf kb s)) cred_keys) ∧
  (∀ missing : list (string * cred_buf),
     missing ≠ [] → missing ⊆ cred_keys →
     (∀ kb, kb ∈ missing → nvs s !! kb.1 = None) →
     Exists (λ kb, load_ret kb s ≠ ESP_OK) cred_keys).
Proof.
  intros s'. subst s'. rewrite auto_mode_unfold.
  split; [|split].
  - rewrite <- (load_all_emit_ok_iff (a_printf msg_loading) s).
    destruct (fst (load_all _)); cbn zeta.
    + destruct (Z.eqb_spec (fst (attempt_wifi_connect (link_ready s))) ESP_OK);
        cbn [fst]; intuition congruence.
    + cbn [fst]. intuition congruence.
  - intros Hex. apply Exists_not_Forall in Hex.
    destruct (fst (load_all _)) eqn:Hl;
      [by apply load_all_emit_ok_iff in Hl|].
    cbn [fst snd]. rewrite load_all_chain.
    set (s1 := emit (a_printf msg_loading) s).
    split; [done|]. split; [|split].
    + cbn [trace emit]. rewrite load_chain_trace. cbn [trace emit s1].
      by rewrite <- app_assoc.
    + eapply same_outside_buffers_trans; [|apply same_outside_buffers_emit].
      eapply same_outside_buffers_trans; [|apply load_chain_same].
      apply same_outside_buffers_emit.
    + pose proof (load_chain_buffers cred_keys s s1) as Hb.
      eapply Forall_impl; [apply Hb|].
      * apply (bool_decide_unpack _). by vm_compute.
      * apply same_outside_buffers_emit.
      * by intros [k []].
      * intros [k b] H. by destruct b.
  - intros missing Hne Hsub Hmiss.
    destruct missing as [|kb rest]; [done|].
    apply Exists_exists. exists kb. split.
    + apply Hsub. by left.
    + apply load_from_nvs_absent, Hmiss. by left.
Qed.

(** The store of the specification's second scenario: only the network
    fields are present. *)
Definition network_only_state : state :=
  boot_state ESP_OK (<["ssid" := "net1"]> (<["pass" := "pw1"]> ∅))
    [] [] [] [].

Lemma auto_mode_completeness_gate_witness :
  fst (auto_mode network_only_state) = false ∧
  trace (snd (auto_mode network_only_state)) =
    [a_printf msg_loading; a_printf msg_no_config] ∧
  cstr (ssid (snd (auto_mode network_only_state))) = "net1" ∧
  cstr (mqtt_broker (snd (auto_mode network_only_state))) = "".
Proof.
  destruct (auto_mode_completeness_gate network_only_state)
    as (_ & Hfail & Hmissing).
  destruct Hfail as (Hr & Ht & _ & _).
  - apply (Hmissing [("broker", MQTT_BROKER); ("topic", MQTT_TOPIC)]).
    + done.
    + apply (bool_decide_unpack _). by vm_compute.
    + intros kb Hin.
      repeat (apply elem_of_cons in Hin as [->|Hin]; [done|]).
      by apply elem_of_nil in Hin.
  - split; [exact Hr|]. split; [exact Ht|]. by vm_compute.
Defined.

(** ** Event delivery and [vTaskDelay] *)

Lemma kept_by_handlers_refl s : kept_by_handlers s s.
Proof. by repeat split. Qed.

Lemma kept_by_handlers_trans s1 s2 s3 :
  kept_by_handlers s1 s2 → kept_by_handlers s2 s3 → kept_by_handlers s1 s3.
Proof.
  intros (?&Hb&?&?&?&?&?) (?&Hb'&?&?&?&?&?).
  split; [congruence|].
  split; [intros b; by rewrite Hb', Hb|repeat split; congruence].
Qed.

Lemma deliver_effect s e :
  kept_by_handlers s (deliver s e) ∧
  ∃ ext, trace (deliver s e) = trace s ++ ext ∧ Forall handler_action ext.
Proof.
  unfold deliver, wifi_event_handler, mqtt_event_handler, kept_by_handlers.
  destruct e as [[] []]; try destruct (client s) eqn:?;
    (split; [repeat split; try done; by intros []|]);
    cbn [trace emit set_wifi_connected set_mqtt_connected];
    first [ by eexists [_]; split; [|repeat constructor]
          | by exists []; rewrite app_nil_r ].
Qed.

Lemma foldl_deliver_effect batch s :
  kept_by_handlers s (foldl deliver s batch) ∧
  ∃ ext, trace (foldl deliver s batch) = trace s ++ ext ∧
         Forall handler_action ext.
Proof.
  revert s. induction batch as [|e batch IH]; intros s; cbn [foldl].
  { split; [apply kept_by_handlers_refl|]. exists []. by rewrite app_nil_r. }
  destruct (deliver_effect s e) as (K1 & ext1 & T1 & F1).
  destruct (IH (deliver s e)) as (K2 & ext2 & T2 & F2).
  split; [by eapply kept_by_handlers_trans|].
  exists (ext1 ++ ext2). rewrite T2, T1, app_assoc. split; [done|].
  by apply Forall_app.
Qed.

Lemma vTaskDelay_effect ms s :
  kept_by_handlers s (vTaskDelay ms s) ∧
  ∃ ext, trace (vTaskDelay ms s) = trace s ++ a_vTaskDelay ms :: ext ∧
         Forall handler_action ext.
Proof.
  unfold vTaskDelay. cbn [events emit].
  destruct (events s) as [|batch later].
  { split; [by repeat split; try intros []|]. by exists []. }
  destruct (foldl_deliver_effect batch
              (set_events later (emit (a_vTaskDelay ms) s)))
    as (K & ext & T & F).
  split.
  - eapply kept_by_handlers_trans; [|exact K]. by repeat split; try intros [].
  - exists ext. rewrite T. cbn [trace set_events emit].
    by rewrite <- app_assoc.
Qed.

(** ** The link attempt *)


(** With a budget of [80 - attempts] the loop is left with its test
    false: the budget never cuts it short. *)
Lemma wait_for_link_exit budget attempts s :
  attempts + Z.of_nat budget = 80 →
  let '(attempts', s') := wait_for_link budget attempts s in
  negb (wifi_connected s') && (attempts' <? 80) = false.
Proof.
  revert attempts s.
  induction budget as [|budget IH]; intros attempts s Ha; cbn [wait_for_link].
  { replace (attempts <? 80) with false by lia. apply andb_false_r. }
  destruct (negb (wifi_connected s) && (attempts <? 80)) eqn:Htest; [|done].
  apply IH. lia.
Qed.




Lemma deliver_events s e : events (deliver s e) = events s.
Proof.
  unfold deliver, wifi_event_handler, mqtt_event_handler.
  destruct e as [[] []]; try destruct (client s); try done.
Qed.

Lemma foldl_deliver_events batch s :
  events (foldl deliver s batch) = events s.
Proof.
  revert s. induction batch as [|e batch IH]; intros s; cbn; [done|].
  by rewrite IH, deliver_events.
Qed.

Lemma vTaskDelay_events ms s : events (vTaskDelay ms s) = tail (events s).
Proof.
  unfold vTaskDelay. cbn. destruct (events s) eqn:He; cbn; [done|].
  by rewrite foldl_deliver_events.
Qed.


Lemma delays_app ms t1 t2 :
  delays ms (t1 ++ t2) = (delays ms t1 + delays ms t2)%nat.
Proof. unfold delays. by rewrite List.filter_app, length_app. Qed.

Lemma deliver_delays ms s e :
  delays ms (trace (deliver s e)) = delays ms (trace s).
Proof.
  unfold deliver, wifi_event_handler, mqtt_event_handler.
  destruct e as [[] []]; try destruct (client s); try done;
    cbn [trace emit]; by rewrite delays_app, Nat.add_0_r.
Qed.

Lemma foldl_deliver_delays ms batch s :
  delays ms (trace (foldl deliver s batch)) = delays ms (trace s).
Proof.
  revert s. induction batch as [|e batch IH]; intros s; cbn; [done|].
  by rewrite IH, deliver_delays.
Qed.

Lemma vTaskDelay_delays ms ms' s :
  delays ms (trace (vTaskDelay ms' s)) =
  (delays ms (trace s) + if (ms' =? ms)%Z then 1 else 0)%nat.
Proof.
  assert (delays ms (trace (emit (a_vTaskDelay ms') s)) =
          (delays ms (trace s) + if (ms' =? ms)%Z then 1 else 0)%nat) as H.
  { cbn [trace emit]. rewrite delays_app. f_equal. unfold delays. cbn.
    by destruct (ms' =? ms)%Z. }
  unfold vTaskDelay. destruct (events _) eqn:He; [done|].
  by rewrite foldl_deliver_delays.
Qed.














(** ** The publish loop *)

Lemma publish_step_cases s :
  publish_step s =
  if wifi_connected s && mqtt_connected s then
    let payload := snprintf 16 (fmt_d (fst (esp_random s) mod 100)) in
    let s1 := snd (esp_random s) in
    emit (a_log LOGI ("Published: " +:+ payload))
      (snd (esp_mqtt_client_publish (cstr (mqtt_topic s1)) payload 0 1 0 s1))
  else if negb (wifi_connected s) then
    emit a_esp_wifi_connect (emit (a_log LOGW "Wi-Fi Lost. Reconnecting...") s)
  else s.
Proof.
  unfold publish_step. destruct (_ && _); [|done].
  destruct (esp_random s) as [r s1]. cbn [fst snd].
  by destruct (esp_mqtt_client_publish _ _ _ _ _ _).
Qed.


Lemma esp_random_frame s :
  let s1 := snd (esp_random s) in
  trace s1 = trace s ∧ same_flags s s1 ∧ mqtt_topic s1 = mqtt_topic s ∧
  events s1 = events s ∧ client s1 = client s ∧
  publish_ret s1 = publish_ret s.
Proof. unfold esp_random, same_flags. by destruct (rng s). Qed.

Lemma esp_mqtt_client_publish_frame topic data len qos retain s :
  let s1 := snd (esp_mqtt_client_publish topic data len qos retain s) in
  trace s1 = trace s ++ [a_esp_mqtt_client_publish topic data len qos retain] ∧
  same_flags s s1 ∧ mqtt_topic s1 = mqtt_topic s ∧ events s1 = events s ∧
  client s1 = client s.
Proof.
  unfold esp_mqtt_client_publish, same_flags. cbn.
  by destruct (publish_ret s).
Qed.

(** The trace of one pass through the body of the loop. *)
Lemma publish_step_trace s :
  trace (publish_step s) =
  trace s ++
  if wifi_connected s && mqtt_connected s then
    let payload := snprintf 16 (fmt_d (fst (esp_random s) mod 100)) in
    [a_esp_mqtt_client_publish (cstr (mqtt_topic s)) payload 0 1 0;
     a_log LOGI ("Published: " +:+ payload)]
  else if negb (wifi_connected s) then
    [a_log LOGW "Wi-Fi Lost. Reconnecting..."; a_esp_wifi_connect]
  else [].
Proof.
  rewrite publish_step_cases. destruct (_ && _).
  - cbn zeta. cbn [trace emit].
    destruct (esp_random_frame s) as (Ht & _ & Htopic & _).
    destruct (esp_mqtt_client_publish_frame
                (cstr (mqtt_topic (snd (esp_random s))))
                (snprintf 16 (fmt_d (fst (esp_random s) mod 100))) 0 1 0
                (snd (esp_random s))) as (Hp & _).
    cbn zeta in *. rewrite Hp, Ht, Htopic. by rewrite <- app_assoc.
  - destruct (negb _); cbn [trace emit]; [by rewrite <- app_assoc|].
    by rewrite app_nil_r.
Qed.

Lemma publish_step_flags s : same_flags s (publish_step s).
Proof.
  rewrite publish_step_cases. destruct (_ && _).
  - cbn zeta. unfold same_flags. cbn [wifi_connected mqtt_connected emit].
    destruct (esp_random_frame s) as (_ & [Hw Hm] & _).
    destruct (esp_mqtt_client_publish_frame
                (cstr (mqtt_topic (snd (esp_random s))))
                (snprintf 16 (fmt_d (fst (esp_random s) mod 100))) 0 1 0
                (snd (esp_random s))) as (_ & [Hw' Hm'] & _).
    cbn zeta in *. split; congruence.
  - by destruct (negb _).
Qed.

Lemma publishes_app t1 t2 :
  publishes (t1 ++ t2) = (publishes t1 + publishes t2)%nat.
Proof. unfold publishes. by rewrite List.filter_app, length_app. Qed.

Lemma connects_app t1 t2 :
  connects (t1 ++ t2) = (connects t1 + connects t2)%nat.
Proof. unfold connects. by rewrite List.filter_app, length_app. Qed.

(** The return value of the publish call has no part in what the step
    does next. *)
Lemma publish_step_ignores_result s r r' rest :
  wifi_connected s = true → mqtt_connected s = true →
  publish_step (set_publish_ret (r' :: rest) s) =
  publish_step (set_publish_ret (r :: rest) s).
Proof.
  intros Hw Hm.
  unfold publish_step. cbn [wifi_connected mqtt_connected set_publish_ret].
  rewrite Hw, Hm. cbn [andb].
  unfold esp_random, esp_mqtt_client_publish. cbn [rng set_publish_ret].
  by destruct (rng s).
Qed.

(** Event delivery reads and writes the flags, and reads [client]; the
    rest of the state has no influence on the flags it leaves. *)
Lemma deliver_flags s s' e :
  same_flags s s' → client s' = client s →
  same_flags (deliver s e) (deliver s' e) ∧
  client (deliver s' e) = client (deliver s e).
Proof.
  intros [Hw Hm] Hc. unfold deliver, wifi_event_handler, mqtt_event_handler.
  unfold same_flags. rewrite Hc.
  destruct e as [[] []]; try destruct (client s) eqn:?; cbn;
    repeat split; congruence.
Qed.

Lemma foldl_deliver_flags batch s s' :
  same_flags s s' → client s' = client s →
  same_flags (foldl deliver s batch) (foldl deliver s' batch).
Proof.
  revert s s'. induction batch as [|e batch IH]; intros s s' Hf Hc; [done|].
  cbn. destruct (deliver_flags s s' e Hf Hc). by apply IH.
Qed.

Lemma vTaskDelay_flags ms s s' :
  same_flags s s' → client s' = client s → events s' = events s →
  same_flags (vTaskDelay ms s) (vTaskDelay ms s').
Proof.
  intros Hf Hc He. unfold vTaskDelay. cbn [events emit]. rewrite He.
  destruct (events s); [done|]. by apply foldl_deliver_flags.
Qed.

Lemma publish_step_events s : events (publish_step s) = events s.
Proof.
  rewrite publish_step_cases. destruct (_ && _).
  - cbn zeta. cbn [events emit].
    destruct (esp_random_frame s) as (_ & _ & _ & He & _).
    destruct (esp_mqtt_client_publish_frame
                (cstr (mqtt_topic (snd (esp_random s))))
                (snprintf 16 (fmt_d (fst (esp_random s) mod 100))) 0 1 0
                (snd (esp_random s))) as (_ & _ & _ & He' & _).
    cbn zeta in *. congruence.
  - by destruct (negb _).
Qed.

Lemma publish_step_client s : client (publish_step s) = client s.
Proof.
  rewrite publish_step_cases. destruct (_ && _).
  - cbn zeta. cbn [client emit].
    destruct (esp_random_frame s) as (_ & _ & _ & _ & He & _).
    destruct (esp_mqtt_client_publish_frame
                (cstr (mqtt_topic (snd (esp_random s))))
                (snprintf 16 (fmt_d (fst (esp_random s) mod 100))) 0 1 0
                (snd (esp_random s))) as (_ & _ & _ & _ & He').
    cbn zeta in *. congruence.
  - by destruct (negb _).
Qed.

Lemma publish_loop_delays n s :
  delays 10000 (trace (publish_loop n s)) =
  (delays 10000 (trace s) + n)%nat.
Proof.
  revert s. induction n as [|n IH]; intros s; cbn [publish_loop]; [lia|].
  rewrite IH. unfold tick. rewrite vTaskDelay_delays, publish_step_trace.
  rewrite delays_app. change (10000 =? 10000) with true.
  destruct (_ && _); [cbn; lia|]. destruct (negb _); cbn; lia.
Qed.

(** A provisioned node: both flags up, broker and topic in their
    buffers. *)
Definition running_example : state :=
  mkState true true None (replicate 32 NUL) (replicate 64 NUL)
    (store_prefix (chars "10.0.0.5" ++ [NUL]) (replicate 64 NUL))
    (store_prefix (chars "sensors/a" ++ [NUL]) (replicate 64 NUL))
    ESP_OK ∅ [] [] [1234567; 99; 4294967295] [1; -1] [].

(** C5 (amended). One pass through the body of the publish loop calls
    [esp_mqtt_client_publish] once when both flags are up at that moment,
    and not at all otherwise; with the link up and the session down it does
    nothing.  The value the publish call returns is not looked at, so a
    failed publish is not reported: whether the call failed or not, the
    same "Published" line is logged and the step ends in the same state.
    The step leaves both flags as they were, so after the sleep they are
    what the event handlers alone make of the flags the tick started with;
    and the loop goes through [n] ticks for every [n]. *)
Theorem publish_gating (s : state) :
  let s1 := publish_step s in
  (publishes (trace s1) =
     (publishes (trace s) +
      if wifi_connected s && mqtt_connected s then 1 else 0)%nat) ∧
  (wifi_connected s = true → mqtt_connected s = false → s1 = s) ∧
  (wifi_connected s = true → mqtt_connected s = true →
     ∃ payload,
       trace s1 =
         trace s ++
         [a_esp_mqtt_client_publish (cstr (mqtt_topic s)) payload 0 1 0;
          a_log LOGI ("Published: " +:+ payload)] ∧
       ∀ r r' rest,
         publish_step (set_publish_ret (r' :: rest) s) =
         publish_step (set_publish_ret (r :: rest) s)) ∧
  same_flags s s1 ∧
  same_flags (vTaskDelay 10000 s) (tick s) ∧
  (∀ n, delays 10000 (trace (publish_loop n s)) =
        (delays 10000 (trace s) + n)%nat).
Proof.
  intros s1. subst s1.
  split; [|split; [|split; [|split; [|split]]]].
  - rewrite publish_step_trace, publishes_app. f_equal.
    destruct (_ && _); [done|]. by destruct (negb _).
  - intros Hw Hm. by rewrite publish_step_cases, Hw, Hm.
  - intros Hw Hm. eexists. split.
    + rewrite publish_step_trace, Hw, Hm. cbn [andb]. cbn zeta. reflexivity.
    + intros r r' rest. by apply publish_step_ignores_result.
  - apply publish_step_flags.
  - apply vTaskDelay_flags;
      [apply publish_step_flags|apply publish_step_client
      |apply publish_step_events].
  - intros n. apply publish_loop_delays.
Qed.

Lemma publish_gating_witness :
  publishes (trace (publish_step running_example)) = 1%nat ∧
  wifi_connected (publish_step running_example) = true ∧
  mqtt_connected (publish_step running_example) = true ∧
  publishes (trace (publish_step (set_mqtt_connected false running_example)))
    = 0%nat.
Proof.
  destruct (publish_gating running_example) as (Hp & _ & _ & [Hw Hm] & _).
  destruct (publish_gating (set_mqtt_connected false running_example))
    as (Hp' & _).
  cbn zeta in *. by rewrite Hp, Hw, Hm, Hp'.
Defined.

(** C5 as it is worded fails: the publish call of this pass returns -1, the
    only line logged is the "Published" line, and the log is the one of the
    pass whose call returns a message id. *)
Lemma failed_publish_not_logged :
  fst (esp_mqtt_client_publish "sensors/a" "67" 0 1 0
         (set_publish_ret [-1] running_example)) = -1 ∧
  logged (trace (publish_step (set_publish_ret [-1] running_example))) =
    [(LOGI, "Published: 67")] ∧
  ¬ failure_logged running_example 7.
Proof.
  split; [done|]. split; [by vm_compute|].
  intros H. apply H. by vm_compute.
Qed.

(** C6. With the link down at the start of a tick, the body of the loop
    logs the loss and calls [esp_wifi_connect()] exactly once, and does not
    publish.  With the link up and the session down it makes no call at
    all. *)
Theorem reconnect_trigger (s : state) :
  let s1 := publish_step s in
  (wifi_connected s = false →
     trace s1 =
       trace s ++ [a_log LOGW "Wi-Fi Lost. Reconnecting..."; a_esp_wifi_connect] ∧
     connects (trace s1) = (connects (trace s) + 1)%nat ∧
     publishes (trace s1) = publishes (trace s)) ∧
  (wifi_connected s = true → mqtt_connected s = false →
     trace s1 = trace s ∧
     connects (trace s1) = connects (trace s) ∧
     publishes (trace s1) = publishes (trace s)).
Proof.
  intros s1. subst s1. split.
  - intros Hw. rewrite publish_step_trace, Hw. cbn [andb negb].
    rewrite connects_app, publishes_app. cbn. repeat split; lia.
  - intros Hw Hm. rewrite publish_step_trace, Hw, Hm. cbn [andb negb].
    by rewrite app_nil_r.
Qed.

Lemma reconnect_trigger_witness :
  connects
    (trace (publish_step (set_wifi_connected false running_example))) = 1%nat ∧
  publishes
    (trace (publish_step (set_wifi_connected false running_example))) = 0%nat ∧
  trace (publish_step (set_mqtt_connected false running_example)) = [].
Proof.
  destruct (reconnect_trigger (set_wifi_connected false running_example))
    as [Hdown _].
  destruct (reconnect_trigger (set_mqtt_connected false running_example))
    as [_ Hup].
  destruct (Hdown eq_refl) as (_ & Hc & Hp).
  destruct (Hup eq_refl eq_refl) as (Ht & _).
  cbn zeta in *. by rewrite Hc, Hp, Ht.
Defined.

(** ** The broker URI and the published message *)

Lemma substring_all str n :
  (String.length str ≤ n)%nat → substring 0 n str = str.
Proof.
  revert n. induction str as [|c str IH]; intros [|n] Hn; cbn in *;
    try done; try lia.
  f_equal. apply IH. lia.
Qed.

Lemma string_length_app (a b : string) :
  String.length (a +:+ b) = (String.length a + String.length b)%nat.
Proof. induction a as [|c a IH]; simpl; [done|]. by f_equal. Qed.

Lemma cstr_length buf : (String.length (cstr buf) ≤ length buf)%nat.
Proof.
  induction buf as [|c buf IH]; cbn; [done|].
  destruct (Ascii.eqb c NUL); cbn; lia.
Qed.

(** The 128 bytes of [uri] hold the URI of every broker string that fits
    [mqtt_broker]. *)
Lemma start_mqtt_uri s :
  (length (mqtt_broker s) ≤ 64)%nat →
  snprintf 128 ("mqtt://" +:+ cstr (mqtt_broker s) +:+ ":1883") =
  "mqtt://" +:+ cstr (mqtt_broker s) +:+ ":1883".
Proof.
  intros Hlen. apply substring_all.
  pose proof (cstr_length (mqtt_broker s)).
  rewrite !string_length_app. cbn. lia.
Qed.








(** ** The line reader *)

Lemma kept_by_read_refl b s : kept_by_read b s s.
Proof. by repeat split. Qed.

Lemma kept_by_read_trans b s1 s2 s3 :
  kept_by_read b s1 s2 → kept_by_read b s2 s3 → kept_by_read b s1 s3.
Proof.
  intros (?&?&?&Hb&?&?&?&?&?) (?&?&?&Hb'&?&?&?&?&?).
  do 3 (split; [congruence|]).
  split; [intros b' Hne; by rewrite Hb', Hb|repeat split; congruence].
Qed.

Lemma kept_by_read_set_buf b v s : kept_by_read b s (set_buf b v s).
Proof.
  unfold kept_by_read.
  destruct b; cbn; repeat split; try done; by intros [] ?.
Qed.

Lemma kept_by_read_emit b a s : kept_by_read b s (emit a s).
Proof. unfold kept_by_read. repeat split; try done. Qed.

Lemma kept_by_read_set_uart_rx b rx s : kept_by_read b s (set_uart_rx rx s).
Proof. unfold kept_by_read. repeat split; try done. Qed.

Lemma printable_not_NUL ch : is_printable ch = true → Ascii.eqb ch NUL = false.
Proof.
  unfold is_printable. intros H. apply Ascii.eqb_neq. intros ->.
  by vm_compute in H.
Qed.

(** The C string of an array that starts with printable characters
    followed by a NUL. *)
Lemma cstr_terminated acc rest :
  Forall (λ c, is_printable c = true) acc →
  cstr (acc ++ NUL :: rest) = of_chars acc.
Proof.
  induction 1 as [|c acc Hc _ IH]; cbn; [done|].
  by rewrite (printable_not_NUL c Hc), IH.
Qed.

Lemma to_size_t_small z : 0 ≤ z < 2 ^ 32 → to_size_t z = z.
Proof. intros Hz. unfold to_size_t. by apply Z.mod_small. Qed.

(** The loop test, on the list of accumulated characters. *)
Lemma loop_test len (acc : list ascii) :
  1 ≤ len < 2 ^ 32 → (length acc ≤ Z.to_nat (len - 1))%nat →
  (to_size_t (Z.of_nat (length acc)) <? to_size_t (len - 1)) =
  (length acc <? Z.to_nat (len - 1))%nat.
Proof.
  intros Hlen Hacc. rewrite !to_size_t_small by lia.
  destruct (Nat.ltb_spec (length acc) (Z.to_nat (len - 1))); lia.
Qed.

Lemma take_removelast (buf : list ascii) k :
  (k < length buf)%nat → removelast (take (S k) buf) = take k buf.
Proof. apply removelast_firstn. Qed.

Lemma get_buf_emit b a s : get_buf b (emit a s) = get_buf b s.
Proof. by destruct b. Qed.

Lemma get_buf_set_uart_rx b rx s : get_buf b (set_uart_rx rx s) = get_buf b s.
Proof. by destruct b. Qed.

Lemma trace_set_buf b v s : trace (set_buf b v s) = trace s.
Proof. by destruct b. Qed.

Lemma uart_rx_set_buf b v s : uart_rx (set_buf b v s) = uart_rx s.
Proof. by destruct b. Qed.

Lemma length_removelast (acc : list ascii) :
  acc ≠ [] → length acc = S (length (removelast acc)).
Proof.
  intros Hne. rewrite (app_removelast_last NUL Hne) at 1.
  rewrite length_app. cbn. lia.
Qed.

Lemma Forall_removelast {A} (P : A → Prop) (l : list A) :
  Forall P l → Forall P (removelast l).
Proof.
  induction 1 as [|x l Hx Hl IH]; [constructor|].
  cbn. destruct l; [constructor|]. by constructor.
Qed.

Lemma memset0_length buf len :
  length buf = Z.to_nat len → length (memset0 buf len) = Z.to_nat len.
Proof.
  intros H. unfold memset0, store_prefix.
  rewrite length_app, length_drop, !length_replicate. lia.
Qed.

Section LineReader.

(** The arguments of one call of [read_input]: the buffer, its size as a
    [size_t] that is not 0, and the masking flag. *)
Context (b : cred_buf) (len : Z) (mask : bool).
Hypothesis Hlen : 1 ≤ len < 2 ^ 32.

(** The loop of [read_input], started on an array whose first [i] entries
    are the accumulated characters, does what the line editor does. *)
Lemma read_input_loop_refines rx :
  ∀ s acc echo t0,
    length (get_buf b s) = Z.to_nat len →
    take (length acc) (get_buf b s) = acc →
    (length acc ≤ Z.to_nat (len - 1))%nat →
    Forall (λ c, is_printable c = true) acc →
    trace s = t0 ++ echo →
    match line_editor rx (Z.to_nat (len - 1)) mask acc echo with
    | Some (acc', echo', rest) =>
        ∃ s',
          read_input_loop rx b len mask (Z.of_nat (length acc)) s =
            Done (Z.of_nat (length acc')) s' ∧
          take (length acc') (get_buf b s') = acc' ∧
          length (get_buf b s') = Z.to_nat len ∧
          (length acc' ≤ Z.to_nat (len - 1))%nat ∧
          Forall (λ c, is_printable c = true) acc' ∧
          trace s' = t0 ++ echo' ∧
          uart_rx s' = rest ∧
          kept_by_read b s s'
    | None =>
        ∃ s',
          read_input_loop rx b len mask (Z.of_nat (length acc)) s =
            Blocked s'
    end.
Proof.
  induction rx as [|[ch|] rx IH]; intros s acc echo t0 Hbuf Htake Hacc Hpr Ht;
    cbn [line_editor read_input_loop]; rewrite loop_test by done;
    destruct (Nat.ltb_spec (length acc) (Z.to_nat (len - 1))) as [Hlt|Hge].
  all: try (eexists; split; [done|];
            rewrite get_buf_set_uart_rx;
            do 6 (split; [done|]);
            apply kept_by_read_set_uart_rx).
  - eauto.
  - fold (is_terminator ch). fold (is_backspace ch). fold (is_printable ch).
    destruct (is_terminator ch).
    { eexists. split; [done|].
      rewrite get_buf_set_uart_rx, get_buf_emit.
      do 4 (split; [done|]).
      split; [cbn [trace emit set_uart_rx]; by rewrite Ht, app_assoc|].
      split; [done|].
      eapply kept_by_read_trans;
        [apply kept_by_read_emit|apply kept_by_read_set_uart_rx]. }
    destruct (is_backspace ch).
    { destruct (decide (acc = [])) as [->|Hne].
      - change (0 <? Z.of_nat (length [])) with false. cbn match.
        by apply IH.
      - pose proof (length_removelast acc Hne) as Hl.
        replace (0 <? Z.of_nat (length acc)) with true by lia.
        replace (Z.of_nat (length acc) - 1)
          with (Z.of_nat (length (removelast acc))) by lia.
        assert (take (length (removelast acc)) (get_buf b s) =
                removelast acc) as Htake'.
        { rewrite <- Htake at 2. rewrite Hl. by rewrite take_removelast by lia. }
        specialize (IH (emit (a_uart_write_bytes erase_seq) s)
                      (removelast acc)
                      (echo ++ [a_uart_write_bytes erase_seq]) t0).
        rewrite get_buf_emit in IH.
        specialize (IH Hbuf Htake' ltac:(lia)).
        specialize (IH (Forall_removelast _ _ Hpr)).
        specialize (IH ltac:(cbn [trace emit]; by rewrite Ht, app_assoc)).
        destruct acc as [|c acc']; [done|].
        destruct (line_editor _ _ _ _ _) as [[[acc1 echo1] rest]|]; [|done].
        destruct IH as (s' & E & ? & ? & ? & ? & ? & ? & K).
        exists s'. do 7 (split; [done|]).
        eapply kept_by_read_trans; [apply kept_by_read_emit|done]. }
    destruct (is_printable ch) eqn:Hch; [|by apply IH].
    replace (Z.of_nat (length acc) + 1)
      with (Z.of_nat (length (acc ++ [ch])))
      by (rewrite length_app; cbn; lia).
    rewrite Nat2Z.id. fold (glyph mask ch).
    set (s1 := emit _ (set_buf b _ s)).
    assert (get_buf b s1 = <[length acc := ch]> (get_buf b s)) as Hb1.
    { subst s1. by rewrite get_buf_emit, get_set_buf_eq. }
    assert (length acc < length (get_buf b s))%nat as Hin by lia.
    assert (take (length (acc ++ [ch])) (get_buf b s1) = acc ++ [ch]) as A2.
    { rewrite Hb1, length_app. cbn [length]. rewrite Nat.add_1_r.
      rewrite (take_S_r _ _ ch) by (by apply list_lookup_insert_eq).
      by rewrite take_insert_ge, Htake by lia. }
    specialize (IH s1 (acc ++ [ch])
                  (echo ++ [a_uart_write_bytes (glyph mask ch)]) t0
                  ltac:(by rewrite Hb1, length_insert) A2
                  ltac:(rewrite length_app; cbn; lia)
                  ltac:(apply Forall_app; split; [done|by constructor])
                  ltac:(subst s1; cbn [trace emit];
                        by rewrite trace_set_buf, Ht, app_assoc)).
    destruct (line_editor _ _ _ _ _) as [[[acc1 echo1] rest]|]; [|done].
    destruct IH as (s' & E & ? & ? & ? & ? & ? & ? & K).
    exists s'. do 7 (split; [done|]).
    eapply kept_by_read_trans; [|exact K]. subst s1.
    eapply kept_by_read_trans;
      [apply kept_by_read_set_buf|apply kept_by_read_emit].
  - by apply IH.
Qed.

(** [read_input] against the line editor. *)
Lemma read_input_refines prompt s :
  length (get_buf b s) = Z.to_nat len →
  match line_editor (uart_rx s) (Z.to_nat (len - 1)) mask [] [] with
  | Some (line, echo, rest) =>
      ∃ s',
        read_input prompt b len mask s = Done tt s' ∧
        cstr (get_buf b s') = of_chars line ∧
        (length line ≤ Z.to_nat (len - 1))%nat ∧
        Forall (λ c, is_printable c = true) line ∧
        trace s' = trace s ++ a_printf prompt :: echo ∧
        uart_rx s' = rest ∧
        length (get_buf b s') = Z.to_nat len ∧
        kept_by_read b s s'
  | None => ∃ s', read_input prompt b len mask s = Blocked s'
  end.
Proof.
  intros Hbuf. unfold read_input.
  set (s1 := set_buf b _ (emit _ s)).
  assert (uart_rx s1 = uart_rx s) as -> by (subst s1; by destruct b).
  assert (get_buf b s1 = memset0 (get_buf b s) len) as Hb1.
  { subst s1. by rewrite get_set_buf_eq, get_buf_emit. }
  pose proof (read_input_loop_refines (uart_rx s) s1 [] []
                (trace s ++ [a_printf prompt])) as H.
  rewrite Hb1 in H.
  specialize (H (memset0_length _ _ Hbuf) eq_refl ltac:(cbn; lia)
                (Forall_nil_2 _)
                ltac:(subst s1; rewrite trace_set_buf; cbn [trace emit];
                      by rewrite app_nil_r)).
  change (Z.of_nat (length [])) with 0 in H.
  destruct (line_editor _ _ _ _ _) as [[[line echo] rest]|].
  - destruct H as (s2 & -> & Htake & Hlen2 & Hline & Hpr & Ht & Hrx & K).
    cbn [bind]. eexists. split; [done|].
    rewrite get_set_buf_eq, Nat2Z.id, trace_set_buf, uart_rx_set_buf.
    rewrite length_insert.
    assert (length line < length (get_buf b s2))%nat as Hin by lia.
    split.
    { rewrite insert_take_drop by done. rewrite Htake.
      by apply cstr_terminated. }
    do 2 (split; [done|]).
    split; [by rewrite Ht, <- app_assoc|].
    do 2 (split; [done|]).
    eapply kept_by_read_trans; [|apply kept_by_read_set_buf].
    eapply kept_by_read_trans; [|exact K]. subst s1.
    eapply kept_by_read_trans;
      [apply kept_by_read_emit|apply kept_by_read_set_buf].
  - destruct H as (s2 & ->). cbn [bind]. eauto.
Qed.

End LineReader.

(** C8. On every input, [read_input] on a buffer of [len] bytes does what
    the line editor does with a limit of [len - 1] characters: it returns
    on CR or LF or once [len - 1] characters are accumulated; backspace
    and delete remove the last character and erase it on the terminal, and
    do nothing on an empty line; only bytes 32 to 126 enter the line, every
    other byte is dropped without echo; with [mask] each accepted character
    is echoed as a star.  The buffer then holds the line as a C string, the
    trace has grown by the prompt and the editor's echo, and nothing
    besides this buffer, the receive list and the trace has changed.  When
    the input ends before the line does, [read_input] does not return. *)
Theorem read_input_line_editor prompt b len mask s :
  1 ≤ len < 2 ^ 32 →
  length (get_buf b s) = Z.to_nat len →
  match line_editor (uart_rx s) (Z.to_nat (len - 1)) mask [] [] with
  | Some (line, echo, rest) =>
      ∃ s',
        read_input prompt b len mask s = Done tt s' ∧
        cstr (get_buf b s') = of_chars line ∧
        (length line ≤ Z.to_nat (len - 1))%nat ∧
        Forall (λ c, is_printable c = true) line ∧
        trace s' = trace s ++ a_printf prompt :: echo ∧
        uart_rx s' = rest ∧
        length (get_buf b s') = Z.to_nat len ∧
        kept_by_read b s s'
  | None => ∃ s', read_input prompt b len mask s = Blocked s'
  end.
Proof. intros Hlen Hbuf. by apply read_input_refines. Qed.

(** A password typed with a correction, a time-out and a bell
    character. *)
Definition typing_example : state :=
  boot_state ESP_OK ∅
    (typed "ab" ++ [Some BS; None; Some "007"%char] ++ typed "cd" ++
     [Some CR] ++ typed "x")
    [] [] [].

Lemma read_input_line_editor_witness :
  ∃ s',
    read_input "Enter Password: " WIFI_PASS 64 true typing_example =
      Done tt s' ∧
    cstr (wifi_pass s') = "acd" ∧
    trace s' =
      [a_printf "Enter Password: "; a_uart_write_bytes "*";
       a_uart_write_bytes "*"; a_uart_write_bytes erase_seq;
       a_uart_write_bytes "*"; a_uart_write_bytes "*";
       a_uart_write_bytes endl] ∧
    uart_rx s' = typed "x".
Proof.
  pose proof (read_input_line_editor "Enter Password: " WIFI_PASS 64 true
                typing_example ltac:(lia) eq_refl) as H.
  vm_compute line_editor in H.
  destruct H as (s' & E & Hc & _ & _ & Ht & Hrx & _).
  exists s'. by repeat split.
Defined.

(** ** Persistence *)

Lemma stores_app t1 t2 : stores (t1 ++ t2) = stores t1 ++ stores t2.
Proof. apply omap_app. Qed.

Lemma persisted_refl s : persisted [] s s.
Proof.
  unfold persisted. split; [done|]. cbn zeta.
  destruct (_ =? _); by rewrite app_nil_r.
Qed.

Lemma persisted_trans l1 l2 s1 s2 s3 :
  persisted l1 s1 s2 → persisted l2 s2 s3 → persisted (l1 ++ l2) s1 s3.
Proof.
  unfold persisted. intros (Ho & Hn & Ht) (Ho' & Hn' & Ht').
  rewrite Ho in *. split; [congruence|]. cbn zeta in *.
  rewrite Hn', Ht', Hn, Ht.
  destruct (_ =? _); [|by rewrite app_nil_r].
  by rewrite foldl_app, app_assoc.
Qed.

Lemma persisted_nil_trans l s1 s2 s3 :
  persisted [] s1 s2 → persisted l s2 s3 → persisted l s1 s3.
Proof. apply (persisted_trans [] l). Qed.

Lemma persisted_trans_nil l s1 s2 s3 :
  persisted l s1 s2 → persisted [] s2 s3 → persisted l s1 s3.
Proof.
  intros H1 H2. rewrite <- (app_nil_r l). by eapply persisted_trans.
Qed.

(** A step that keeps the store and the return code of [nvs_open], and
    whose calls are no [nvs_set_str], persists nothing. *)
Lemma persisted_quiet s s' ext :
  nvs_open_ret s' = nvs_open_ret s → nvs s' = nvs s →
  trace s' = trace s ++ ext → stores ext = [] → persisted [] s s'.
Proof.
  intros Ho Hn Ht Hs. unfold persisted. split; [done|]. cbn zeta.
  rewrite Hn, Ht, stores_app, Hs. by destruct (_ =? _).
Qed.

Lemma persisted_emit a s :
  stores [a] = [] → persisted [] s (emit a s).
Proof. intros Ha. by apply (persisted_quiet _ _ [a]). Qed.

Lemma persisted_set_buf b v s : persisted [] s (set_buf b v s).
Proof.
  apply (persisted_quiet _ _ []); try (by destruct b).
  rewrite app_nil_r. by destruct b.
Qed.

Lemma persisted_set_uart_rx rx s : persisted [] s (set_uart_rx rx s).
Proof. apply (persisted_quiet _ _ []); try done. by rewrite app_nil_r. Qed.

Lemma handler_actions_stores ext : Forall handler_action ext → stores ext = [].
Proof.
  induction 1 as [|a ext Ha _ IH]; [done|]. by destruct a.
Qed.

Lemma persisted_vTaskDelay ms s : persisted [] s (vTaskDelay ms s).
Proof.
  destruct (vTaskDelay_effect ms s) as ((_&_&Ho&Hn&_) & ext & T & F).
  apply (persisted_quiet _ _ (a_vTaskDelay ms :: ext)); try done.
  cbn. by apply handler_actions_stores.
Qed.

Lemma same_buffers_refl s : same_buffers s s.
Proof. by intros b. Qed.

Lemma same_buffers_trans s1 s2 s3 :
  same_buffers s1 s2 → same_buffers s2 s3 → same_buffers s1 s3.
Proof. intros H1 H2 b. by rewrite H2, H1. Qed.

Lemma same_buffers_emit a s : same_buffers s (emit a s).
Proof. by intros []. Qed.

Lemma same_buffers_vTaskDelay ms s : same_buffers s (vTaskDelay ms s).
Proof. by destruct (vTaskDelay_effect ms s) as ((_&Hb&_) & _). Qed.

(** The store as [save_to_nvs] leaves it. *)
Lemma save_to_nvs_persisted key value s :
  persisted [(key, value)] s (snd (save_to_nvs key value s)) ∧
  same_buffers s (snd (save_to_nvs key value s)) ∧
  same_flags s (snd (save_to_nvs key value s)).
Proof.
  unfold save_to_nvs, persisted, nvs_set_str, nvs_commit.
  destruct (nvs_open_ret s =? ESP_OK) eqn:Ho; cbn [negb snd].
  - change (ESP_OK =? ESP_OK) with true. cbn [nvs_open_ret set_nvs emit].
    split; [split; [done|]|split; [by intros []|done]].
    cbn zeta. cbn [nvs trace set_nvs emit foldl put fst snd].
    split; [done|]. by rewrite stores_app.
  - split; [split; [done|]|done].
    cbn zeta. split; [done|]. by rewrite app_nil_r.
Qed.

(** The link attempt stores nothing and keeps the buffers. *)
Lemma wait_for_link_quiet budget attempts s :
  persisted [] s (snd (wait_for_link budget attempts s)) ∧
  same_buffers s (snd (wait_for_link budget attempts s)).
Proof.
  revert attempts s.
  induction budget as [|budget IH]; intros attempts s; cbn [wait_for_link].
  { split; [apply persisted_refl|apply same_buffers_refl]. }
  destruct (_ && _); [|split; [apply persisted_refl|apply same_buffers_refl]].
  destruct (IH (attempts + 1) (vTaskDelay 100 s)) as [P B].
  split.
  - eapply persisted_nil_trans; [apply persisted_vTaskDelay|done].
  - eapply same_buffers_trans; [apply same_buffers_vTaskDelay|done].
Qed.

Lemma attempt_wifi_connect_snd s :
  snd (attempt_wifi_connect s) = snd (wait_for_link 80 0 (attempt_begin s)).
Proof.
  unfold attempt_wifi_connect. by destruct (wait_for_link _ _ _).
Qed.

Lemma attempt_wifi_connect_fst s :
  fst (attempt_wifi_connect s) =
  if wifi_connected (snd (attempt_wifi_connect s)) then ESP_OK else ESP_FAIL.
Proof.
  unfold attempt_wifi_connect. by destruct (wait_for_link _ _ _).
Qed.

Lemma attempt_wifi_connect_quiet s :
  persisted [] s (snd (attempt_wifi_connect s)) ∧
  same_buffers s (snd (attempt_wifi_connect s)).
Proof.
  rewrite attempt_wifi_connect_snd.
  destruct (wait_for_link_quiet 80 0 (attempt_begin s)) as [P B].
  split.
  - eapply persisted_nil_trans; [|exact P].
    apply (persisted_quiet _ _
             [a_esp_wifi_set_mode_sta;
              a_esp_wifi_set_config (strncpy 32 (ssid s))
                (strncpy 64 (wifi_pass s));
              a_esp_wifi_start; a_esp_wifi_connect]); try done.
    unfold attempt_begin. cbn. by rewrite <- !app_assoc.
  - eapply same_buffers_trans; [|exact B]. by intros [].
Qed.

Lemma attempt_wifi_connect_flag s :
  fst (attempt_wifi_connect s) = ESP_OK ↔
  wifi_connected (snd (attempt_wifi_connect s)) = true.
Proof.
  rewrite attempt_wifi_connect_fst.
  by destruct (wifi_connected _).
Qed.

(** The line reader stores nothing and writes to its own buffer only. *)
Lemma read_input_loop_quiet rx b len mask i s :
  ends_in (read_input_loop rx b len mask i s)
    (λ s', persisted [] s s' ∧ kept_by_read b s s').
Proof.
  revert i s. induction rx as [|[ch|] rx IH]; intros i s;
    cbn [read_input_loop]; destruct (_ <? _); cbn [ends_in];
    try (split; [apply persisted_set_uart_rx|apply kept_by_read_set_uart_rx]).
  - destruct (_ || _).
    { cbn [ends_in]. split.
      - eapply persisted_nil_trans; [|apply persisted_set_uart_rx].
        by apply persisted_emit.
      - eapply kept_by_read_trans;
          [apply kept_by_read_emit|apply kept_by_read_set_uart_rx]. }
    destruct (_ || _).
    { destruct (0 <? i); [|apply IH].
      specialize (IH (i - 1) (emit (a_uart_write_bytes erase_seq) s)).
      destruct (read_input_loop _ _ _ _ _ _); cbn [ends_in] in *; try done.
      all: destruct IH as [P K]; split;
        [eapply persisted_nil_trans; [|exact P]; by apply persisted_emit
        |eapply kept_by_read_trans; [|exact K]; apply kept_by_read_emit]. }
    destruct (_ && _); [|apply IH].
    match goal with |- ends_in (read_input_loop _ _ _ _ _ ?s1) _ =>
      specialize (IH (i + 1) s1) end.
    destruct (read_input_loop _ _ _ _ _ _); cbn [ends_in] in *; try done.
    all: destruct IH as [P K]; split;
      [eapply persisted_nil_trans; [|exact P];
       eapply persisted_nil_trans; [apply persisted_set_buf|];
       by apply persisted_emit
      |eapply kept_by_read_trans; [|exact K];
       eapply kept_by_read_trans;
         [apply kept_by_read_set_buf|apply kept_by_read_emit]].
  - apply IH.
Qed.

Lemma read_input_quiet prompt b len mask s :
  ends_in (read_input prompt b len mask s)
    (λ s', persisted [] s s' ∧ kept_by_read b s s').
Proof.
  unfold read_input.
  set (s1 := set_buf b _ (emit _ s)).
  assert (persisted [] s s1 ∧ kept_by_read b s s1) as [P1 K1].
  { subst s1. split.
    - eapply persisted_nil_trans; [|apply persisted_set_buf].
      by apply persisted_emit.
    - eapply kept_by_read_trans;
        [apply kept_by_read_emit|apply kept_by_read_set_buf]. }
  pose proof (read_input_loop_quiet (uart_rx s1) b len mask 0 s1) as H.
  destruct (read_input_loop _ _ _ _ _ _); cbn [bind ends_in] in *; try done.
  all: destruct H as [P K]; split.
  - eapply persisted_nil_trans; [exact P1|].
    eapply persisted_nil_trans; [exact P|apply persisted_set_buf].
  - eapply kept_by_read_trans; [exact K1|].
    eapply kept_by_read_trans; [exact K|apply kept_by_read_set_buf].
  - by eapply persisted_nil_trans.
  - by eapply kept_by_read_trans.
Qed.

Lemma save_wifi_credentials_persisted s :
  persisted (wifi_pairs (save_wifi_credentials s)) s
    (save_wifi_credentials s) ∧
  same_buffers s (save_wifi_credentials s) ∧
  same_flags s (save_wifi_credentials s).
Proof.
  unfold save_wifi_credentials. cbn zeta.
  set (s0 := emit _ s).
  destruct (save_to_nvs_persisted "ssid" (cstr (ssid s0)) s0)
    as (P1 & B1 & F1).
  set (s1 := snd (save_to_nvs "ssid" (cstr (ssid s0)) s0)) in *.
  destruct (save_to_nvs_persisted "pass" (cstr (wifi_pass s1)) s1)
    as (P2 & B2 & F2).
  set (s2 := snd (save_to_nvs "pass" (cstr (wifi_pass s1)) s1)) in *.
  assert (same_buffers s s2) as B.
  { eapply same_buffers_trans; [apply same_buffers_emit|].
    by eapply same_buffers_trans. }
  split; [|split; [done|]].
  - unfold wifi_pairs.
    rewrite (B SSID : ssid s2 = _), (B WIFI_PASS : wifi_pass s2 = _).
    cbn [get_buf].
    rewrite (B1 WIFI_PASS : wifi_pass s1 = wifi_pass s0) in P2.
    apply (persisted_nil_trans _ _ s0); [by apply persisted_emit|].
    by apply (persisted_trans [_] [_] _ s1).
  - destruct F1, F2. split; subst s0; cbn in *; congruence.
Qed.

Lemma wizard_wifi_pass_cases s :
  wizard_wifi_pass s =
  bind (read_input "Enter SSID: " SSID (sizeof SSID) false s) (λ _ s,
  bind (read_input "Enter Password: " WIFI_PASS (sizeof WIFI_PASS) true s)
    (λ _ s,
  let r :=
    attempt_wifi_connect
      (emit (a_printf ("Attempting connection..." +:+ endl)) s) in
  if fst r =? ESP_OK then Done true (save_wifi_credentials (snd r))
  else
    Done false
      (emit a_esp_wifi_stop
         (emit (a_printf ("Connection Failed. Try again." +:+ endl))
            (snd r))))).
Proof.
  unfold wizard_wifi_pass, save_wifi_credentials.
  destruct (read_input _ SSID _ _ _) as [[] s1| |]; cbn [bind]; try done.
  destruct (read_input _ WIFI_PASS _ _ _) as [[] s2| |]; cbn [bind]; try done.
  destruct (attempt_wifi_connect _) as [e s3]. cbn [fst snd].
  destruct (e =? ESP_OK); [|done].
  by do 2 destruct (save_to_nvs _ _ _).
Qed.

(** One pass of the wizard's Wi-Fi entry: a failed link attempt stores
    nothing; a successful one is followed by the two saves and nothing
    else. *)
Lemma wizard_wifi_pass_persists s :
  match wizard_wifi_pass s with
  | Done true s' =>
      ∃ s0, fst (attempt_wifi_connect s0) = ESP_OK ∧
            persisted [] s (snd (attempt_wifi_connect s0)) ∧
            s' = save_wifi_credentials (snd (attempt_wifi_connect s0)) ∧
            persisted (wifi_pairs s') s s' ∧
            wifi_connected s' = true
  | Done false s' => persisted [] s s'
  | Blocked s' => persisted [] s s'
  | OutOfFuel => True
  end.
Proof.
  rewrite wizard_wifi_pass_cases.
  pose proof (read_input_quiet "Enter SSID: " SSID (sizeof SSID) false s) as H1.
  destruct (read_input _ SSID _ _ _) as [[] s1|s1|]; cbn [bind ends_in] in *;
    [|tauto|done].
  destruct H1 as [P1 _].
  pose proof (read_input_quiet "Enter Password: " WIFI_PASS (sizeof WIFI_PASS)
                true s1) as H2.
  destruct (read_input _ WIFI_PASS _ _ _) as [[] s2|s2|];
    cbn [bind ends_in] in *;
    [|destruct H2; by eapply persisted_nil_trans|done].
  destruct H2 as [P2 _]. cbn zeta.
  set (s3 := emit _ s2).
  destruct (attempt_wifi_connect_quiet s3) as [P3 _].
  assert (persisted [] s (snd (attempt_wifi_connect s3))) as P.
  { eapply persisted_nil_trans; [exact P1|].
    eapply persisted_nil_trans; [exact P2|].
    eapply persisted_nil_trans; [|exact P3]. by apply persisted_emit. }
  destruct (Z.eqb_spec (fst (attempt_wifi_connect s3)) ESP_OK) as [Hok|Hf].
  - exists s3. do 3 (split; [done|]).
    destruct (save_wifi_credentials_persisted (snd (attempt_wifi_connect s3)))
      as (Ps & _ & [Hw _]).
    split; [by eapply persisted_nil_trans|].
    rewrite Hw. by apply attempt_wifi_connect_flag.
  - eapply persisted_nil_trans; [exact P|].
    eapply persisted_nil_trans; [|by apply persisted_emit].
    by apply persisted_emit.
Qed.

(** The wizard's Wi-Fi loop, after any number of failed passes: the two
    saves of the pass that succeeds, and nothing before. *)
Lemma wizard_wifi_persists fuel s :
  match wizard_wifi fuel s with
  | Done _ s' => persisted (wifi_pairs s') s s'
  | Blocked s' => persisted [] s s'
  | OutOfFuel => True
  end.
Proof.
  revert s. induction fuel as [|fuel IH]; intros s; cbn [wizard_wifi]; [done|].
  pose proof (wizard_wifi_pass_persists s) as H.
  destruct (wizard_wifi_pass s) as [[] s1|s1|]; cbn [bind]; try done.
  - by destruct H as (_ & _ & _ & _ & P & _).
  - specialize (IH s1). destruct (wizard_wifi fuel s1); try done.
    all: by eapply persisted_nil_trans.
Qed.

(** The wizard's MQTT entry: both lines are stored as entered. *)
Lemma wizard_mqtt_persists s :
  match wizard_mqtt s with
  | Done _ s' => persisted (mqtt_pairs s') s s' ∧ wifi_pairs s' = wifi_pairs s
  | Blocked s' => persisted [] s s' ∧ wifi_pairs s' = wifi_pairs s
  | OutOfFuel => True
  end.
Proof.
  assert (∀ s1 s2 : state,
            get_buf SSID s2 = get_buf SSID s1 →
            get_buf WIFI_PASS s2 = get_buf WIFI_PASS s1 →
            wifi_pairs s2 = wifi_pairs s1) as Hpairs.
  { intros s1 s2 H1 H2. unfold wifi_pairs. cbn [get_buf] in *. congruence. }
  unfold wizard_mqtt.
  pose proof (read_input_quiet "Enter MQTT Broker IP: " MQTT_BROKER
                (sizeof MQTT_BROKER) false s) as H1.
  destruct (read_input _ MQTT_BROKER _ _ _) as [[] s1|s1|];
    cbn [bind ends_in] in *; [| |done].
  2:{ destruct H1 as [P1 (_&_&_&Kb1&_)]. split; [done|].
      apply Hpairs; by apply Kb1. }
  destruct H1 as [P1 (_&_&_&Kb1&_)].
  pose proof (read_input_quiet "Enter MQTT Topic: " MQTT_TOPIC
                (sizeof MQTT_TOPIC) false s1) as H2.
  destruct (read_input _ MQTT_TOPIC _ _ _) as [[] s2|s2|];
    cbn [bind ends_in] in *; [| |done].
  2:{ destruct H2 as [P2 (_&_&_&Kb2&_)].
      split; [by eapply persisted_nil_trans|].
      apply Hpairs; rewrite Kb2, Kb1; done. }
  destruct H2 as [P2 (_&_&_&Kb2&_)].
  destruct (save_to_nvs_persisted "broker" (cstr (mqtt_broker s2)) s2)
    as (P3 & B3 & _).
  destruct (save_to_nvs "broker" _ s2) as [e3 s3]. cbn [snd] in *.
  destruct (save_to_nvs_persisted "topic" (cstr (mqtt_topic s3)) s3)
    as (P4 & B4 & _).
  destruct (save_to_nvs "topic" _ s3) as [e4 s4]. cbn [snd] in *.
  split.
  - unfold mqtt_pairs.
    rewrite (B4 MQTT_BROKER : mqtt_broker s4 = _),
            (B4 MQTT_TOPIC : mqtt_topic s4 = _).
    cbn [get_buf]. rewrite (B3 MQTT_BROKER : mqtt_broker s3 = _).
    cbn [get_buf].
    eapply persisted_nil_trans; [exact P1|].
    eapply persisted_nil_trans; [exact P2|].
    by apply (persisted_trans [_] [_] _ s3).
  - apply Hpairs; rewrite B4, B3, Kb2, Kb1; done.
Qed.

Lemma wizard_mode_persists fuel s :
  match wizard_mode fuel s with
  | Done ready s' =>
      ready = true ∧ persisted (wifi_pairs s' ++ mqtt_pairs s') s s'
  | Blocked s' => persisted [] s s' ∨ persisted (wifi_pairs s') s s'
  | OutOfFuel => True
  end.
Proof.
  unfold wizard_mode. set (s0 := emit _ s).
  assert (persisted [] s s0) as P0 by (by apply persisted_emit).
  pose proof (wizard_wifi_persists fuel s0) as H1.
  destruct (wizard_wifi fuel s0) as [[] s1|s1|]; cbn [bind]; [| |done].
  2:{ left. by eapply persisted_nil_trans. }
  pose proof (wizard_mqtt_persists s1) as H2.
  destruct (wizard_mqtt s1) as [[] s2|s2|]; cbn [bind]; [| |done].
  - destruct H2 as [P2 ->]. split; [done|].
    eapply persisted_nil_trans; [exact P0|]. by eapply persisted_trans.
  - destruct H2 as [P2 ->]. right.
    eapply persisted_nil_trans; [exact P0|]. by eapply persisted_trans_nil.
Qed.

Lemma wait_choice_quiet rx s :
  ends_in (wait_choice rx s) (λ s', persisted [] s s').
Proof.
  revert s. induction rx as [|[ch|] rx IH]; intros s;
    cbn [wait_choice ends_in]; try apply persisted_set_uart_rx.
  specialize (IH (vTaskDelay 50 s)).
  destruct (wait_choice rx _); cbn [ends_in] in *; try done.
  all: eapply persisted_nil_trans; [apply persisted_vTaskDelay|done].
Qed.

Lemma print_menu_quiet s : persisted [] s (print_menu s).
Proof.
  unfold print_menu.
  repeat (eapply persisted_nil_trans; [|by apply persisted_emit]).
  apply persisted_refl.
Qed.

Lemma load_all_quiet s : persisted [] s (snd (load_all s)).
Proof.
  rewrite load_all_chain.
  destruct (load_chain_same cred_keys s) as (_&_&_&Ho&Hn&_).
  apply (persisted_quiet _ _ []); try done.
  by rewrite app_nil_r, load_chain_trace.
Qed.

Lemma link_ready_quiet s : persisted [] s (link_ready s).
Proof.
  unfold link_ready. cbn zeta.
  eapply persisted_nil_trans; [|by apply persisted_emit].
  eapply persisted_nil_trans; [|apply load_all_quiet].
  by apply persisted_emit.
Qed.

(** The auto mode stores nothing. *)
Lemma auto_mode_quiet s : persisted [] s (snd (auto_mode s)).
Proof.
  rewrite auto_mode_unfold.
  destruct (fst (load_all _)).
  - pose proof (persisted_nil_trans _ _ _ _ (link_ready_quiet s)
                  (proj1 (attempt_wifi_connect_quiet (link_ready s)))) as P.
    destruct (attempt_wifi_connect (link_ready s)) as [e s1].
    cbn [fst snd] in *. destruct (e =? ESP_OK); cbn [snd]; [done|].
    eapply persisted_nil_trans; [exact P|]. by apply persisted_emit.
  - cbn [snd]. eapply persisted_nil_trans; [|by apply persisted_emit].
    eapply persisted_nil_trans; [|apply load_all_quiet].
    by apply persisted_emit.
Qed.

Lemma menu_pass_persists fuel s :
  match menu_pass fuel s with
  | Done ready s' =>
      persisted [] s s' ∨
      (ready = true ∧ persisted (wifi_pairs s' ++ mqtt_pairs s') s s')
  | Blocked s' => persisted [] s s' ∨ persisted (wifi_pairs s') s s'
  | OutOfFuel => True
  end.
Proof.
  unfold menu_pass.
  pose proof (print_menu_quiet s) as P0.
  pose proof (wait_choice_quiet (uart_rx (print_menu s)) (print_menu s)) as H1.
  destruct (wait_choice _ _) as [choice s1|s1|]; cbn [bind ends_in] in *;
    [| |done].
  2:{ left. by eapply persisted_nil_trans. }
  set (s2 := emit _ s1).
  assert (persisted [] s s2) as P2.
  { eapply persisted_nil_trans; [exact P0|].
    eapply persisted_nil_trans; [exact H1|]. by apply persisted_emit. }
  destruct (is_O choice).
  { pose proof (auto_mode_quiet s2) as P3.
    destruct (auto_mode s2) as [ready s3]. cbn [snd] in P3.
    left. by eapply persisted_nil_trans. }
  destruct (is_N choice).
  { pose proof (wizard_mode_persists fuel s2) as H3.
    destruct (wizard_mode fuel s2) as [ready s3|s3|]; [| |done].
    - right. destruct H3 as [-> P3].
      split; [done|]. by eapply persisted_nil_trans.
    - destruct H3 as [P3|P3]; [left|right]; by eapply persisted_nil_trans. }
  left. eapply persisted_nil_trans; [exact P2|]. by apply persisted_emit.
Qed.

(** The boot menu, however many passes it takes: nothing is stored, or the
    wizard's four values in the order ssid, pass, broker, topic. *)
Lemma boot_menu_persists fuel s :
  match boot_menu fuel s with
  | Done _ s' =>
      persisted [] s s' ∨ persisted (wifi_pairs s' ++ mqtt_pairs s') s s'
  | Blocked s' => persisted [] s s' ∨ persisted (wifi_pairs s') s s'
  | OutOfFuel => True
  end.
Proof.
  revert s. induction fuel as [|fuel IH]; intros s; cbn [boot_menu]; [done|].
  pose proof (menu_pass_persists fuel s) as H.
  destruct (menu_pass fuel s) as [[] s1|s1|]; cbn [bind]; try done.
  - destruct H as [P|[_ P]]; [by left|by right].
  - destruct H as [P|[[=] _]].
    specialize (IH s1). destruct (boot_menu fuel s1) as [[] s2|s2|]; try done.
    all: destruct IH as [P'|P']; [left|right];
      by eapply persisted_nil_trans.
Qed.

Lemma start_mqtt_quiet s : persisted [] s (snd (start_mqtt s)).
Proof.
  unfold start_mqtt. cbn [snd].
  by eapply (persisted_quiet _ _ [a_esp_mqtt_client_start _]).
Qed.

Lemma publish_loop_quiet n s : persisted [] s (publish_loop n s).
Proof.
  revert s. induction n as [|n IH]; intros s; cbn [publish_loop].
  { apply persisted_refl. }
  eapply persisted_nil_trans; [|apply IH]. unfold tick.
  eapply persisted_nil_trans; [|apply persisted_vTaskDelay].
  rewrite publish_step_cases. destruct (_ && _).
  - cbn zeta.
    eapply persisted_nil_trans; [|by apply persisted_emit].
    unfold esp_mqtt_client_publish, esp_random.
    destruct (rng s); cbn [fst snd];
      (eapply (persisted_quiet _ _ [a_esp_mqtt_client_publish _ _ _ _ _]);
       [| | |done]); by destruct (publish_ret _).
  - destruct (negb _); [|apply persisted_refl].
    eapply persisted_nil_trans; [|by apply persisted_emit].
    by apply persisted_emit.
Qed.

Lemma failed_passes_persist n s s' :
  failed_passes n s s' → persisted [] s s'.
Proof.
  revert s. induction n as [|n IH]; intros s; cbn [failed_passes].
  { intros ->. apply persisted_refl. }
  intros (s1 & E & H). pose proof (wizard_wifi_pass_persists s) as P.
  rewrite E in P. eapply persisted_nil_trans; [exact P|by apply IH].
Qed.

(** ** The boot menu *)

Lemma print_menu_trace s : trace (print_menu s) = trace s ++ menu_text.
Proof. unfold print_menu, menu_text. cbn. by rewrite <- !app_assoc. Qed.

Lemma print_menu_uart_rx s : uart_rx (print_menu s) = uart_rx s.
Proof. done. Qed.

Lemma wait_choice_typed k ch rest s :
  wait_choice (replicate k None ++ Some ch :: rest) s =
  Done ch (set_uart_rx rest (Nat.iter k (vTaskDelay 50) s)).
Proof.
  revert s. induction k as [|k IH]; intros s; [done|].
  cbn [replicate app wait_choice]. by rewrite IH, Nat.iter_succ_r.
Qed.

Lemma wait_choice_silent k s :
  wait_choice (replicate k None) s =
  Blocked (set_uart_rx [] (Nat.iter k (vTaskDelay 50) s)).
Proof.
  revert s. induction k as [|k IH]; intros s; [done|].
  cbn [replicate wait_choice]. by rewrite IH, Nat.iter_succ_r.
Qed.

(** A selection that is read came after some time-outs. *)
Lemma wait_choice_done rx s ch s' :
  wait_choice rx s = Done ch s' →
  ∃ k rest, rx = replicate k None ++ Some ch :: rest ∧
            s' = set_uart_rx rest (Nat.iter k (vTaskDelay 50) s).
Proof.
  revert s. induction rx as [|[c|] rx IH]; intros s; cbn [wait_choice].
  - done.
  - intros [= -> <-]. by exists 0%nat, rx.
  - intros H. destruct (IH _ H) as (k & rest & -> & ->).
    exists (S k), rest. by rewrite Nat.iter_succ_r.
Qed.

Lemma menu_pass_chosen fuel s k ch rest :
  uart_rx s = replicate k None ++ Some ch :: rest →
  menu_pass fuel s =
  if is_O ch then
    Done (fst (auto_mode (chosen k ch rest s)))
      (snd (auto_mode (chosen k ch rest s)))
  else if is_N ch then wizard_mode fuel (chosen k ch rest s)
  else Done false (emit (a_printf msg_invalid) (chosen k ch rest s)).
Proof.
  intros Hrx. unfold menu_pass.
  rewrite print_menu_uart_rx, Hrx, wait_choice_typed. cbn [bind].
  fold (chosen k ch rest s). destruct (is_O ch); [|done].
  by destruct (auto_mode _).
Qed.

Lemma is_O_iff ch : is_O ch = true ↔ ch = "O"%char ∨ ch = "o"%char.
Proof.
  unfold is_O. rewrite orb_true_iff, !Ascii.eqb_eq. tauto.
Qed.

Lemma is_N_iff ch : is_N ch = true ↔ ch = "N"%char ∨ ch = "n"%char.
Proof.
  unfold is_N. rewrite orb_true_iff, !Ascii.eqb_eq. tauto.
Qed.

Lemma boot_menu_rejects fuel s k ch rest :
  uart_rx s = replicate k None ++ Some ch :: rest → unrecognized ch →
  boot_menu (S fuel) s =
  boot_menu fuel (emit (a_printf msg_invalid) (chosen k ch rest s)).
Proof.
  intros Hrx [HO HN]. cbn [boot_menu].
  by rewrite (menu_pass_chosen _ _ _ _ _ Hrx), HO, HN.
Qed.

Lemma rejected_uart_rx s ch : uart_rx (rejected s ch) = tail (uart_rx s).
Proof. done. Qed.

(** No limit on retries: after any number of unrecognized characters the
    loop is where it was, before the next pass. *)
Lemma boot_menu_retries chs : ∀ fuel s rest,
  Forall unrecognized chs → uart_rx s = map Some chs ++ rest →
  boot_menu (length chs + fuel) s = boot_menu fuel (foldl rejected s chs) ∧
  uart_rx (foldl rejected s chs) = rest.
Proof.
  induction chs as [|ch chs IH]; intros fuel s rest Hall Hrx; [done|].
  apply Forall_cons in Hall as [Hch Hall].
  cbn [length Nat.add foldl map app] in *.
  rewrite (boot_menu_rejects _ s 0 ch (map Some chs ++ rest) Hrx Hch).
  replace (emit _ (chosen 0 ch _ s)) with (rejected s ch)
    by (unfold rejected; by rewrite Hrx).
  apply IH; [done|]. by rewrite rejected_uart_rx, Hrx.
Qed.

(** The loop is left by a pass that ends with [config_ready] set. *)
Lemma boot_menu_exit fuel s s' :
  boot_menu fuel s = Done tt s' →
  ∃ fuel' s0, (fuel' < fuel)%nat ∧ menu_pass fuel' s0 = Done true s'.
Proof.
  revert s. induction fuel as [|fuel IH]; intros s; cbn [boot_menu]; [done|].
  destruct (menu_pass fuel s) as [[] s1|s1|] eqn:E; cbn [bind]; try done.
  - intros [= <-]. exists fuel, s. split; [lia|done].
  - intros H. destruct (IH _ H) as (fuel' & s0 & Hlt & E').
    exists fuel', s0. split; [lia|done].
Qed.

(** A pass sets [config_ready] through the auto mode or through the
    wizard. *)
Lemma menu_pass_ready fuel s s' :
  menu_pass fuel s = Done true s' →
  ∃ k ch rest,
    uart_rx s = replicate k None ++ Some ch :: rest ∧
    ((is_O ch = true ∧ auto_mode (chosen k ch rest s) = (true, s')) ∨
     (is_N ch = true ∧ wizard_mode fuel (chosen k ch rest s) = Done true s')).
Proof.
  intros H.
  assert (∃ ch s1, wait_choice (uart_rx (print_menu s)) (print_menu s) =
                   Done ch s1) as (ch & s1 & Hw).
  { unfold menu_pass in H. destruct (wait_choice _ _); try done. eauto. }
  destruct (wait_choice_done _ _ _ _ Hw) as (k & rest & Hrx & _).
  rewrite print_menu_uart_rx in Hrx.
  exists k, ch, rest. split; [done|].
  rewrite (menu_pass_chosen _ _ _ _ _ Hrx) in H.
  destruct (is_O ch).
  - left. split; [done|]. destruct (auto_mode _). by injection H as -> ->.
  - destruct (is_N ch); [|done]. by right.
Qed.

(** ** Enough fuel *)

(** Every pass of the two unbounded loops takes at least one result of
    [uart_read_bytes] from the input, so a budget above the length of the
    input is never used up: the boot menu returns or waits for input. *)

(** The results of [uart_read_bytes] not yet consumed. *)
Definition rx_left (s : state) : nat := length (uart_rx s).

Lemma vTaskDelay_rx ms s : uart_rx (vTaskDelay ms s) = uart_rx s.
Proof. by destruct (vTaskDelay_effect ms s) as ((_&_&_&_&Hrx&_) & _). Qed.

Lemma wait_for_link_rx budget attempts s :
  uart_rx (snd (wait_for_link budget attempts s)) = uart_rx s.
Proof.
  revert attempts s.
  induction budget as [|budget IH]; intros attempts s; cbn [wait_for_link];
    [done|].
  destruct (_ && _); [|done]. by rewrite IH, vTaskDelay_rx.
Qed.

Lemma attempt_wifi_connect_rx s :
  uart_rx (snd (attempt_wifi_connect s)) = uart_rx s.
Proof. by rewrite attempt_wifi_connect_snd, wait_for_link_rx. Qed.

Lemma save_to_nvs_rx key value s :
  uart_rx (snd (save_to_nvs key value s)) = uart_rx s.
Proof. unfold save_to_nvs, nvs_set_str. by destruct (negb _). Qed.

Lemma auto_mode_rx s : uart_rx (snd (auto_mode s)) = uart_rx s.
Proof.
  rewrite auto_mode_unfold.
  assert (uart_rx (snd (load_all (emit (a_printf msg_loading) s))) =
          uart_rx s) as H.
  { rewrite load_all_chain.
    by destruct (load_chain_same cred_keys (emit (a_printf msg_loading) s))
      as (_&_&_&_&_&->&_). }
  destruct (fst (load_all _)); [|done].
  pose proof (attempt_wifi_connect_rx (link_ready s)) as Ha.
  destruct (attempt_wifi_connect (link_ready s)) as [e s1].
  cbn [fst snd] in *. by destruct (e =? ESP_OK); cbn; rewrite Ha.
Qed.

Lemma wait_choice_rx rx s :
  match wait_choice rx s with
  | Done _ s' => (rx_left s' < length rx)%nat
  | Blocked _ => True
  | OutOfFuel => False
  end.
Proof.
  revert s. induction rx as [|[ch|] rx IH]; intros s; cbn [wait_choice];
    [done|cbn; lia|].
  specialize (IH (vTaskDelay 50 s)).
  destruct (wait_choice rx _); [cbn [length]; lia|done|done].
Qed.

Lemma read_input_loop_rx rx b len mask i s :
  match read_input_loop rx b len mask i s with
  | Done _ s' =>
      (rx_left s' ≤ length rx)%nat ∧
      ((to_size_t i <? to_size_t (len - 1)) = true →
       (rx_left s' < length rx)%nat)
  | Blocked _ => True
  | OutOfFuel => False
  end.
Proof.
  revert i s. induction rx as [|[ch|] rx IH]; intros i s;
    cbn [read_input_loop]; destruct (_ <? _) eqn:Htest;
    try (cbn; split; [lia|done]); try done.
  - destruct (_ || _); [cbn; split; lia|].
    destruct (_ || _).
    { destruct (0 <? i).
      - specialize (IH (i - 1) (emit (a_uart_write_bytes erase_seq) s)).
        destruct (read_input_loop _ _ _ _ _ _); cbn [length]; try done.
        split; lia.
      - specialize (IH i s).
        destruct (read_input_loop _ _ _ _ _ _); cbn [length]; try done.
        split; lia. }
    destruct (_ && _).
    + match goal with |- match read_input_loop _ _ _ _ _ ?s1 with _ => _ end =>
        specialize (IH (i + 1) s1) end.
      destruct (read_input_loop _ _ _ _ _ _); cbn [length]; try done.
      split; lia.
    + specialize (IH i s).
      destruct (read_input_loop _ _ _ _ _ _); cbn [length]; try done.
      split; lia.
  - specialize (IH i s).
    destruct (read_input_loop _ _ _ _ _ _); cbn [length]; try done.
    split; lia.
Qed.

(** A read into one of the four buffers takes at least one result from
    the input. *)
Lemma read_input_rx prompt b mask s :
  match read_input prompt b (sizeof b) mask s with
  | Done _ s' => (rx_left s' < rx_left s)%nat
  | Blocked _ => True
  | OutOfFuel => False
  end.
Proof.
  unfold read_input. set (s1 := set_buf b _ (emit _ s)).
  pose proof (read_input_loop_rx (uart_rx s1) b (sizeof b) mask 0 s1) as H.
  assert (uart_rx s1 = uart_rx s) as Hrx by (subst s1; by destruct b).
  destruct (read_input_loop _ _ _ _ _ _) as [i s2|s2|]; cbn [bind]; try done.
  destruct H as [_ H]. unfold rx_left in *.
  rewrite uart_rx_set_buf, <- Hrx. apply H. by destruct b.
Qed.

Lemma wizard_wifi_pass_rx s :
  match wizard_wifi_pass s with
  | Done _ s' => (rx_left s' < rx_left s)%nat
  | Blocked _ => True
  | OutOfFuel => False
  end.
Proof.
  rewrite wizard_wifi_pass_cases.
  pose proof (read_input_rx "Enter SSID: " SSID false s) as H1.
  destruct (read_input _ SSID _ _ _) as [[] s1|s1|]; cbn [bind]; try done.
  pose proof (read_input_rx "Enter Password: " WIFI_PASS true s1) as H2.
  destruct (read_input _ WIFI_PASS _ _ _) as [[] s2|s2|]; cbn [bind];
    try done.
  cbn zeta. set (s3 := emit _ s2).
  pose proof (attempt_wifi_connect_rx s3) as Ha.
  destruct (attempt_wifi_connect s3) as [e s4]. cbn [fst snd] in *.
  unfold rx_left in *.
  destruct (e =? ESP_OK).
  - unfold save_wifi_credentials. cbn zeta.
    rewrite !save_to_nvs_rx. cbn [uart_rx emit]. rewrite Ha.
    subst s3. cbn [uart_rx emit]. lia.
  - cbn [uart_rx emit]. rewrite Ha. subst s3. cbn [uart_rx emit]. lia.
Qed.

Lemma wizard_wifi_rx fuel s :
  (rx_left s < fuel)%nat →
  match wizard_wifi fuel s with
  | Done _ s' => (rx_left s' < rx_left s)%nat
  | Blocked _ => True
  | OutOfFuel => False
  end.
Proof.
  revert s. induction fuel as [|fuel IH]; intros s Hf; [lia|].
  cbn [wizard_wifi].
  pose proof (wizard_wifi_pass_rx s) as H.
  destruct (wizard_wifi_pass s) as [[] s1|s1|]; cbn [bind]; try done.
  specialize (IH s1 ltac:(lia)).
  destruct (wizard_wifi fuel s1); [lia|done|done].
Qed.

Lemma wizard_mqtt_rx s :
  match wizard_mqtt s with
  | Done _ s' => (rx_left s' < rx_left s)%nat
  | Blocked _ => True
  | OutOfFuel => False
  end.
Proof.
  unfold wizard_mqtt.
  pose proof (read_input_rx "Enter MQTT Broker IP: " MQTT_BROKER false s)
    as H1.
  destruct (read_input _ MQTT_BROKER _ _ _) as [[] s1|s1|]; cbn [bind];
    try done.
  pose proof (read_input_rx "Enter MQTT Topic: " MQTT_TOPIC false s1) as H2.
  destruct (read_input _ MQTT_TOPIC _ _ _) as [[] s2|s2|]; cbn [bind];
    try done.
  pose proof (save_to_nvs_rx "broker" (cstr (mqtt_broker s2)) s2) as R3.
  destruct (save_to_nvs "broker" _ s2) as [e3 s3]. cbn [snd] in *.
  pose proof (save_to_nvs_rx "topic" (cstr (mqtt_topic s3)) s3) as R4.
  destruct (save_to_nvs "topic" _ s3) as [e4 s4]. cbn [snd] in *.
  unfold rx_left in *. rewrite R4, R3. lia.
Qed.

Lemma menu_pass_rx fuel s :
  (rx_left s ≤ fuel)%nat →
  match menu_pass fuel s with
  | Done _ s' => (rx_left s' < rx_left s)%nat
  | Blocked _ => True
  | OutOfFuel => False
  end.
Proof.
  intros Hf. unfold menu_pass.
  pose proof (wait_choice_rx (uart_rx (print_menu s)) (print_menu s)) as H1.
  rewrite print_menu_uart_rx in *.
  destruct (wait_choice _ _) as [ch s1|s1|]; cbn [bind]; try done.
  set (s2 := emit _ s1).
  assert (rx_left s2 < rx_left s)%nat as H2 by (by subst s2).
  destruct (is_O ch).
  { pose proof (auto_mode_rx s2) as Ha.
    destruct (auto_mode s2) as [ready s3]. cbn [snd] in Ha.
    unfold rx_left in *. by rewrite Ha. }
  destruct (is_N ch); [|by unfold rx_left in *].
  unfold wizard_mode. set (s3 := emit _ s2).
  assert (rx_left s3 = rx_left s2) as H3 by done.
  pose proof (wizard_wifi_rx fuel s3 ltac:(lia)) as H4.
  destruct (wizard_wifi fuel s3) as [[] s4|s4|]; cbn [bind]; try done.
  pose proof (wizard_mqtt_rx s4) as H5.
  destruct (wizard_mqtt s4) as [[] s5|s5|]; cbn [bind]; try done. lia.
Qed.

Lemma boot_menu_fuel fuel s :
  (rx_left s < fuel)%nat → boot_menu fuel s ≠ OutOfFuel.
Proof.
  revert s. induction fuel as [|fuel IH]; intros s Hf; [lia|].
  cbn [boot_menu].
  pose proof (menu_pass_rx fuel s ltac:(lia)) as H.
  destruct (menu_pass fuel s) as [[] s1|s1|]; cbn [bind]; try done.
  apply IH. lia.
Qed.

(** ** The two points of persistence, and the menu loop *)

(** C4. The store is written at two points and nowhere else.  A wizard
    pass whose link attempt succeeds stores the SSID and the password, in
    this order, right after the attempt returns; a pass whose attempt
    fails stores nothing, and so does any number of such passes in a row.
    The wizard's MQTT entry stores broker and topic as entered, whatever
    they are.  The auto mode stores nothing.  A run of the boot menu as a
    whole has stored nothing (it ended through the auto mode) or exactly
    ssid, pass, broker, topic (through the wizard); a run that waits for
    input has stored nothing or ssid and pass; and every run on a finite
    input is one or the other, given a budget above the length of the
    input.  [start_mqtt] and the publish loop store nothing.  ("Stored" is
    the [nvs_set_str] call and the update of the store; when the namespace
    does not open there is neither.) *)
Theorem persistence_points (s : state) :
  persisted [] s (snd (auto_mode s)) ∧
  match wizard_wifi_pass s with
  | Done true s' =>
      ∃ s0, fst (attempt_wifi_connect s0) = ESP_OK ∧
            persisted [] s (snd (attempt_wifi_connect s0)) ∧
            s' = save_wifi_credentials (snd (attempt_wifi_connect s0)) ∧
            persisted (wifi_pairs s') s s' ∧
            wifi_connected s' = true
  | Done false s' => persisted [] s s'
  | Blocked s' => persisted [] s s'
  | OutOfFuel => True
  end ∧
  (∀ n s', failed_passes n s s' → persisted [] s s') ∧
  (∀ fuel,
     match wizard_wifi fuel s with
     | Done _ s' => persisted (wifi_pairs s') s s'
     | Blocked s' => persisted [] s s'
     | OutOfFuel => True
     end) ∧
  match wizard_mqtt s with
  | Done _ s' => persisted (mqtt_pairs s') s s'
  | Blocked s' => persisted [] s s'
  | OutOfFuel => True
  end ∧
  (∀ fuel,
     match boot_menu fuel s with
     | Done _ s' =>
         persisted [] s s' ∨ persisted (wifi_pairs s' ++ mqtt_pairs s') s s'
     | Blocked s' => persisted [] s s' ∨ persisted (wifi_pairs s') s s'
     | OutOfFuel => True
     end) ∧
  (∀ fuel, (rx_left s < fuel)%nat → boot_menu fuel s ≠ OutOfFuel) ∧
  persisted [] s (snd (start_mqtt s)) ∧
  (∀ n, persisted [] s (publish_loop n s)).
Proof.
  split; [apply auto_mode_quiet|].
  split; [apply wizard_wifi_pass_persists|].
  split; [intros n s'; apply failed_passes_persist|].
  split; [intros fuel; apply wizard_wifi_persists|].
  split.
  { pose proof (wizard_mqtt_persists s) as H.
    destruct (wizard_mqtt s); tauto. }
  split; [intros fuel; apply boot_menu_persists|].
  split; [intros fuel; apply boot_menu_fuel|].
  split; [apply start_mqtt_quiet|intros n; apply publish_loop_quiet].
Qed.

(** An operator who mistypes the password once: new setup, a first entry
    that the access point rejects, a second one that it accepts, then the
    broker and the topic. *)
Definition wizard_example : state :=
  boot_state ESP_OK ∅
    (typed "n" ++
     typed "net1" ++ [Some CR] ++ typed "pw0" ++ [Some CR] ++
     typed "net1" ++ [Some CR] ++ typed "pw1" ++ [Some CR] ++
     typed "10.0.0.5" ++ [Some CR] ++ typed "sensors/a" ++ [Some CR])
    (replicate 80 [] ++ [[(IP_EVENT, IP_EVENT_STA_GOT_IP)]]) [] [].

Lemma persistence_points_witness :
  match boot_menu 60 wizard_example with
  | Done _ s' =>
      persisted [] wizard_example s' ∨
      persisted (wifi_pairs s' ++ mqtt_pairs s') wizard_example s'
  | Blocked s' =>
      persisted [] wizard_example s' ∨
      persisted (wifi_pairs s') wizard_example s'
  | OutOfFuel => True
  end ∧
  ∃ s', boot_menu 60 wizard_example = Done tt s' ∧
        stores (trace s') =
          [("ssid", "net1"); ("pass", "pw1"); ("broker", "10.0.0.5");
           ("topic", "sensors/a")] ∧
        nvs s' = foldl put ∅ (stores (trace s')) ∧
        delays 100 (trace s') = 81%nat.
Proof.
  destruct (persistence_points wizard_example)
    as (_ & _ & _ & _ & _ & Hmenu & _).
  split; [exact (Hmenu 60%nat)|].
  eexists. split; [vm_compute; reflexivity|].
  split; [vm_compute; reflexivity|].
  split; vm_compute; reflexivity.
Defined.

(** C7. A menu pass prints the menu and waits for one byte; while none
    arrives it does not go on.  The byte selects the auto mode when it is
    O or o, the wizard when it is N or n, and nothing else does; any other
    byte gets "Invalid selection." and the loop starts its next pass, which
    prints the menu again.  This repeats for any number of unrecognized
    bytes; a budget above the length of the input is never used up.  The
    loop is left only by a pass that sets [config_ready]: an
    auto mode that returned true (all loads and the link attempt
    succeeded) or a wizard that ran to its end. *)
Theorem boot_menu_selection (s : state) (fuel : nat) :
  trace (print_menu s) = trace s ++ menu_text ∧
  (∀ k, uart_rx s = replicate k None →
        ∃ s', boot_menu (S fuel) s = Blocked s') ∧
  (∀ k ch rest,
     uart_rx s = replicate k None ++ Some ch :: rest →
     menu_pass fuel s =
     if is_O ch then
       Done (fst (auto_mode (chosen k ch rest s)))
         (snd (auto_mode (chosen k ch rest s)))
     else if is_N ch then wizard_mode fuel (chosen k ch rest s)
     else Done false (emit (a_printf msg_invalid) (chosen k ch rest s))) ∧
  (∀ ch, (is_O ch = true ↔ ch = "O"%char ∨ ch = "o"%char) ∧
         (is_N ch = true ↔ ch = "N"%char ∨ ch = "n"%char)) ∧
  (∀ k ch rest,
     uart_rx s = replicate k None ++ Some ch :: rest → unrecognized ch →
     boot_menu (S fuel) s =
     boot_menu fuel (emit (a_printf msg_invalid) (chosen k ch rest s))) ∧
  (∀ chs rest,
     Forall unrecognized chs → uart_rx s = map Some chs ++ rest →
     boot_menu (length chs + fuel) s =
       boot_menu fuel (foldl rejected s chs) ∧
     uart_rx (foldl rejected s chs) = rest) ∧
  ((rx_left s < fuel)%nat → boot_menu fuel s ≠ OutOfFuel) ∧
  (∀ s', boot_menu fuel s = Done tt s' →
     ∃ fuel' s0 k ch rest,
       menu_pass fuel' s0 = Done true s' ∧
       uart_rx s0 = replicate k None ++ Some ch :: rest ∧
       ((is_O ch = true ∧ auto_mode (chosen k ch rest s0) = (true, s')) ∨
        (is_N ch = true ∧
         wizard_mode fuel' (chosen k ch rest s0) = Done true s'))).
Proof.
  split; [apply print_menu_trace|].
  split.
  { intros k Hrx. cbn [boot_menu]. unfold menu_pass.
    rewrite print_menu_uart_rx, Hrx, wait_choice_silent. cbn [bind]. eauto. }
  split; [intros k ch rest; apply menu_pass_chosen|].
  split; [intros ch; split; [apply is_O_iff|apply is_N_iff]|].
  split; [intros k ch rest; apply boot_menu_rejects|].
  split; [intros chs rest; apply boot_menu_retries|].
  split; [apply boot_menu_fuel|].
  intros s' H. destruct (boot_menu_exit _ _ _ H) as (fuel' & s0 & _ & E).
  destruct (menu_pass_ready _ _ _ E) as (k & ch & rest & Hrx & Hor).
  by exists fuel', s0, k, ch, rest.
Qed.

(** An operator who presses Enter, then x, before asking for the auto
    mode on an empty store. *)
Definition hesitant_example : state :=
  boot_state ESP_OK ∅ ([Some CR] ++ typed "x" ++ typed "O") [] [] [].

Lemma boot_menu_selection_witness :
  boot_menu 5 hesitant_example =
    boot_menu 3 (foldl rejected hesitant_example [CR; "x"%char]) ∧
  uart_rx (foldl rejected hesitant_example [CR; "x"%char]) = typed "O" ∧
  ∃ s', boot_menu 5 hesitant_example = Blocked s'.
Proof.
  destruct (boot_menu_selection hesitant_example 3)
    as (_ & _ & _ & _ & _ & Hretry & _).
  destruct (Hretry [CR; "x"%char] (typed "O")) as [E R].
  - by repeat constructor.
  - done.
  - split; [exact E|]. split; [exact R|].
    eexists. vm_compute. reflexivity.
Defined.

(** ** Empty fields *)

Lemma line_editor_silent k rx limit mask acc echo :
  line_editor (replicate k None ++ rx) limit mask acc echo =
  if (length acc <? limit)%nat then line_editor rx limit mask acc echo
  else Some (acc, echo, replicate k None ++ rx).
Proof.
  induction k as [|k IH]; cbn [replicate app line_editor].
  - destruct (_ <? _)%nat eqn:E; [done|].
    destruct rx as [|[]]; cbn [line_editor]; by rewrite E.
  - rewrite IH. by destruct (_ <? _)%nat.
Qed.

(** A terminator as first byte ends the line before anything is
    accumulated. *)
Lemma line_editor_empty k ch rest limit mask :
  is_terminator ch = true →
  ∃ echo rest',
    line_editor (replicate k None ++ Some ch :: rest) limit mask [] [] =
    Some ([], echo, rest').
Proof.
  intros Hch. rewrite line_editor_silent. cbn [length].
  destruct limit as [|limit]; cbn [Nat.ltb Nat.leb]; [eauto|].
  cbn [line_editor length Nat.ltb Nat.leb]. rewrite Hch. eauto.
Qed.

Lemma read_input_empty prompt b len mask s k ch rest :
  1 ≤ len < 2 ^ 32 → length (get_buf b s) = Z.to_nat len →
  uart_rx s = replicate k None ++ Some ch :: rest →
  is_terminator ch = true →
  ∃ s', read_input prompt b len mask s = Done tt s' ∧
        cstr (get_buf b s') = "" ∧
        length (get_buf b s') = Z.to_nat len ∧
        kept_by_read b s s' ∧
        (1 < len → uart_rx s' = rest).
Proof.
  intros Hlen Hbuf Hrx Hch.
  pose proof (read_input_refines b len mask Hlen prompt s Hbuf) as H.
  rewrite Hrx, line_editor_silent in H. cbn [length] in H.
  destruct (Nat.ltb_spec 0 (Z.to_nat (len - 1))) as [Hpos|Hzero].
  - replace (Z.to_nat (len - 1)) with (S (Z.to_nat (len - 1) - 1)) in H
      by lia.
    cbn [line_editor length Nat.ltb Nat.leb] in H. rewrite Hch in H.
    destruct H as (s' & E & Hc & _ & _ & _ & Hr & Hl & K).
    exists s'. by repeat (split; [done|]).
  - destruct H as (s' & E & Hc & _ & _ & _ & Hr & Hl & K).
    exists s'. repeat (split; [done|]). lia.
Qed.

Lemma wizard_mqtt_empty s t1 t2 rest :
  length (mqtt_broker s) = 64%nat → length (mqtt_topic s) = 64%nat →
  uart_rx s = Some t1 :: Some t2 :: rest →
  is_terminator t1 = true → is_terminator t2 = true →
  ∃ s', wizard_mqtt s = Done tt s' ∧
        persisted [("broker", ""); ("topic", "")] s s' ∧
        uart_rx s' = rest.
Proof.
  intros Hb Ht Hrx H1 H2. unfold wizard_mqtt.
  pose proof (read_input_quiet "Enter MQTT Broker IP: " MQTT_BROKER
                (sizeof MQTT_BROKER) false s) as Q1.
  destruct (read_input_empty "Enter MQTT Broker IP: " MQTT_BROKER
              (sizeof MQTT_BROKER) false s 0 t1 (Some t2 :: rest))
    as (s1 & E1 & C1 & L1 & K1 & R1); [done|done|done|done|].
  rewrite E1 in *. cbn [bind]. specialize (R1 ltac:(done)).
  destruct (read_input_empty "Enter MQTT Topic: " MQTT_TOPIC
              (sizeof MQTT_TOPIC) false s1 0 t2 rest)
    as (s2 & E2 & C2 & L2 & K2 & R2); [done| |done|done|].
  { destruct K1 as (_&_&_&Kb&_).
    change (length (get_buf MQTT_TOPIC s1) = 64%nat). by rewrite Kb. }
  pose proof (read_input_quiet "Enter MQTT Topic: " MQTT_TOPIC
                (sizeof MQTT_TOPIC) false s1) as Q2.
  rewrite E2 in *. cbn [bind]. specialize (R2 ltac:(done)).
  assert (cstr (mqtt_broker s2) = "") as C1'.
  { destruct K2 as (_&_&_&Kb&_).
    change (cstr (get_buf MQTT_BROKER s2) = ""). by rewrite Kb. }
  change (cstr (get_buf MQTT_TOPIC s2) = "") in C2. cbn [get_buf] in C2.
  rewrite C1'.
  destruct (save_to_nvs_persisted "broker" "" s2) as (P3 & B3 & _).
  destruct (save_to_nvs_persisted "topic"
              (cstr (mqtt_topic (snd (save_to_nvs "broker" "" s2))))
              (snd (save_to_nvs "broker" "" s2))) as (P4 & B4 & _).
  rewrite (B3 MQTT_TOPIC : mqtt_topic _ = mqtt_topic s2), C2 in P4.
  assert (uart_rx (snd (save_to_nvs "topic" ""
                          (snd (save_to_nvs "broker" "" s2)))) = rest) as R.
  { rewrite <- R2. unfold save_to_nvs, nvs_set_str.
    by repeat (destruct (negb _); cbn). }
  destruct (save_to_nvs "broker" "" s2) as [e3 s3]. cbn [snd] in *.
  rewrite (B3 MQTT_TOPIC : mqtt_topic _ = mqtt_topic s2), C2.
  destruct (save_to_nvs "topic" "" s3) as [e4 s4]. cbn [snd] in *.
  exists s4. split; [done|]. split; [|done].
  cbn [ends_in] in Q1, Q2. destruct Q1 as [Q1 _], Q2 as [Q2 _].
  eapply persisted_nil_trans; [exact Q1|].
  eapply persisted_nil_trans; [exact Q2|].
  by apply (persisted_trans [_] [_] _ s3).
Qed.

(** When the whole chain succeeds, every target buffer holds what its load
    has put there. *)
Lemma load_chain_loaded l s0 s :
  NoDup l.*2 → same_outside_buffers s0 s →
  (∀ kb, kb ∈ l → get_buf kb.2 s = get_buf kb.2 s0) →
  fst (load_chain l s) = true →
  Forall (λ kb, get_buf kb.2 (snd (load_chain l s)) = loaded_buf kb s0) l.
Proof.
  revert s. induction l as [|kb l IH]; intros s Hnd F Hb Hok; [constructor|].
  rewrite fmap_cons in Hnd. apply NoDup_cons in Hnd as [Hkb Hnd].
  cbn [load_chain] in *.
  pose proof (load_from_nvs_same kb.1 kb.2 (sizeof kb.2) s) as G.
  pose proof (load_from_nvs_buf_indep kb.1 kb.2 (sizeof kb.2) s0 s F
                (Hb kb ltac:(left)) : _ = loaded_buf kb s0) as Hl.
  pose proof (λ b, load_from_nvs_other kb.1 kb.2 b (sizeof kb.2) s) as Ho.
  destruct (load_from_nvs _ _ _ s) as [e s1]. cbn [fst snd] in *.
  destruct (negb _); [done|]. constructor.
  - by rewrite load_chain_other.
  - apply IH; [done|eauto using same_outside_buffers_trans| |done].
    intros kb' Hin. rewrite Ho; [apply Hb; by right|].
    intros Heq. apply Hkb. rewrite Heq. by apply list_elem_of_fmap_2.
Qed.

Lemma auto_mode_empty s :
  nvs_open_ret s = ESP_OK →
  (∀ kb, kb ∈ cred_keys → nvs s !! kb.1 = Some "") →
  Forall (λ kb, load_ret kb s = ESP_OK) cred_keys ∧
  Forall (λ kb, cstr (get_buf kb.2 (link_ready s)) = "") cred_keys ∧
  auto_mode s =
    let r := attempt_wifi_connect (link_ready s) in
    if fst r =? ESP_OK then (true, snd r)
    else (false, emit (a_printf msg_connect_failed) (snd r)).
Proof.
  intros Ho Hempty.
  assert (Forall (λ kb, load_ret kb s = ESP_OK) cred_keys) as Hall.
  { apply Forall_forall. intros kb Hin. apply load_from_nvs_ok_iff.
    split; [done|]. rewrite (Hempty kb Hin). eauto. }
  split; [done|]. split.
  - unfold link_ready. cbn zeta. rewrite load_all_chain.
    set (s1 := emit (a_printf msg_loading) s).
    assert (Forall (λ kb, get_buf kb.2 (snd (load_chain cred_keys s1)) =
                          loaded_buf kb s) cred_keys) as H.
    { apply load_chain_loaded.
      - apply (bool_decide_unpack _). by vm_compute.
      - apply same_outside_buffers_emit.
      - by intros [k []].
      - rewrite <- load_all_chain. by apply load_all_emit_ok_iff. }
    rewrite Forall_forall in H. apply Forall_forall. intros kb Hin.
    rewrite get_buf_emit, (H kb Hin). unfold loaded_buf.
    rewrite load_from_nvs_cases, Ho, (Hempty kb Hin).
    change (negb (ESP_OK =? ESP_OK)) with false. cbn match.
    replace (strlen "" + 1 <=? sizeof kb.2) with true
      by (by destruct kb as [? []]).
    cbn [snd]. by rewrite get_set_buf_eq.
  - rewrite auto_mode_unfold.
    by rewrite (proj2 (load_all_emit_ok_iff (a_printf msg_loading) s) Hall).
Qed.

(** C10. Nothing checks that a configuration field is non-empty.
    [read_input] returns the empty string when the first byte received is a
    terminator; the wizard's MQTT entry then stores an empty broker and an
    empty topic; and with the four keys stored as empty strings every load
    of the auto mode returns [ESP_OK], the buffers hold empty strings, and
    the auto mode goes on to the link attempt, whose result alone decides
    the pass. *)
Theorem empty_fields_accepted :
  (∀ prompt b len mask s k ch rest,
     1 ≤ len < 2 ^ 32 → length (get_buf b s) = Z.to_nat len →
     uart_rx s = replicate k None ++ Some ch :: rest →
     is_terminator ch = true →
     ∃ s', read_input prompt b len mask s = Done tt s' ∧
           cstr (get_buf b s') = "") ∧
  (∀ s t1 t2 rest,
     length (mqtt_broker s) = 64%nat → length (mqtt_topic s) = 64%nat →
     uart_rx s = Some t1 :: Some t2 :: rest →
     is_terminator t1 = true → is_terminator t2 = true →
     ∃ s', wizard_mqtt s = Done tt s' ∧
           persisted [("broker", ""); ("topic", "")] s s') ∧
  (∀ s,
     nvs_open_ret s = ESP_OK →
     (∀ kb, kb ∈ cred_keys → nvs s !! kb.1 = Some "") →
     Forall (λ kb, load_ret kb s = ESP_OK) cred_keys ∧
     Forall (λ kb, cstr (get_buf kb.2 (link_ready s)) = "") cred_keys ∧
     auto_mode s =
       let r := attempt_wifi_connect (link_ready s) in
       if fst r =? ESP_OK then (true, snd r)
       else (false, emit (a_printf msg_connect_failed) (snd r))).
Proof.
  split; [|split].
  - intros prompt b len mask s k ch rest Hlen Hbuf Hrx Hch.
    destruct (read_input_empty prompt b len mask s k ch rest)
      as (s' & E & C & _); eauto.
  - intros s t1 t2 rest Hb Ht Hrx H1 H2.
    destruct (wizard_mqtt_empty s t1 t2 rest) as (s' & E & P & _); eauto.
  - apply auto_mode_empty.
Qed.

(** The four keys stored as empty strings. *)
Definition empty_store : gmap string string :=
  <["ssid" := ""]> (<["pass" := ""]> (<["broker" := ""]>
    (<["topic" := ""]> ∅))).

Lemma empty_fields_accepted_witness :
  (∃ s', wizard_mqtt (boot_state ESP_OK ∅ [Some CR; Some LF] [] [] []) =
           Done tt s' ∧
         nvs s' = <["topic" := ""]> (<["broker" := ""]> ∅)) ∧
  fst (auto_mode (boot_state ESP_OK empty_store [] [] [] [])) = false ∧
  fst (auto_mode
         (boot_state ESP_OK empty_store [] [[(IP_EVENT, IP_EVENT_STA_GOT_IP)]]
            [] [])) = true.
Proof.
  destruct empty_fields_accepted as (_ & Hw & Ha).
  split; [|split].
  - destruct (Hw (boot_state ESP_OK ∅ [Some CR; Some LF] [] [] [])
                CR LF [] eq_refl eq_refl eq_refl eq_refl eq_refl)
      as (s' & E & _ & P & _).
    exists s'. split; [done|]. by rewrite P.
  - destruct (Ha (boot_state ESP_OK empty_store [] [] [] []) eq_refl)
      as (_ & _ & ->); [|by vm_compute].
    intros kb Hin. repeat (apply elem_of_cons in Hin as [->|Hin]; [done|]).
    by apply elem_of_nil in Hin.
  - destruct (Ha (boot_state ESP_OK empty_store []
                    [[(IP_EVENT, IP_EVENT_STA_GOT_IP)]] [] []) eq_refl)
      as (_ & _ & ->); [|by vm_compute].
    intros kb Hin. repeat (apply elem_of_cons in Hin as [->|Hin]; [done|]).
    by apply elem_of_nil in Hin.
Defined.

(** * Further properties *)

(** ** C strings in arrays *)

Lemma chars_length v : length (chars v) = String.length v.
Proof. induction v as [|c v IH]; cbn; [done|]. by rewrite IH. Qed.

Lemma of_chars_chars w : of_chars (chars w) = w.
Proof. induction w as [|c w IH]; cbn; [done|]. by rewrite IH. Qed.

(** A C string holds no NUL. *)
Lemma cstr_no_NUL buf : NUL ∉ chars (cstr buf).
Proof.
  induction buf as [|c buf IH]; cbn; [apply not_elem_of_nil|].
  destruct (Ascii.eqb_spec c NUL) as [->|Hc]; cbn; [apply not_elem_of_nil|].
  apply not_elem_of_cons. split; [congruence|done].
Qed.

(** The string stored with its terminator is the string read back. *)
Lemma cstr_stored v rest : NUL ∉ chars v → cstr (chars v ++ NUL :: rest) = v.
Proof.
  induction v as [|c v IH]; cbn; intros Hv; [done|].
  apply not_elem_of_cons in Hv as [Hc Hv].
  destruct (Ascii.eqb_spec c NUL) as [->|_]; [done|]. by rewrite IH.
Qed.

Lemma cstr_padded v k : NUL ∉ chars v → cstr (chars v ++ replicate k NUL) = v.
Proof.
  induction v as [|c v IH]; cbn; intros Hv; [by destruct k|].
  apply not_elem_of_cons in Hv as [Hc Hv].
  destruct (Ascii.eqb_spec c NUL) as [->|_]; [done|]. by rewrite IH.
Qed.

(** An array that holds a NUL holds a string shorter than itself. *)
Lemma cstr_length_lt buf :
  NUL ∈ buf → (String.length (cstr buf) < length buf)%nat.
Proof.
  induction buf as [|c buf IH]; cbn; intros Hin; [by apply elem_of_nil in Hin|].
  destruct (Ascii.eqb_spec c NUL) as [->|Hc]; cbn; [lia|].
  apply elem_of_cons in Hin as [?|Hin]; [congruence|].
  specialize (IH Hin). lia.
Qed.

Lemma store_prefix_length (l buf : list ascii) :
  (length l ≤ length buf)%nat → length (store_prefix l buf) = length buf.
Proof.
  intros H. unfold store_prefix. rewrite length_app, length_drop. lia.
Qed.

Lemma strncpy_length n src : length (strncpy n src) = n.
Proof.
  unfold strncpy. rewrite length_take, length_app, length_replicate. lia.
Qed.

(** [strncpy] loses nothing of a string that fits the destination. *)
Lemma strncpy_cstr n src :
  (String.length (cstr src) ≤ n)%nat → cstr (strncpy n src) = cstr src.
Proof.
  intros Hn. unfold strncpy.
  rewrite take_app_ge by (by rewrite chars_length).
  rewrite take_replicate. apply cstr_padded, cstr_no_NUL.
Qed.

(** ** Saving and loading *)

Lemma save_to_nvs_ok key value s :
  nvs_open_ret s = ESP_OK →
  fst (save_to_nvs key value s) = ESP_OK ∧
  nvs (snd (save_to_nvs key value s)) = <[key := value]> (nvs s) ∧
  nvs_open_ret (snd (save_to_nvs key value s)) = ESP_OK.
Proof.
  intros Ho. unfold save_to_nvs, nvs_set_str, nvs_commit. rewrite Ho.
  by cbn.
Qed.

(** X1. The two NVS helpers are inverse to each other on the program's
    keys and buffers.  For each of the four keys and the array the program
    loads it into: when the namespace opens, a value without NUL that fits
    the array with its terminator (at most 31 characters for [ssid], 63 for
    the others), saved by [save_to_nvs], is read back unchanged by
    [load_from_nvs] called with the size of the array, as [app_main] calls
    it.  Both calls return [ESP_OK], the array holds the value as a C
    string whatever it held before, and it keeps its size. *)
Theorem save_then_load key b value s :
  (key, b) ∈ cred_keys → nvs_open_ret s = ESP_OK →
  length (get_buf b s) = Z.to_nat (sizeof b) →
  NUL ∉ chars value → strlen value + 1 ≤ sizeof b →
  let s1 := snd (save_to_nvs key value s) in
  let r := load_from_nvs key b (sizeof b) s1 in
  fst (save_to_nvs key value s) = ESP_OK ∧ fst r = ESP_OK ∧
  cstr (get_buf b (snd r)) = value ∧
  length (get_buf b (snd r)) = Z.to_nat (sizeof b).
Proof.
  intros _ Ho Hl Hv Hfit s1 r.
  destruct (save_to_nvs_ok key value s Ho) as (Hr & Hn & Ho1).
  destruct (save_to_nvs_persisted key value s) as (_ & Hb & _).
  split; [done|]. subst r s1.
  rewrite load_from_nvs_cases, Ho1, Hn, lookup_insert_eq.
  change (negb (ESP_OK =? ESP_OK)) with false. cbn match.
  rewrite (proj2 (Z.leb_le _ _) Hfit). cbn [fst snd]. split; [done|].
  rewrite get_set_buf_eq, Hb. split.
  - unfold store_prefix. rewrite <- app_assoc. cbn [app].
    by rewrite cstr_stored.
  - rewrite store_prefix_length; [done|].
    rewrite length_app, chars_length, Hl. unfold strlen in Hfit. cbn. lia.
Qed.

Lemma save_then_load_witness :
  let s := boot_state ESP_OK ∅ [] [] [] [] in
  let s1 := snd (save_to_nvs "topic" "sensors/a" s) in
  let r := load_from_nvs "topic" MQTT_TOPIC 64 s1 in
  fst (save_to_nvs "topic" "sensors/a" s) = ESP_OK ∧ fst r = ESP_OK ∧
  cstr (mqtt_topic (snd r)) = "sensors/a" ∧
  length (mqtt_topic (snd r)) = 64%nat.
Proof.
  apply (save_then_load "topic" MQTT_TOPIC "sensors/a"
           (boot_state ESP_OK ∅ [] [] [] []));
    [|done|done| |done].
  - unfold cred_keys. rewrite !elem_of_cons. tauto.
  - apply (bool_decide_unpack _). by vm_compute.
Defined.

(** X2. A save touches its own key only: the load of any other key
    returns the same code and leaves the same bytes in its buffer after the
    save as before it, whether the namespace opens or not. *)
Theorem save_keeps_other_keys key key' value b max_len s :
  key ≠ key' →
  let s1 := snd (save_to_nvs key value s) in
  fst (load_from_nvs key' b max_len s1) = fst (load_from_nvs key' b max_len s) ∧
  get_buf b (snd (load_from_nvs key' b max_len s1)) =
    get_buf b (snd (load_from_nvs key' b max_len s)).
Proof.
  intros Hne s1. subst s1. rewrite !load_from_nvs_cases.
  unfold save_to_nvs, nvs_set_str, nvs_commit.
  destruct (negb (nvs_open_ret s =? ESP_OK)) eqn:Ho; cbn [snd fst].
  { by rewrite Ho. }
  cbn [nvs_open_ret nvs set_nvs emit]. rewrite Ho, lookup_insert_ne by done.
  destruct (nvs s !! key') as [v|]; [|done].
  destruct (_ <=? _); [|done]. cbn [fst snd]. split; [done|].
  by rewrite !get_set_buf_eq.
Qed.

Lemma save_keeps_other_keys_witness :
  let s := boot_state ESP_OK {["ssid" := "net1"]} [] [] [] [] in
  let s1 := snd (save_to_nvs "pass" "pw1" s) in
  cstr (ssid (snd (load_from_nvs "ssid" SSID 32 s1))) = "net1".
Proof.
  intros s s1.
  destruct (save_keeps_other_keys "pass" "ssid" "pw1" SSID 32 s) as [_ Hb];
    [done|].
  change (ssid ?x) with (get_buf SSID x). fold s1 in Hb. by rewrite Hb.
Defined.

(** ** The credential buffers stay well formed *)

Lemma terminated_fits size buf :
  terminated size buf → (String.length (cstr buf) < Z.to_nat size)%nat.
Proof. intros [Hl Hn]. rewrite <- Hl. by apply cstr_length_lt. Qed.

Lemma boot_state_ok open_ret stored rx evs draws pubs :
  buffers_ok (boot_state open_ret stored rx evs draws pubs).
Proof.
  intros b. split; [by destruct b|].
  destruct b; cbn; apply elem_of_cons; by left.
Qed.

Lemma buffers_ok_same s s' : same_buffers s s' → buffers_ok s → buffers_ok s'.
Proof. intros Hb Hok b. rewrite Hb. apply Hok. Qed.

Lemma terminated_store size v buf :
  strlen v + 1 ≤ size → length buf = Z.to_nat size →
  terminated size (store_prefix (chars v ++ [NUL]) buf).
Proof.
  unfold strlen. intros Hv Hl. split.
  - rewrite store_prefix_length; [done|].
    rewrite length_app, chars_length. cbn. lia.
  - unfold store_prefix. rewrite !elem_of_app, (list_elem_of_singleton NUL).
    by left; right.
Qed.

Lemma load_from_nvs_ok key b s :
  buffers_ok s → buffers_ok (snd (load_from_nvs key b (sizeof b) s)).
Proof.
  intros Hok. rewrite load_from_nvs_cases.
  destruct (negb _); [done|]. destruct (nvs s !! key) as [v|]; [|done].
  destruct (Z.leb_spec (strlen v + 1) (sizeof b)) as [Hv|_]; [|done].
  cbn [snd]. intros b'. destruct (decide (b = b')) as [<-|Hne].
  - rewrite get_set_buf_eq. apply terminated_store; [done|apply Hok].
  - rewrite get_set_buf_ne by done. apply Hok.
Qed.

Lemma load_chain_ok l s : buffers_ok s → buffers_ok (snd (load_chain l s)).
Proof.
  revert s. induction l as [|kb l IH]; intros s Hok; cbn [load_chain]; [done|].
  pose proof (load_from_nvs_ok kb.1 kb.2 s Hok) as G.
  destruct (load_from_nvs _ _ _ s) as [e s1]. cbn [snd] in G.
  destruct (negb _); [done|]. by apply IH.
Qed.

Lemma attempt_wifi_connect_ok s :
  buffers_ok s → buffers_ok (snd (attempt_wifi_connect s)).
Proof.
  apply buffers_ok_same. by destruct (attempt_wifi_connect_quiet s).
Qed.

Lemma buffers_ok_emit a s : buffers_ok s → buffers_ok (emit a s).
Proof. apply buffers_ok_same, same_buffers_emit. Qed.

Lemma save_to_nvs_buffers_ok key value s :
  buffers_ok s → buffers_ok (snd (save_to_nvs key value s)).
Proof.
  apply buffers_ok_same. by destruct (save_to_nvs_persisted key value s) as (_&?&_).
Qed.

Lemma auto_mode_ok s : buffers_ok s → buffers_ok (snd (auto_mode s)).
Proof.
  intros Hok. rewrite auto_mode_unfold.
  assert (buffers_ok (snd (load_all (emit (a_printf msg_loading) s)))) as H1.
  { rewrite load_all_chain. by apply load_chain_ok, buffers_ok_emit. }
  destruct (fst (load_all _)); cbn [snd]; [|by apply buffers_ok_emit].
  assert (buffers_ok (link_ready s)) as H2.
  { unfold link_ready. cbn zeta. by apply buffers_ok_emit. }
  pose proof (attempt_wifi_connect_ok _ H2) as H3. cbn zeta.
  destruct (attempt_wifi_connect (link_ready s)) as [e s1]. cbn [fst snd] in *.
  destruct (e =? ESP_OK); cbn [snd]; [done|by apply buffers_ok_emit].
Qed.

(** The loop of [read_input] writes below the last byte of the array
    only. *)
Lemma read_input_loop_sized b len mask rx : ∀ i s,
  1 ≤ len < 2 ^ 32 → 0 ≤ i ≤ len - 1 →
  length (get_buf b s) = Z.to_nat len →
  get_buf b s !! Z.to_nat (len - 1) = Some NUL →
  match read_input_loop rx b len mask i s with
  | Done i' s' =>
      0 ≤ i' ≤ len - 1 ∧ length (get_buf b s') = Z.to_nat len ∧
      get_buf b s' !! Z.to_nat (len - 1) = Some NUL
  | Blocked s' =>
      length (get_buf b s') = Z.to_nat len ∧
      get_buf b s' !! Z.to_nat (len - 1) = Some NUL
  | OutOfFuel => True
  end.
Proof.
  induction rx as [|[ch|] rx IH]; intros i s Hlen Hi Hl Hn;
    cbn [read_input_loop]; rewrite !to_size_t_small by lia;
    destruct (Z.ltb_spec i (len - 1)) as [Hlt|Hge];
    rewrite ?get_buf_set_uart_rx, ?get_buf_emit; try done.
  - destruct (_ || _); [by rewrite get_buf_set_uart_rx, get_buf_emit|].
    destruct (_ || _).
    { destruct (Z.ltb_spec 0 i).
      - apply IH; rewrite ?get_buf_emit; try done. lia.
      - by apply IH. }
    destruct (_ && _); [|by apply IH].
    apply IH; rewrite ?get_buf_emit, ?get_set_buf_eq, ?length_insert;
      try done; [lia|].
    rewrite list_lookup_insert_ne; [done|lia].
  - by apply IH.
Qed.

Lemma read_input_sized prompt b len mask s :
  1 ≤ len < 2 ^ 32 → length (get_buf b s) = Z.to_nat len →
  ends_in (read_input prompt b len mask s)
    (λ s', terminated len (get_buf b s')).
Proof.
  intros Hlen Hl. unfold read_input.
  set (s0 := set_buf b _ _).
  assert (length (get_buf b s0) = Z.to_nat len) as Hl0.
  { subst s0. rewrite get_set_buf_eq, get_buf_emit. by apply memset0_length. }
  assert (get_buf b s0 !! Z.to_nat (len - 1) = Some NUL) as Hn0.
  { subst s0. rewrite get_set_buf_eq. unfold memset0, store_prefix.
    rewrite lookup_app_l by (rewrite length_replicate; lia).
    apply lookup_replicate_2. lia. }
  pose proof (read_input_loop_sized b len mask (uart_rx s0) 0 s0 Hlen
                ltac:(lia) Hl0 Hn0) as H.
  destruct (read_input_loop _ _ _ _ _ _) as [i' s'|s'|]; cbn [bind ends_in];
    [|by destruct H as [? ?%list_elem_of_lookup_2]|done].
  destruct H as (Hi & Hl' & Hn').
  rewrite get_set_buf_eq. split; [by rewrite length_insert|].
  apply list_elem_of_insert. lia.
Qed.

Lemma ends_in_bind {A B : Type} (m : outcome A) (k : A → state → outcome B)
    (P : state → Prop) :
  ends_in m P → (∀ a s, P s → ends_in (k a s) P) → ends_in (bind m k) P.
Proof. destruct m; cbn; eauto. Qed.

Lemma ends_in_mono {A : Type} (o : outcome A) (P Q : state → Prop) :
  (∀ s, P s → Q s) → ends_in o P → ends_in o Q.
Proof. destruct o; cbn; eauto. Qed.

Lemma read_input_ok prompt b mask s :
  buffers_ok s → ends_in (read_input prompt b (sizeof b) mask s) buffers_ok.
Proof.
  intros Hok.
  pose proof (read_input_sized prompt b (sizeof b) mask s
                ltac:(by destruct b) (proj1 (Hok b))) as H1.
  pose proof (read_input_quiet prompt b (sizeof b) mask s) as H2.
  assert (∀ s', terminated (sizeof b) (get_buf b s') → kept_by_read b s s' →
                buffers_ok s') as H.
  { intros s' Ht (_&_&_&Hk&_) b'. destruct (decide (b' = b)) as [->|Hne];
      [done|]. rewrite Hk by done. apply Hok. }
  destruct (read_input _ _ _ _ _) as [[] s'|s'|]; cbn [ends_in] in *;
    [apply H; tauto..|done].
Qed.

Lemma save_wifi_credentials_ok s :
  buffers_ok s → buffers_ok (save_wifi_credentials s).
Proof.
  apply buffers_ok_same.
  by destruct (save_wifi_credentials_persisted s) as (_&?&_).
Qed.

Lemma wizard_wifi_pass_ok s :
  buffers_ok s → ends_in (wizard_wifi_pass s) buffers_ok.
Proof.
  intros Hok. rewrite wizard_wifi_pass_cases.
  apply ends_in_bind; [by apply read_input_ok|]. intros _ s1 H1.
  apply ends_in_bind; [by apply read_input_ok|]. intros _ s2 H2. cbn zeta.
  pose proof (attempt_wifi_connect_ok _ (buffers_ok_emit
                (a_printf ("Attempting connection..." +:+ endl)) s2 H2)) as H3.
  destruct (attempt_wifi_connect _) as [e s3]. cbn [fst snd] in *.
  destruct (e =? ESP_OK); cbn [ends_in].
  - by apply save_wifi_credentials_ok.
  - by do 2 apply buffers_ok_emit.
Qed.

Lemma wizard_wifi_ok fuel : ∀ s,
  buffers_ok s → ends_in (wizard_wifi fuel s) buffers_ok.
Proof.
  induction fuel as [|fuel IH]; intros s Hok; cbn [wizard_wifi]; [done|].
  apply ends_in_bind; [by apply wizard_wifi_pass_ok|].
  intros [] s1 H1; [done|by apply IH].
Qed.

Lemma wizard_mqtt_ok s : buffers_ok s → ends_in (wizard_mqtt s) buffers_ok.
Proof.
  intros Hok. unfold wizard_mqtt.
  apply ends_in_bind; [by apply read_input_ok|]. intros _ s1 H1.
  apply ends_in_bind; [by apply read_input_ok|]. intros _ s2 H2.
  pose proof (save_to_nvs_buffers_ok "broker" (cstr (mqtt_broker s2)) s2 H2)
    as H3.
  destruct (save_to_nvs "broker" _ s2) as [e3 s3]. cbn [snd] in H3.
  pose proof (save_to_nvs_buffers_ok "topic" (cstr (mqtt_topic s3)) s3 H3)
    as H4.
  by destruct (save_to_nvs "topic" _ s3) as [e4 s4].
Qed.

Lemma wizard_mode_ok fuel s :
  buffers_ok s → ends_in (wizard_mode fuel s) buffers_ok.
Proof.
  intros Hok. unfold wizard_mode. cbn zeta.
  apply ends_in_bind; [by apply wizard_wifi_ok, buffers_ok_emit|].
  intros _ s1 H1. apply ends_in_bind; [by apply wizard_mqtt_ok|]. done.
Qed.

Lemma wait_choice_ok rx : ∀ s,
  buffers_ok s → ends_in (wait_choice rx s) buffers_ok.
Proof.
  induction rx as [|[ch|] rx IH]; intros s Hok; cbn [wait_choice ends_in].
  - intros b. rewrite get_buf_set_uart_rx. apply Hok.
  - intros b. rewrite get_buf_set_uart_rx. apply Hok.
  - apply IH. eapply buffers_ok_same; [apply same_buffers_vTaskDelay|done].
Qed.

Lemma print_menu_ok s : buffers_ok s → buffers_ok (print_menu s).
Proof. intros Hok. unfold print_menu. by do 6 apply buffers_ok_emit. Qed.

Lemma menu_pass_ok fuel s :
  buffers_ok s → ends_in (menu_pass fuel s) buffers_ok.
Proof.
  intros Hok. unfold menu_pass. cbn zeta.
  apply ends_in_bind; [by apply wait_choice_ok, print_menu_ok|].
  intros ch s1 H1. destruct (is_O ch).
  { pose proof (auto_mode_ok _ (buffers_ok_emit (a_printf (String ch endl))
                                  s1 H1)) as H2.
    by destruct (auto_mode _) as [ready s2]. }
  destruct (is_N ch); [by apply wizard_mode_ok, buffers_ok_emit|].
  by do 2 apply buffers_ok_emit.
Qed.

Lemma boot_menu_ok fuel : ∀ s,
  buffers_ok s → ends_in (boot_menu fuel s) buffers_ok.
Proof.
  induction fuel as [|fuel IH]; intros s Hok; cbn [boot_menu]; [done|].
  apply ends_in_bind; [by apply menu_pass_ok|].
  intros [] s1 H1; [done|by apply IH].
Qed.

Lemma start_mqtt_buffers s : same_buffers s (snd (start_mqtt s)).
Proof. by intros []. Qed.

Lemma publish_step_buffers s : same_buffers s (publish_step s).
Proof.
  intros b. unfold publish_step, esp_random, esp_mqtt_client_publish.
  destruct (_ && _).
  - destruct (rng s); cbn [publish_ret emit set_rng];
      destruct (publish_ret s); by destruct b.
  - destruct (negb _); by destruct b.
Qed.

Lemma publish_loop_buffers n : ∀ s, same_buffers s (publish_loop n s).
Proof.
  induction n as [|n IH]; intros s; cbn [publish_loop];
    [apply same_buffers_refl|].
  eapply same_buffers_trans; [|apply IH]. unfold tick.
  eapply same_buffers_trans;
    [apply publish_step_buffers|apply same_buffers_vTaskDelay].
Qed.

Lemma app_main_ok fuel n s :
  buffers_ok s → ends_in (app_main fuel n s) buffers_ok.
Proof.
  intros Hok. unfold app_main.
  apply ends_in_bind; [by apply boot_menu_ok|]. intros _ s1 H1.
  pose proof (buffers_ok_same _ _ (start_mqtt_buffers s1) H1) as H2.
  destruct (start_mqtt s1) as [e s2]. cbn [snd ends_in] in *.
  eapply buffers_ok_same; [apply publish_loop_buffers|].
  by do 2 apply buffers_ok_emit.
Qed.

(** X3. No write of the program leaves a credential buffer unterminated or
    goes past its end.  Starting with the four arrays at their declared
    sizes and a NUL in each, wherever [app_main] has got to (waiting for
    input, or [n] iterations into the publish loop) each array still has
    its declared size and holds a C string shorter than the array, so that
    every [%s] and every [strncpy] of a buffer reads inside it.  This covers
    [read_input] for any input, however long, and [load_from_nvs] for any
    stored value. *)
Theorem buffers_stay_terminated fuel n s :
  buffers_ok s →
  ends_in (app_main fuel n s)
    (λ s', ∀ b, length (get_buf b s') = Z.to_nat (sizeof b) ∧
                (String.length (cstr (get_buf b s')) < Z.to_nat (sizeof b))%nat).
Proof.
  intros Hok. pose proof (app_main_ok fuel n s Hok) as H.
  destruct (app_main fuel n s) as [[] s'|s'|]; cbn [ends_in] in *; [| |done];
    intros b; (split; [apply H|apply terminated_fits, H]).
Qed.

Lemma buffers_stay_terminated_witness :
  ends_in (app_main 60 2 wizard_example)
    (λ s', ∀ b, length (get_buf b s') = Z.to_nat (sizeof b) ∧
                (String.length (cstr (get_buf b s')) <
                 Z.to_nat (sizeof b))%nat).
Proof.
  apply (buffers_stay_terminated 60 2 wizard_example). apply boot_state_ok.
Defined.

(** ** Typed lines *)

Lemma printable_plain ch :
  is_printable ch = true → is_terminator ch = false ∧ is_backspace ch = false.
Proof.
  unfold is_printable, is_terminator, is_backspace. intros Hp.
  apply andb_true_iff in Hp as [H1%Z.leb_le H2%Z.leb_le].
  split; apply orb_false_iff; split.
  - destruct (Ascii.eqb_spec ch CR) as [->|]; [|done]. by vm_compute in H1.
  - destruct (Ascii.eqb_spec ch LF) as [->|]; [|done]. by vm_compute in H1.
  - destruct (Ascii.eqb_spec ch BS) as [->|]; [|done]. by vm_compute in H1.
  - apply Z.eqb_neq. lia.
Qed.

Lemma line_editor_typed w : ∀ rx limit mask acc echo,
  Forall (λ c, is_printable c = true) w →
  (length acc + length w ≤ limit)%nat →
  line_editor (map Some w ++ rx) limit mask acc echo =
  line_editor rx limit mask (acc ++ w) (echo ++ echo_of mask w).
Proof.
  induction w as [|c w IH]; intros rx limit mask acc echo Hw Hl.
  { by rewrite !app_nil_r. }
  apply Forall_cons in Hw as [Hc Hw]. cbn [map app line_editor length] in *.
  destruct (printable_plain c Hc) as [-> ->]. rewrite Hc.
  destruct (Nat.ltb_spec (length acc) limit); [|lia].
  rewrite IH; [|done|rewrite length_app; cbn; lia].
  by rewrite <- !app_assoc.
Qed.

Lemma line_editor_full rx limit mask acc echo :
  length acc = limit →
  line_editor rx limit mask acc echo = Some (acc, echo, rx).
Proof.
  intros <-. destruct rx as [|[?|] ?]; cbn [line_editor];
    by rewrite Nat.ltb_irrefl.
Qed.

Lemma read_input_typed_lemma prompt b len mask s w t rest :
  1 ≤ len < 2 ^ 32 → length (get_buf b s) = Z.to_nat len →
  Forall (λ c, is_printable c = true) (chars w) → strlen w < len - 1 →
  is_terminator t = true → uart_rx s = typed w ++ Some t :: rest →
  ∃ s', read_input prompt b len mask s = Done tt s' ∧
        cstr (get_buf b s') = w ∧ uart_rx s' = rest ∧
        trace s' =
          trace s ++ a_printf prompt :: echo_of mask (chars w) ++
          [a_uart_write_bytes endl].
Proof.
  intros Hlen Hl Hw Hfit Ht Hrx.
  pose proof (read_input_refines b len mask Hlen prompt s Hl) as H.
  unfold strlen in Hfit. rewrite <- chars_length in Hfit.
  rewrite Hrx in H. unfold typed in H.
  rewrite line_editor_typed in H by (cbn; lia || done).
  cbn [app line_editor] in H.
  destruct (Nat.ltb_spec (length (chars w)) (Z.to_nat (len - 1))); [|lia].
  rewrite Ht in H. destruct H as (s' & E & C & _ & _ & T & R & _).
  cbn [app] in *. exists s'. by rewrite of_chars_chars in C.
Qed.

(** X4. A line that fits is read as typed.  When the operator types
    printable characters, fewer than [len - 1] of them, and then a
    terminator, [read_input] returns with exactly these characters in the
    buffer as a C string; it has echoed each of them (or a star) and a
    newline, and the input after the terminator is left for the next
    read. *)
Theorem read_input_typed prompt b len mask s w t rest :
  1 ≤ len < 2 ^ 32 → length (get_buf b s) = Z.to_nat len →
  Forall (λ c, is_printable c = true) (chars w) → strlen w < len - 1 →
  is_terminator t = true → uart_rx s = typed w ++ Some t :: rest →
  ∃ s', read_input prompt b len mask s = Done tt s' ∧
        cstr (get_buf b s') = w ∧ uart_rx s' = rest ∧
        trace s' =
          trace s ++ a_printf prompt :: echo_of mask (chars w) ++
          [a_uart_write_bytes endl].
Proof. apply read_input_typed_lemma. Qed.

Lemma read_input_typed_witness :
  ∃ s', read_input "Enter SSID: " SSID 32 false
          (boot_state ESP_OK ∅ (typed "net1" ++ Some CR :: typed "pw") [] []
             []) = Done tt s' ∧
        cstr (get_buf SSID s') = "net1" ∧ uart_rx s' = typed "pw" ∧
        trace s' =
          [] ++ a_printf "Enter SSID: " :: echo_of false (chars "net1") ++
          [a_uart_write_bytes endl].
Proof.
  apply (read_input_typed "Enter SSID: " SSID 32 false
           (boot_state ESP_OK ∅ (typed "net1" ++ Some CR :: typed "pw") [] []
              []) "net1" CR (typed "pw"));
    [lia|done|by repeat constructor|done|done|done].
Defined.

(** X5. A line is cut at [len - 1] characters without waiting for its
    terminator.  Once [len - 1] printable characters have been typed,
    [read_input] returns with them in the buffer; it echoes no newline, and
    everything typed after them, the terminator of the line included, is
    left in the receive queue for the next read. *)
Theorem read_input_overlong prompt b len mask s w rest :
  1 ≤ len < 2 ^ 32 → length (get_buf b s) = Z.to_nat len →
  Forall (λ c, is_printable c = true) (chars w) → strlen w = len - 1 →
  uart_rx s = typed w ++ rest →
  ∃ s', read_input prompt b len mask s = Done tt s' ∧
        cstr (get_buf b s') = w ∧ uart_rx s' = rest ∧
        trace s' = trace s ++ a_printf prompt :: echo_of mask (chars w).
Proof.
  intros Hlen Hl Hw Hfit Hrx.
  pose proof (read_input_refines b len mask Hlen prompt s Hl) as H.
  unfold strlen in Hfit. rewrite <- chars_length in Hfit.
  rewrite Hrx in H. unfold typed in H.
  rewrite line_editor_typed in H by (cbn; lia || done).
  rewrite line_editor_full in H by (cbn; lia).
  destruct H as (s' & E & C & _ & _ & T & R & _).
  cbn [app] in *. exists s'. by rewrite of_chars_chars in C.
Qed.

Definition full_ssid : string := "0123456789012345678901234567890".

Lemma read_input_overlong_witness :
  ∃ s', read_input "Enter SSID: " SSID 32 false
          (boot_state ESP_OK ∅ (typed full_ssid ++ typed "12" ++ [Some CR])
             [] [] []) = Done tt s' ∧
        cstr (get_buf SSID s') = full_ssid ∧
        uart_rx s' = typed "12" ++ [Some CR] ∧
        trace s' =
          [] ++ a_printf "Enter SSID: " :: echo_of false (chars full_ssid).
Proof.
  apply (read_input_overlong "Enter SSID: " SSID 32 false
           (boot_state ESP_OK ∅ (typed full_ssid ++ typed "12" ++ [Some CR])
              [] [] []) full_ssid (typed "12" ++ [Some CR]));
    [lia|done|by repeat constructor|done|done].
Defined.

(** ** A masked entry *)

Lemma read_input_loop_masked b len rx : ∀ i s,
  ends_in (read_input_loop rx b len true i s)
    (λ s', ∃ echo, trace s' = trace s ++ echo ∧ Forall masked_write echo).
Proof.
  assert (∀ (a : action) s (P := λ s s', ∃ echo, trace s' = trace s ++ echo ∧
                                          Forall masked_write echo) o,
            masked_write a → ends_in o (P (emit a s)) →
            ends_in (A:=Z) o (P s)) as Hstep.
  { intros a s P o Ha. apply ends_in_mono. intros s' (echo & T & F).
    exists (a :: echo). cbn [trace emit] in T.
    rewrite T, <- app_assoc. split; [done|]. by constructor. }
  induction rx as [|[ch|] rx IH]; intros i s; cbn [read_input_loop];
    destruct (_ <? _); cbn [ends_in];
    try (exists []; by rewrite app_nil_r); [|done].
  destruct (Ascii.eqb ch CR || Ascii.eqb ch LF).
  { exists [a_uart_write_bytes endl]. split; [done|].
    constructor; [by right; right|done]. }
  destruct (Ascii.eqb ch BS || (code ch =? 127)).
  { destruct (0 <? i); [|done].
    apply (Hstep (a_uart_write_bytes erase_seq)); [by right; left|done]. }
  destruct ((32 <=? code ch) && (code ch <=? 126)); [|done].
  eapply ends_in_mono; [|apply IH]. intros s' (echo & T & F).
  exists (a_uart_write_bytes "*" :: echo). cbn [trace emit] in T.
  rewrite trace_set_buf in T. rewrite T, <- app_assoc.
  split; [done|]. constructor; [by left|done].
Qed.

(** X6. A masked call of [read_input] echoes none of the characters it
    takes.  With [mask] set, for every buffer, size and input, whether the
    call returns or waits for input for ever, everything this call has
    written to the terminal after its prompt is a star, the erase sequence
    or the final newline.  This is a statement about one call: the bytes it
    leaves in the receive queue (what follows the terminator, or the
    [len - 1] characters that fill the line) are echoed by the read that
    takes them, in clear when that read is not masked. *)
Theorem read_input_masked prompt b len s :
  ends_in (read_input prompt b len true s)
    (λ s', ∃ echo, trace s' = trace s ++ a_printf prompt :: echo ∧
                   Forall masked_write echo).
Proof.
  unfold read_input. cbn zeta. set (s0 := set_buf b _ _).
  assert (trace s0 = trace s ++ [a_printf prompt]) as T0
    by (subst s0; by rewrite trace_set_buf).
  pose proof (read_input_loop_masked b len (uart_rx s0) 0 s0) as H.
  destruct (read_input_loop _ _ _ _ _ _) as [i s1|s1|];
    cbn [bind ends_in] in *; [| |done];
    destruct H as (echo & T & F); exists echo;
    rewrite ?trace_set_buf, T, T0, <- app_assoc; done.
Qed.

(** ** Erasing a character *)

Lemma backspace_plain d : is_backspace d = true → is_terminator d = false.
Proof.
  unfold is_backspace, is_terminator. intros Hd.
  apply orb_false_iff. split.
  - destruct (Ascii.eqb_spec d CR) as [->|]; [by vm_compute in Hd|done].
  - destruct (Ascii.eqb_spec d LF) as [->|]; [by vm_compute in Hd|done].
Qed.

(** The line and the unread input do not depend on what has been echoed
    so far. *)
Lemma line_editor_echo rx limit mask : ∀ acc e1 e2,
  match line_editor rx limit mask acc e1, line_editor rx limit mask acc e2 with
  | Some (l1, _, r1), Some (l2, _, r2) => l1 = l2 ∧ r1 = r2
  | None, None => True
  | _, _ => False
  end.
Proof.
  induction rx as [|[ch|] rx IH]; intros acc e1 e2; cbn [line_editor];
    destruct (_ <? _)%nat; try done; [|by apply IH].
  destruct (is_terminator ch); [done|].
  destruct (is_backspace ch); [destruct acc; by apply IH|].
  destruct (is_printable ch); by apply IH.
Qed.

Lemma line_editor_cancel c d rx limit mask acc echo :
  is_printable c = true → is_backspace d = true →
  (length acc + 1 < limit)%nat →
  line_editor (Some c :: Some d :: rx) limit mask acc echo =
  line_editor rx limit mask acc
    (echo ++ [a_uart_write_bytes (glyph mask c);
              a_uart_write_bytes erase_seq]).
Proof.
  intros Hc Hd Hl. cbn [line_editor].
  destruct (printable_plain c Hc) as [-> ->]. rewrite Hc.
  rewrite (backspace_plain d Hd), Hd, length_app. cbn [length].
  destruct (Nat.ltb_spec (length acc) limit); [|lia].
  destruct (Nat.ltb_spec (length acc + 1) limit); [|lia].
  destruct (acc ++ [c]) as [|x l] eqn:E; [by destruct acc|].
  rewrite <- E, removelast_last, <- app_assoc. done.
Qed.

(** X7. Backspace (or DEL) undoes the character typed just before it.
    After a prefix [w] of printable characters, a printable character
    followed by a backspace leaves [read_input] with the same string in the
    buffer and the same unread input as if the two bytes had not been
    sent, provided the character did not fill the line (in which case the
    read has returned before the backspace arrives). *)
Theorem read_input_cancel prompt b len mask s w c d rest :
  1 ≤ len < 2 ^ 32 → length (get_buf b s) = Z.to_nat len →
  Forall (λ c, is_printable c = true) (chars w) →
  is_printable c = true → is_backspace d = true →
  strlen w + 1 < len - 1 →
  uart_rx s = typed w ++ Some c :: Some d :: rest →
  match read_input prompt b len mask s,
        read_input prompt b len mask (set_uart_rx (typed w ++ rest) s) with
  | Done _ s1, Done _ s2 =>
      cstr (get_buf b s1) = cstr (get_buf b s2) ∧ uart_rx s1 = uart_rx s2
  | Blocked _, Blocked _ => True
  | _, _ => False
  end.
Proof.
  intros Hlen Hl Hw Hc Hd Hfit Hrx.
  pose proof (read_input_refines b len mask Hlen prompt s Hl) as H1.
  pose proof (read_input_refines b len mask Hlen prompt
                (set_uart_rx (typed w ++ rest) s)
                ltac:(by rewrite get_buf_set_uart_rx)) as H2.
  cbn [uart_rx set_uart_rx] in H2. rewrite Hrx in H1.
  unfold strlen in Hfit. rewrite <- chars_length in Hfit.
  unfold typed in *.
  rewrite line_editor_typed in H1, H2 by (cbn; lia || done).
  cbn [app] in H1, H2. rewrite line_editor_cancel in H1 by (done || lia).
  match type of H1 with
  | match line_editor ?rx ?limit ?m ?acc ?e1 with _ => _ end =>
      match type of H2 with
      | match line_editor _ _ _ _ ?e2 with _ => _ end =>
          pose proof (line_editor_echo rx limit m acc e1 e2) as E
      end
  end.
  destruct (line_editor _ _ _ _ _) as [[[l1 ?] r1]|];
    destruct (line_editor _ _ _ _ _) as [[[l2 ?] r2]|]; try done.
  - destruct E as [-> ->].
    destruct H1 as (s1 & -> & C1 & _ & _ & _ & R1 & _).
    destruct H2 as (s2 & -> & C2 & _ & _ & _ & R2 & _).
    split; congruence.
  - destruct H1 as (s1 & ->). by destruct H2 as (s2 & ->).
Qed.

Definition corrected_entry : state :=
  boot_state ESP_OK ∅
    (typed "ne" ++ Some "x"%char :: Some BS :: typed "t1" ++ [Some CR]) [] []
    [].

Lemma read_input_cancel_witness :
  match read_input "Enter SSID: " SSID 32 false corrected_entry,
        read_input "Enter SSID: " SSID 32 false
          (set_uart_rx (typed "ne" ++ typed "t1" ++ [Some CR])
             corrected_entry) with
  | Done _ s1, Done _ s2 =>
      cstr (get_buf SSID s1) = cstr (get_buf SSID s2) ∧
      uart_rx s1 = uart_rx s2
  | Blocked _, Blocked _ => True
  | _, _ => False
  end.
Proof.
  apply (read_input_cancel "Enter SSID: " SSID 32 false corrected_entry "ne"
           "x"%char BS (typed "t1" ++ [Some CR]));
    [lia|done|by repeat constructor|done|done|done|done].
Defined.

(** ** A session of the wizard *)

Lemma vTaskDelay_network ms s s' :
  same_network s s' → same_network (vTaskDelay ms s) (vTaskDelay ms s').
Proof.
  intros (Hf & Hc & He).
  destruct (vTaskDelay_effect ms s) as ((C1 & _) & _).
  destruct (vTaskDelay_effect ms s') as ((C2 & _) & _).
  split; [by apply vTaskDelay_flags|]. split; [congruence|].
  by rewrite !vTaskDelay_events, He.
Qed.

Lemma wait_for_link_network budget : ∀ attempts s s',
  same_network s s' →
  same_network (snd (wait_for_link budget attempts s))
    (snd (wait_for_link budget attempts s')).
Proof.
  induction budget as [|budget IH]; intros attempts s s' H;
    cbn [wait_for_link]; [done|].
  destruct H as ([Hw Hm] & Hc & He). rewrite Hw.
  destruct (_ && _); [|done].
  by apply IH, vTaskDelay_network.
Qed.

(** The result of a link attempt depends on the events to come only. *)
Lemma attempt_wifi_connect_network s s' :
  same_network s s' →
  fst (attempt_wifi_connect s') = fst (attempt_wifi_connect s).
Proof.
  intros (Hf & Hc & He). rewrite !attempt_wifi_connect_fst.
  rewrite !attempt_wifi_connect_snd.
  destruct (wait_for_link_network 80 0 (attempt_begin s) (attempt_begin s'))
    as ([Hw _] & _); [|by rewrite Hw].
  destruct Hf as [_ Hm]. by repeat split.
Qed.

Lemma read_input_entry prompt b mask s w t rest :
  buffers_ok s → entry w b → is_terminator t = true →
  uart_rx s = typed w ++ Some t :: rest →
  ∃ s', read_input prompt b (sizeof b) mask s = Done tt s' ∧
        cstr (get_buf b s') = w ∧ uart_rx s' = rest ∧
        kept_by_read b s s' ∧ buffers_ok s'.
Proof.
  intros Hok [Hw Hfit] Ht Hrx.
  destruct (read_input_typed_lemma prompt b (sizeof b) mask s w t rest)
    as (s' & E & C & R & _); [by destruct b|apply Hok|done..|].
  pose proof (read_input_quiet prompt b (sizeof b) mask s) as Q.
  pose proof (read_input_ok prompt b mask s Hok) as K.
  rewrite E in Q, K. cbn [ends_in] in Q, K. exists s'. tauto.
Qed.

Lemma kept_by_read_network b s s' : kept_by_read b s s' → same_network s s'.
Proof. intros (Hw & Hm & Hc & _ & _ & _ & He & _). by repeat split. Qed.

Lemma same_network_trans s1 s2 s3 :
  same_network s1 s2 → same_network s2 s3 → same_network s1 s3.
Proof.
  intros ([W1 M1] & C1 & E1) ([W2 M2] & C2 & E2).
  repeat split; congruence.
Qed.

Lemma same_buffers_fields s s' :
  same_buffers s s' →
  ssid s' = ssid s ∧ wifi_pass s' = wifi_pass s ∧
  mqtt_broker s' = mqtt_broker s ∧ mqtt_topic s' = mqtt_topic s.
Proof.
  intros H. exact (conj (H SSID) (conj (H WIFI_PASS)
                     (conj (H MQTT_BROKER) (H MQTT_TOPIC)))).
Qed.

Lemma save_wifi_credentials_rx s :
  uart_rx (save_wifi_credentials s) = uart_rx s.
Proof. unfold save_wifi_credentials. cbn zeta. by rewrite !save_to_nvs_rx. Qed.

(** X8. A session of the wizard.  The operator enters an SSID, a
    password, a broker and a topic, each printable, fitting its buffer and
    ended by a terminator, and the link attempt succeeds (its result
    depends on the events to come only, not on what is typed, so this is
    asked of the state the wizard starts in).  Then
    the wizard completes on the first pass with [config_ready] set, the
    four buffers hold the four entries, and the store holds them under
    "ssid", "pass", "broker" and "topic", the other keys of the store being
    as before; what was typed after the fourth terminator is still
    unread. *)
Theorem wizard_session fuel s ws wp wb wt t1 t2 t3 t4 rest :
  buffers_ok s → nvs_open_ret s = ESP_OK →
  entry ws SSID → entry wp WIFI_PASS →
  entry wb MQTT_BROKER → entry wt MQTT_TOPIC →
  Forall (λ t, is_terminator t = true) [t1; t2; t3; t4] →
  fst (attempt_wifi_connect s) = ESP_OK →
  uart_rx s =
    typed ws ++ Some t1 :: typed wp ++ Some t2 ::
    typed wb ++ Some t3 :: typed wt ++ Some t4 :: rest →
  ∃ s', wizard_mode (S fuel) s = Done true s' ∧
        cstr (ssid s') = ws ∧ cstr (wifi_pass s') = wp ∧
        cstr (mqtt_broker s') = wb ∧ cstr (mqtt_topic s') = wt ∧
        nvs s' =
          <["topic" := wt]> (<["broker" := wb]> (<["pass" := wp]>
            (<["ssid" := ws]> (nvs s)))) ∧
        uart_rx s' = rest.
Proof.
  intros Hok Ho Es Ep Eb Et Hts Hlink Hrx.
  apply Forall_cons in Hts as [T1 Hts]. apply Forall_cons in Hts as [T2 Hts].
  apply Forall_cons in Hts as [T3 Hts]. apply Forall_cons in Hts as [T4 _].
  pose proof (wizard_mode_persists (S fuel) s) as Hp.
  assert (∃ s', wizard_mode (S fuel) s = Done true s' ∧
                cstr (ssid s') = ws ∧ cstr (wifi_pass s') = wp ∧
                cstr (mqtt_broker s') = wb ∧ cstr (mqtt_topic s') = wt ∧
                uart_rx s' = rest) as (s' & E & Cs & Cp & Cb & Ct & R).
  { clear Hp. unfold wizard_mode. cbn zeta. set (s0 := emit _ s).
    assert (buffers_ok s0) as Hok0 by (by apply buffers_ok_emit).
    cbn [wizard_wifi]. rewrite wizard_wifi_pass_cases.
    destruct (read_input_entry "Enter SSID: " SSID false s0 ws t1 _
                Hok0 Es T1 Hrx) as (s1 & -> & C1 & R1 & K1 & Hok1).
    cbn [bind].
    destruct (read_input_entry "Enter Password: " WIFI_PASS true s1 wp t2 _
                Hok1 Ep T2 R1) as (s2 & -> & C2 & R2 & K2 & Hok2).
    cbn [bind]. cbn zeta. set (s2' := emit _ s2).
    assert (fst (attempt_wifi_connect s2') = ESP_OK) as Hl.
    { rewrite <- Hlink. apply attempt_wifi_connect_network.
      eapply same_network_trans; [|apply (kept_by_read_network _ _ _ K2)].
      eapply same_network_trans; [|apply (kept_by_read_network _ _ _ K1)].
      by repeat split. }
    destruct (attempt_wifi_connect_quiet s2') as [_ B3].
    pose proof (attempt_wifi_connect_rx s2') as R3.
    pose proof (attempt_wifi_connect_ok s2' (buffers_ok_emit _ _ Hok2))
      as Hok3.
    destruct (attempt_wifi_connect s2') as [e s3]. cbn [fst snd] in *.
    rewrite Hl. change (ESP_OK =? ESP_OK) with true. cbn [bind].
    destruct (save_wifi_credentials_persisted s3) as (_ & B4 & _).
    pose proof (save_wifi_credentials_rx s3) as R4.
    pose proof (save_wifi_credentials_ok s3 Hok3) as Hok4.
    set (s4 := save_wifi_credentials s3) in *.
    destruct (same_buffers_fields _ _ B3) as (F3s & F3p & _).
    destruct (same_buffers_fields _ _ B4) as (F4s & F4p & _).
    destruct K2 as (_ & _ & _ & Kb2 & _).
    pose proof (Kb2 SSID ltac:(done)) as F2s. cbn [get_buf] in *.
    assert (cstr (ssid s4) = ws ∧ cstr (wifi_pass s4) = wp) as [Cs4 Cp4].
    { rewrite F4s, F4p, F3s, F3p. unfold s2'. cbn [ssid wifi_pass emit].
      by rewrite F2s. }
    unfold wizard_mqtt.
    destruct (read_input_entry "Enter MQTT Broker IP: " MQTT_BROKER false s4
                wb t3 (typed wt ++ Some t4 :: rest) Hok4 Eb T3)
      as (s5 & -> & C5 & R5 & K5 & Hok5); [rewrite R4, R3; exact R2|].
    cbn [bind].
    destruct (read_input_entry "Enter MQTT Topic: " MQTT_TOPIC false s5
                wt t4 rest Hok5 Et T4 R5)
      as (s6 & -> & C6 & R6 & K6 & Hok6).
    cbn [bind].
    destruct (save_to_nvs_persisted "broker" (cstr (mqtt_broker s6)) s6)
      as (_ & B7 & _).
    pose proof (save_to_nvs_rx "broker" (cstr (mqtt_broker s6)) s6) as R7.
    destruct (save_to_nvs "broker" _ s6) as [e7 s7]. cbn [snd] in *.
    destruct (save_to_nvs_persisted "topic" (cstr (mqtt_topic s7)) s7)
      as (_ & B8 & _).
    pose proof (save_to_nvs_rx "topic" (cstr (mqtt_topic s7)) s7) as R8.
    destruct (save_to_nvs "topic" _ s7) as [e8 s8]. cbn [snd bind] in *.
    exists s8. split; [done|].
    destruct K5 as (_ & _ & _ & Kb5 & _), K6 as (_ & _ & _ & Kb6 & _).
    destruct (same_buffers_fields _ _ B7) as (F7s & F7p & F7b & F7t).
    destruct (same_buffers_fields _ _ B8) as (F8s & F8p & F8b & F8t).
    pose proof (Kb5 SSID ltac:(done)) as F5s.
    pose proof (Kb5 WIFI_PASS ltac:(done)) as F5p.
    pose proof (Kb6 SSID ltac:(done)) as F6s.
    pose proof (Kb6 WIFI_PASS ltac:(done)) as F6p.
    pose proof (Kb6 MQTT_BROKER ltac:(done)) as F6b.
    cbn [get_buf] in *.
    rewrite F8s, F8p, F8b, F8t, F7s, F7p, F7b, F7t, F6s, F6p, F6b, F5s, F5p.
    repeat split; try done. congruence. }
  exists s'. rewrite E in Hp. destruct Hp as (_ & _ & Hn & _).
  rewrite Ho in Hn. change (ESP_OK =? ESP_OK) with true in Hn.
  cbn match in Hn. unfold wifi_pairs, mqtt_pairs in Hn.
  rewrite Cs, Cp, Cb, Ct in Hn. done.
Qed.

Definition wizard_run : state :=
  boot_state ESP_OK ∅
    (typed "net1" ++ [Some CR] ++ typed "pw1" ++ [Some CR] ++
     typed "10.0.0.5" ++ [Some CR] ++ typed "sensors/a" ++ [Some CR])
    [[(IP_EVENT, IP_EVENT_STA_GOT_IP)]] [] [].

Lemma wizard_session_witness :
  ∃ s', wizard_mode 1 wizard_run = Done true s' ∧
        cstr (ssid s') = "net1" ∧ cstr (wifi_pass s') = "pw1" ∧
        cstr (mqtt_broker s') = "10.0.0.5" ∧
        cstr (mqtt_topic s') = "sensors/a" ∧
        nvs s' =
          <["topic" := "sensors/a"]> (<["broker" := "10.0.0.5"]>
            (<["pass" := "pw1"]> (<["ssid" := "net1"]> ∅))) ∧
        uart_rx s' = [].
Proof.
  apply (wizard_session 0 wizard_run "net1" "pw1" "10.0.0.5" "sensors/a"
           CR CR CR CR []);
    [apply boot_state_ok|done|
     split; [by repeat constructor|done]..|
     by repeat constructor|by vm_compute|done].
Defined.

(** ** From the wizard to the next boot *)

Lemma cred_keys_of b : ∃ key, (key, b) ∈ cred_keys.
Proof.
  destruct b; eexists; unfold cred_keys; rewrite !elem_of_cons; eauto 6.
Qed.

(** What the four stores of a completed wizard leave under each key. *)
Lemma wizard_store m s kb :
  kb ∈ cred_keys →
  foldl put m (wifi_pairs s ++ mqtt_pairs s) !! kb.1 =
  Some (cstr (get_buf kb.2 s)).
Proof.
  unfold cred_keys. rewrite !elem_of_cons, elem_of_nil.
  intros [->|[->|[->|[->|[]]]]]; cbn; unfold put; cbn [fst snd];
    by repeat (rewrite lookup_insert_eq || rewrite lookup_insert_ne by done).
Qed.

Lemma link_ready_loaded s :
  Forall (λ kb, load_ret kb s = ESP_OK) cred_keys →
  Forall (λ kb, get_buf kb.2 (link_ready s) = loaded_buf kb s) cred_keys.
Proof.
  intros Hall. unfold link_ready. cbn zeta. rewrite load_all_chain.
  set (s1 := emit (a_printf msg_loading) s).
  assert (Forall (λ kb, get_buf kb.2 (snd (load_chain cred_keys s1)) =
                        loaded_buf kb s) cred_keys) as H.
  { apply load_chain_loaded.
    - apply (bool_decide_unpack _). by vm_compute.
    - apply same_outside_buffers_emit.
    - by intros [k []].
    - rewrite <- load_all_chain. by apply load_all_emit_ok_iff. }
  eapply Forall_impl; [exact H|]. intros kb Hkb. by rewrite get_buf_emit.
Qed.

(** X9. What the wizard has stored is what the auto mode loads at the
    next boot.  After a completed wizard on a namespace that opens, in any
    later state whose store is the one the wizard left, the four loads of
    the auto mode return [ESP_OK] and the link attempt is made with the
    four strings the wizard had in its buffers. *)
Theorem wizard_then_auto fuel s s' s2 :
  buffers_ok s → nvs_open_ret s = ESP_OK →
  wizard_mode fuel s = Done true s' →
  nvs_open_ret s2 = ESP_OK → nvs s2 = nvs s' →
  Forall (λ kb, load_ret kb s2 = ESP_OK) cred_keys ∧
  ∀ b, cstr (get_buf b (link_ready s2)) = cstr (get_buf b s').
Proof.
  intros Hok Ho Hw Ho2 Hn2.
  pose proof (wizard_mode_persists fuel s) as Hp.
  pose proof (wizard_mode_ok fuel s Hok) as Hok'.
  rewrite Hw in Hp, Hok'. cbn [ends_in] in Hok'.
  destruct Hp as (_ & _ & Hn & _). rewrite Ho in Hn.
  change (ESP_OK =? ESP_OK) with true in Hn. cbn match in Hn.
  assert (∀ kb, kb ∈ cred_keys →
                nvs s2 !! kb.1 = Some (cstr (get_buf kb.2 s'))) as Hs.
  { intros kb Hin. rewrite Hn2, Hn. by apply wizard_store. }
  assert (Forall (λ kb, load_ret kb s2 = ESP_OK) cred_keys) as Hall.
  { apply Forall_forall. intros kb Hin. apply load_from_nvs_ok_iff.
    split; [done|]. rewrite (Hs kb Hin). eauto. }
  split; [done|]. intros b. destruct (cred_keys_of b) as [key Hin].
  pose proof (link_ready_loaded s2 Hall) as Hl.
  rewrite Forall_forall in Hl. rewrite (Hl _ Hin : get_buf b _ = _).
  unfold loaded_buf. cbn [fst snd].
  rewrite load_from_nvs_cases, Ho2, (Hs _ Hin : nvs s2 !! key = _).
  change (negb (ESP_OK =? ESP_OK)) with false. cbn match.
  pose proof (terminated_fits _ _ (Hok' b)) as Hfit. cbn [snd].
  destruct (Z.leb_spec (strlen (cstr (get_buf b s')) + 1) (sizeof b))
    as [_|Hbad]; [|unfold strlen in Hbad; destruct b; cbn in *; lia].
  cbn [snd]. rewrite get_set_buf_eq. unfold store_prefix.
  rewrite <- app_assoc. cbn [app]. apply cstr_stored, cstr_no_NUL.
Qed.

Definition wizard_result : state :=
  match wizard_mode 3 wizard_run with
  | Done _ s' => s'
  | _ => wizard_run
  end.

Lemma wizard_then_auto_witness :
  wizard_mode 3 wizard_run = Done true wizard_result ∧
  cstr (mqtt_broker wizard_result) = "10.0.0.5" ∧
  let s2 := boot_state ESP_OK (nvs wizard_result) [] [] [] [] in
  Forall (λ kb, load_ret kb s2 = ESP_OK) cred_keys ∧
  ∀ b, cstr (get_buf b (link_ready s2)) = cstr (get_buf b wizard_result).
Proof.
  split; [by vm_compute|]. split; [by vm_compute|].
  apply (wizard_then_auto 3 wizard_run wizard_result);
    [apply boot_state_ok|done|by vm_compute|done|done].
Defined.

(** ** A boot in the auto mode *)

Lemma load_chain_network l s : same_network s (snd (load_chain l s)).
Proof.
  destruct (load_chain_same l s) as (Hw & Hm & Hc & _ & _ & _ & He & _).
  by repeat split.
Qed.

Lemma link_ready_network s : same_network s (link_ready s).
Proof.
  unfold link_ready. cbn zeta. rewrite load_all_chain.
  destruct (load_chain_network cred_keys (emit (a_printf msg_loading) s))
    as ([Hw Hm] & Hc & He).
  by repeat split.
Qed.

(** X10. A boot in the auto mode.  When the namespace opens, each of the
    four keys holds a value without NUL that fits its buffer with its
    terminator, and the link comes up during the wait of the attempt, the
    auto mode sets [config_ready]; the four buffers then hold the four
    stored values, the link flag is up, and the store is as it was. *)
Theorem auto_session (vals : cred_buf → string) s :
  nvs_open_ret s = ESP_OK →
  (∀ kb, kb ∈ cred_keys →
         nvs s !! kb.1 = Some (vals kb.2) ∧ (NUL ∉ chars (vals kb.2)) ∧
         strlen (vals kb.2) + 1 ≤ sizeof kb.2) →
  fst (attempt_wifi_connect s) = ESP_OK →
  ∃ s', auto_mode s = (true, s') ∧
        (∀ b, cstr (get_buf b s') = vals b) ∧
        wifi_connected s' = true ∧ nvs s' = nvs s.
Proof.
  intros Ho Hv Hlink.
  assert (Forall (λ kb, load_ret kb s = ESP_OK) cred_keys) as Hall.
  { apply Forall_forall. intros kb Hin. apply load_from_nvs_ok_iff.
    split; [done|]. destruct (Hv kb Hin) as (-> & _). eauto. }
  pose proof (auto_mode_quiet s) as (_ & Hn & _).
  rewrite Ho in Hn. cbn in Hn.
  rewrite auto_mode_unfold in *.
  rewrite (proj2 (load_all_emit_ok_iff (a_printf msg_loading) s) Hall) in *.
  cbn zeta in *.
  pose proof (attempt_wifi_connect_network s (link_ready s)
                (link_ready_network s)) as Hl.
  rewrite Hlink in Hl.
  pose proof (proj1 (attempt_wifi_connect_flag (link_ready s)) Hl) as Hup.
  destruct (attempt_wifi_connect_quiet (link_ready s)) as [_ Hb].
  pose proof (link_ready_loaded s Hall) as Hld.
  destruct (attempt_wifi_connect (link_ready s)) as [e s1].
  cbn [fst snd] in *. rewrite Hl in *.
  change (ESP_OK =? ESP_OK) with true in *. cbn [snd] in Hn.
  exists s1. split; [done|]. split; [|done].
  intros b. destruct (cred_keys_of b) as [key Hin].
  rewrite Forall_forall in Hld.
  rewrite Hb, (Hld _ Hin : get_buf b _ = _).
  destruct (Hv _ Hin) as (Hk & Hnul & Hfit). cbn [fst snd] in *.
  unfold loaded_buf. cbn [fst snd].
  rewrite load_from_nvs_cases, Ho, Hk.
  change (negb (ESP_OK =? ESP_OK)) with false. cbn match.
  rewrite (proj2 (Z.leb_le _ _) Hfit). cbn [snd].
  rewrite get_set_buf_eq. unfold store_prefix.
  rewrite <- app_assoc. cbn [app]. by apply cstr_stored.
Qed.

Definition stored_example : state :=
  boot_state ESP_OK
    (<["ssid" := "net1"]> (<["pass" := "pw1"]> (<["broker" := "10.0.0.5"]>
       (<["topic" := "sensors/a"]> ∅))))
    [] [[]; [(IP_EVENT, IP_EVENT_STA_GOT_IP)]] [] [].

Definition stored_values (b : cred_buf) : string :=
  match b with
  | SSID => "net1"
  | WIFI_PASS => "pw1"
  | MQTT_BROKER => "10.0.0.5"
  | MQTT_TOPIC => "sensors/a"
  end.

Lemma auto_session_witness :
  ∃ s', auto_mode stored_example = (true, s') ∧
        (∀ b, cstr (get_buf b s') = stored_values b) ∧
        wifi_connected s' = true ∧ nvs s' = nvs stored_example.
Proof.
  apply (auto_session stored_values stored_example);
    [done| |by vm_compute].
  intros kb Hin. unfold cred_keys in Hin.
  rewrite !elem_of_cons, elem_of_nil in Hin.
  destruct Hin as [->|[->|[->|[->|[]]]]];
    (split; [done|]; split; [|done]);
    apply (bool_decide_unpack _); by vm_compute.
Defined.

(** ** What provisioning leaves alone *)

Lemma provisioning_refl s : provisioning s s.
Proof. by split. Qed.

Lemma provisioning_trans s1 s2 s3 :
  provisioning s1 s2 → provisioning s2 s3 → provisioning s1 s3.
Proof.
  intros [R1 C1] [R2 C2]. split; [by etrans|].
  intros Hc. destruct (C1 Hc) as [Hc2 Hm2]. destruct (C2 Hc2) as [Hc3 Hm3].
  split; congruence.
Qed.

Lemma provisioning_frame s s' :
  uart_rx s' `suffix_of` uart_rx s → client s' = client s →
  mqtt_connected s' = mqtt_connected s → provisioning s s'.
Proof. intros Hr Hc Hm. split; [done|]. intros H. split; congruence. Qed.

Lemma provisioning_emit a s : provisioning s (emit a s).
Proof. by apply provisioning_frame. Qed.

Lemma ends_in_provisioning {A B : Type} (m : outcome A)
    (k : A → state → outcome B) s :
  ends_in m (provisioning s) →
  (∀ a s1, ends_in (k a s1) (provisioning s1)) →
  ends_in (bind m k) (provisioning s).
Proof.
  destruct m as [a s1|s1|]; cbn; [|done..].
  intros H1 Hk. eapply ends_in_mono; [|apply Hk].
  intros s2. by apply provisioning_trans.
Qed.

(** Before [start_mqtt] no handler is registered for MQTT events. *)
Lemma deliver_no_client s e :
  client s = None →
  client (deliver s e) = None ∧
  mqtt_connected (deliver s e) = mqtt_connected s.
Proof.
  intros Hc. unfold deliver, wifi_event_handler.
  destruct e as [[] []]; rewrite ?Hc; by cbn.
Qed.

Lemma foldl_deliver_no_client batch : ∀ s,
  client s = None →
  client (foldl deliver s batch) = None ∧
  mqtt_connected (foldl deliver s batch) = mqtt_connected s.
Proof.
  induction batch as [|e batch IH]; intros s Hc; cbn [foldl]; [done|].
  destruct (deliver_no_client s e Hc) as [Hc1 Hm1].
  destruct (IH _ Hc1) as [Hc2 Hm2]. split; congruence.
Qed.

Lemma vTaskDelay_provisioning ms s : provisioning s (vTaskDelay ms s).
Proof.
  split; [by rewrite vTaskDelay_rx|]. intros Hc. unfold vTaskDelay.
  cbn [events emit]. destruct (events s) as [|batch later]; [done|].
  by apply (foldl_deliver_no_client batch
              (set_events later (emit (a_vTaskDelay ms) s))).
Qed.

Lemma wait_for_link_provisioning budget : ∀ attempts s,
  provisioning s (snd (wait_for_link budget attempts s)).
Proof.
  induction budget as [|budget IH]; intros attempts s; cbn [wait_for_link];
    [apply provisioning_refl|].
  destruct (_ && _); [|apply provisioning_refl].
  eapply provisioning_trans; [apply vTaskDelay_provisioning|apply IH].
Qed.

Lemma attempt_wifi_connect_provisioning s :
  provisioning s (snd (attempt_wifi_connect s)).
Proof.
  rewrite attempt_wifi_connect_snd.
  eapply provisioning_trans; [|apply wait_for_link_provisioning].
  by apply provisioning_frame.
Qed.

Lemma save_to_nvs_provisioning key value s :
  provisioning s (snd (save_to_nvs key value s)).
Proof.
  unfold save_to_nvs, nvs_set_str.
  destruct (negb _); by apply provisioning_frame.
Qed.

Lemma load_chain_provisioning l s : provisioning s (snd (load_chain l s)).
Proof.
  destruct (load_chain_same l s) as (_ & Hm & Hc & _ & _ & Hr & _).
  apply provisioning_frame; [by rewrite Hr|done..].
Qed.

Lemma auto_mode_provisioning s : provisioning s (snd (auto_mode s)).
Proof.
  rewrite auto_mode_unfold.
  assert (provisioning s (snd (load_all (emit (a_printf msg_loading) s))))
    as H1.
  { eapply provisioning_trans; [apply provisioning_emit|].
    rewrite load_all_chain. apply load_chain_provisioning. }
  destruct (fst (load_all _)); cbn [snd].
  - assert (provisioning s (link_ready s)) as H2.
    { unfold link_ready. cbn zeta.
      eapply provisioning_trans; [exact H1|apply provisioning_emit]. }
    pose proof (attempt_wifi_connect_provisioning (link_ready s)) as H3.
    cbn zeta. destruct (attempt_wifi_connect (link_ready s)) as [e s1].
    cbn [fst snd] in *. destruct (e =? ESP_OK); cbn [snd].
    + by eapply provisioning_trans.
    + eapply provisioning_trans; [exact H2|].
      eapply provisioning_trans; [exact H3|apply provisioning_emit].
  - eapply provisioning_trans; [exact H1|apply provisioning_emit].
Qed.

Lemma read_input_loop_suffix b len mask rx : ∀ i s,
  ends_in (read_input_loop rx b len mask i s)
    (λ s', uart_rx s' `suffix_of` rx).
Proof.
  induction rx as [|[ch|] rx IH]; intros i s; cbn [read_input_loop];
    destruct (_ <? _); cbn [ends_in]; try done;
    assert (∀ x i s, ends_in (read_input_loop rx b len mask i s)
                       (λ s', uart_rx s' `suffix_of` x :: rx)) as IH'
      by (intros; eapply ends_in_mono; [|apply IH];
          intros ?; apply suffix_cons_r);
    [|done].
  destruct (Ascii.eqb ch CR || Ascii.eqb ch LF);
    [by apply suffix_cons_r|].
  destruct (Ascii.eqb ch BS || (code ch =? 127)).
  { by destruct (0 <? i). }
  by destruct ((32 <=? code ch) && (code ch <=? 126)).
Qed.

Lemma read_input_provisioning prompt b len mask s :
  ends_in (read_input prompt b len mask s) (provisioning s).
Proof.
  pose proof (read_input_quiet prompt b len mask s) as Q.
  unfold read_input in *. cbn zeta in *.
  set (s0 := set_buf b _ _) in *.
  assert (uart_rx s0 = uart_rx s) as E
    by (subst s0; by rewrite uart_rx_set_buf).
  assert (ends_in (read_input_loop (uart_rx s0) b len mask 0 s0)
            (λ s', uart_rx s' `suffix_of` uart_rx s)) as H
    by (rewrite <- E; apply read_input_loop_suffix).
  destruct (read_input_loop _ _ _ _ _ _) as [i s1|s1|];
    cbn [bind ends_in] in *; [| |done].
  - destruct Q as [_ (_ & Hm & Hc & _)].
    apply provisioning_frame; [by rewrite uart_rx_set_buf|done..].
  - destruct Q as [_ (_ & Hm & Hc & _)]. by apply provisioning_frame.
Qed.

Lemma wizard_wifi_pass_provisioning s :
  ends_in (wizard_wifi_pass s) (provisioning s).
Proof.
  rewrite wizard_wifi_pass_cases.
  apply ends_in_provisioning; [apply read_input_provisioning|].
  intros _ s1.
  apply ends_in_provisioning; [apply read_input_provisioning|].
  intros _ s2. cbn zeta.
  pose proof (attempt_wifi_connect_provisioning
                (emit (a_printf ("Attempting connection..." +:+ endl)) s2))
    as H.
  destruct (attempt_wifi_connect _) as [e s3]. cbn [fst snd] in *.
  assert (provisioning s2 s3) as H'
    by (eapply provisioning_trans; [apply provisioning_emit|exact H]).
  destruct (e =? ESP_OK); cbn [ends_in].
  - eapply provisioning_trans; [exact H'|]. unfold save_wifi_credentials.
    cbn zeta.
    eapply provisioning_trans; [apply provisioning_emit|].
    eapply provisioning_trans; apply save_to_nvs_provisioning.
  - eapply provisioning_trans; [exact H'|].
    eapply provisioning_trans; apply provisioning_emit.
Qed.

Lemma wizard_wifi_provisioning fuel : ∀ s,
  ends_in (wizard_wifi fuel s) (provisioning s).
Proof.
  induction fuel as [|fuel IH]; intros s; cbn [wizard_wifi]; [done|].
  apply ends_in_provisioning; [apply wizard_wifi_pass_provisioning|].
  intros [] s1; [apply provisioning_refl|apply IH].
Qed.

Lemma wizard_mqtt_provisioning s : ends_in (wizard_mqtt s) (provisioning s).
Proof.
  unfold wizard_mqtt.
  apply ends_in_provisioning; [apply read_input_provisioning|].
  intros _ s1.
  apply ends_in_provisioning; [apply read_input_provisioning|].
  intros _ s2.
  pose proof (save_to_nvs_provisioning "broker" (cstr (mqtt_broker s2)) s2)
    as H3.
  destruct (save_to_nvs "broker" _ s2) as [e3 s3]. cbn [snd] in H3.
  pose proof (save_to_nvs_provisioning "topic" (cstr (mqtt_topic s3)) s3)
    as H4.
  destruct (save_to_nvs "topic" _ s3) as [e4 s4]. cbn [snd ends_in] in *.
  by eapply provisioning_trans.
Qed.

Lemma wizard_mode_provisioning fuel s :
  ends_in (wizard_mode fuel s) (provisioning s).
Proof.
  unfold wizard_mode. cbn zeta.
  match goal with
  | |- ends_in (bind (wizard_wifi _ ?s0) _) _ =>
      apply (ends_in_mono _ (provisioning s0))
  end.
  { intros s' H. eapply provisioning_trans; [apply provisioning_emit|done]. }
  apply ends_in_provisioning; [apply wizard_wifi_provisioning|].
  intros _ s1. apply ends_in_provisioning; [apply wizard_mqtt_provisioning|].
  intros _ s2. apply provisioning_refl.
Qed.

Lemma wait_choice_provisioning rx : ∀ s,
  rx `suffix_of` uart_rx s → ends_in (wait_choice rx s) (provisioning s).
Proof.
  induction rx as [|[ch|] rx IH]; intros s Hrx; cbn [wait_choice ends_in].
  - by apply provisioning_frame.
  - apply provisioning_frame; [|done..]. by apply suffix_cons_l in Hrx.
  - eapply ends_in_mono; [|apply IH].
    + intros s' H. eapply provisioning_trans; [|exact H].
      apply vTaskDelay_provisioning.
    + rewrite vTaskDelay_rx. by apply suffix_cons_l in Hrx.
Qed.

Lemma print_menu_provisioning s : provisioning s (print_menu s).
Proof. by apply provisioning_frame. Qed.

Lemma menu_pass_provisioning fuel s :
  ends_in (menu_pass fuel s) (provisioning s).
Proof.
  unfold menu_pass. cbn zeta.
  apply (ends_in_mono _ (provisioning (print_menu s))).
  { intros s' H. eapply provisioning_trans; [|exact H].
    apply print_menu_provisioning. }
  apply ends_in_provisioning; [by apply wait_choice_provisioning|].
  intros ch s1. destruct (is_O ch).
  { pose proof (auto_mode_provisioning (emit (a_printf (String ch endl)) s1))
      as H.
    destruct (auto_mode _) as [ready s2]. cbn [snd ends_in] in *.
    eapply provisioning_trans; [apply provisioning_emit|exact H]. }
  destruct (is_N ch).
  - match goal with
    | |- ends_in (wizard_mode _ ?s0) _ =>
        apply (ends_in_mono _ (provisioning s0));
          [|apply wizard_mode_provisioning]
    end.
    intros s' H. eapply provisioning_trans; [apply provisioning_emit|done].
  - eapply provisioning_trans; apply provisioning_emit.
Qed.

Lemma boot_menu_provisioning fuel : ∀ s,
  ends_in (boot_menu fuel s) (provisioning s).
Proof.
  induction fuel as [|fuel IH]; intros s; cbn [boot_menu]; [done|].
  apply ends_in_provisioning; [apply menu_pass_provisioning|].
  intros [] s1; [apply provisioning_refl|apply IH].
Qed.

(** ** Calls to the Wi-Fi driver and to the MQTT client *)

Lemma rounds_app l1 l2 : rounds (l1 ++ l2) = rounds l1 ++ rounds l2.
Proof. unfold rounds. by rewrite map_app, concat_app. Qed.

Lemma rounds_cons stopped l :
  rounds (stopped :: l) =
  (a_esp_wifi_start :: if stopped then [a_esp_wifi_stop] else []) ++ rounds l.
Proof. done. Qed.

Section Selected.
Context (p : action → bool).
Hypothesis p_plain : ∀ a, plain a = true → p a = false.

Lemma selected_app t1 t2 :
  selected p (t1 ++ t2) = selected p t1 ++ selected p t2.
Proof. apply List.filter_app. Qed.

Lemma selected_plain ext :
  Forall (λ a, plain a = true) ext → selected p ext = [].
Proof.
  induction 1 as [|a ext Ha _ IH]; [done|].
  cbn. by rewrite (p_plain a Ha).
Qed.

Lemma attempts_made_refl s : attempts_made p [] s s.
Proof. unfold attempts_made. by rewrite app_nil_r. Qed.

Lemma attempts_made_trans l1 l2 s1 s2 s3 :
  attempts_made p l1 s1 s2 → attempts_made p l2 s2 s3 →
  attempts_made p (l1 ++ l2) s1 s3.
Proof.
  unfold attempts_made. intros H1 H2.
  by rewrite H2, H1, rounds_app, selected_app, app_assoc.
Qed.

Lemma attempts_made_nil_l l s1 s2 s3 :
  attempts_made p [] s1 s2 → attempts_made p l s2 s3 →
  attempts_made p l s1 s3.
Proof. apply (attempts_made_trans [] l). Qed.

Lemma attempts_made_nil_r l s1 s2 s3 :
  attempts_made p l s1 s2 → attempts_made p [] s2 s3 →
  attempts_made p l s1 s3.
Proof.
  intros H1 H2. rewrite <- (app_nil_r l). by eapply attempts_made_trans.
Qed.

Lemma attempts_made_quiet s s' ext :
  trace s' = trace s ++ ext → Forall (λ a, plain a = true) ext →
  attempts_made p [] s s'.
Proof.
  intros T F. unfold attempts_made.
  by rewrite T, selected_app, (selected_plain ext F).
Qed.

Lemma attempts_made_emit a s :
  plain a = true → attempts_made p [] s (emit a s).
Proof.
  intros Ha. apply (attempts_made_quiet _ _ [a]); [done|].
  by constructor.
Qed.

Lemma attempts_made_same l s s1 s1' :
  trace s1' = trace s1 → attempts_made p l s s1 → attempts_made p l s s1'.
Proof. unfold attempts_made. by intros ->. Qed.

Lemma handler_action_plain ext :
  Forall handler_action ext → Forall (λ a, plain a = true) ext.
Proof. intros H. eapply Forall_impl; [exact H|]. by intros []. Qed.

Lemma vTaskDelay_attempts ms s : attempts_made p [] s (vTaskDelay ms s).
Proof.
  destruct (vTaskDelay_effect ms s) as (_ & ext & T & F).
  eapply attempts_made_quiet; [exact T|].
  constructor; [done|by apply handler_action_plain].
Qed.

Lemma wait_for_link_attempts budget : ∀ attempts s,
  attempts_made p [] s (snd (wait_for_link budget attempts s)).
Proof.
  induction budget as [|budget IH]; intros attempts s;
    cbn [wait_for_link]; [apply attempts_made_refl|].
  destruct (_ && _); [|apply attempts_made_refl].
  eapply attempts_made_nil_l; [apply vTaskDelay_attempts|apply IH].
Qed.

Lemma attempt_wifi_connect_attempts s :
  attempts_made p [false] s (snd (attempt_wifi_connect s)).
Proof.
  rewrite attempt_wifi_connect_snd.
  eapply attempts_made_nil_r; [|apply wait_for_link_attempts].
  unfold attempts_made, attempt_begin. cbn [trace emit set_wifi_connected].
  rewrite <- !app_assoc. cbn [app]. rewrite selected_app.
  f_equal. unfold selected, rounds. cbn [List.filter map concat app].
  rewrite (p_plain a_esp_wifi_set_mode_sta), (p_plain a_esp_wifi_connect),
    (p_plain (a_esp_wifi_set_config _ _)) by done.
  done.
Qed.

Lemma save_to_nvs_attempts key value s :
  attempts_made p [] s (snd (save_to_nvs key value s)).
Proof.
  unfold save_to_nvs, nvs_set_str.
  destruct (negb _); [apply attempts_made_refl|].
  by apply (attempts_made_quiet _ _ [a_nvs_set_str key value]);
    [|constructor].
Qed.

Lemma auto_mode_attempts s :
  attempts_made p
    (if fst (load_all (emit (a_printf msg_loading) s)) then [false] else [])
    s (snd (auto_mode s)).
Proof.
  rewrite auto_mode_unfold.
  assert (attempts_made p [] s
            (snd (load_all (emit (a_printf msg_loading) s)))) as H1.
  { eapply attempts_made_same;
      [by rewrite load_all_chain, load_chain_trace|].
    by apply attempts_made_emit. }
  destruct (fst (load_all _)); cbn [snd].
  - assert (attempts_made p [] s (link_ready s)) as H2.
    { unfold link_ready. cbn zeta.
      eapply attempts_made_nil_l; [exact H1|by apply attempts_made_emit]. }
    pose proof (attempt_wifi_connect_attempts (link_ready s)) as H3.
    cbn zeta. destruct (attempt_wifi_connect (link_ready s)) as [e s1].
    cbn [fst snd] in *.
    assert (attempts_made p [false] s s1) as H4
      by (by eapply attempts_made_nil_l).
    destruct (e =? ESP_OK); cbn [snd]; [done|].
    eapply attempts_made_nil_r; [exact H4|by apply attempts_made_emit].
  - eapply attempts_made_nil_l; [exact H1|by apply attempts_made_emit].
Qed.

Lemma attempts_made_set_uart_rx rx s :
  attempts_made p [] s (set_uart_rx rx s).
Proof. apply (attempts_made_same _ _ s); [done|apply attempts_made_refl]. Qed.

Lemma read_input_loop_attempts b len mask rx : ∀ i s,
  ends_in (read_input_loop rx b len mask i s) (attempts_made p [] s).
Proof.
  induction rx as [|[ch|] rx IH]; intros i s; cbn [read_input_loop];
    destruct (_ <? _); cbn [ends_in];
    try apply attempts_made_set_uart_rx; [|done].
  destruct (Ascii.eqb ch CR || Ascii.eqb ch LF).
  { eapply attempts_made_nil_l; [|apply attempts_made_set_uart_rx].
    by apply attempts_made_emit. }
  destruct (Ascii.eqb ch BS || (code ch =? 127)).
  { destruct (0 <? i); [|done].
    eapply ends_in_mono; [|apply IH]. intros s' H.
    eapply attempts_made_nil_l; [|exact H]. by apply attempts_made_emit. }
  destruct ((32 <=? code ch) && (code ch <=? 126)); [|done].
  eapply ends_in_mono; [|apply IH]. intros s' H.
  eapply attempts_made_nil_l; [|exact H].
  unfold attempts_made. cbn [trace emit]. rewrite trace_set_buf.
  rewrite selected_app, (selected_plain [_]); [done|]. by constructor.
Qed.

Lemma read_input_attempts prompt b len mask s :
  ends_in (read_input prompt b len mask s) (attempts_made p [] s).
Proof.
  unfold read_input. cbn zeta. set (s0 := set_buf b _ _).
  assert (attempts_made p [] s s0) as H0.
  { eapply attempts_made_same; [subst s0; by rewrite trace_set_buf|].
    by apply attempts_made_emit. }
  pose proof (read_input_loop_attempts b len mask (uart_rx s0) 0 s0) as H.
  destruct (read_input_loop _ _ _ _ _ _) as [i s1|s1|];
    cbn [bind ends_in] in *; [| |done].
  - eapply attempts_made_same; [by rewrite trace_set_buf|].
    by eapply attempts_made_nil_l.
  - by eapply attempts_made_nil_l.
Qed.
Lemma wizard_wifi_pass_attempts s :
  match wizard_wifi_pass s with
  | Done ok s' => attempts_made p [negb ok] s s'
  | Blocked s' => attempts_made p [] s s'
  | OutOfFuel => True
  end.
Proof.
  rewrite wizard_wifi_pass_cases.
  pose proof (read_input_attempts "Enter SSID: " SSID (sizeof SSID) false s)
    as H1.
  destruct (read_input _ _ _ _ s) as [[] s1|s1|]; cbn [bind ends_in] in *;
    [|done..].
  pose proof (read_input_attempts "Enter Password: " WIFI_PASS
                (sizeof WIFI_PASS) true s1) as H2.
  destruct (read_input _ _ _ _ s1) as [[] s2|s2|]; cbn [bind ends_in] in *;
    [|by eapply attempts_made_nil_l|done].
  cbn zeta.
  pose proof (attempt_wifi_connect_attempts
                (emit (a_printf ("Attempting connection..." +:+ endl)) s2))
    as H3.
  destruct (attempt_wifi_connect _) as [e s3]. cbn [fst snd] in *.
  assert (attempts_made p [false] s s3) as H4.
  { eapply attempts_made_nil_l; [exact H1|].
    eapply attempts_made_nil_l; [exact H2|].
    eapply attempts_made_nil_l; [|exact H3]. by apply attempts_made_emit. }
  destruct (e =? ESP_OK); cbn [negb].
  - eapply attempts_made_nil_r; [exact H4|]. unfold save_wifi_credentials.
    cbn zeta.
    eapply attempts_made_nil_l;
      [|eapply attempts_made_nil_l; apply save_to_nvs_attempts].
    by apply attempts_made_emit.
  - unfold attempts_made in *. cbn [trace emit].
    rewrite !selected_app, H4, <- !app_assoc. f_equal.
    unfold selected, rounds. cbn [List.filter map concat app].
    rewrite (p_plain (a_printf _)) by done.
    by destruct (p a_esp_wifi_start).
Qed.

Lemma wizard_wifi_attempts fuel : ∀ s,
  match wizard_wifi fuel s with
  | Done _ s' => ∃ k, attempts_made p (replicate k true ++ [false]) s s'
  | Blocked s' => ∃ k, attempts_made p (replicate k true) s s'
  | OutOfFuel => True
  end.
Proof.
  induction fuel as [|fuel IH]; intros s; cbn [wizard_wifi]; [done|].
  pose proof (wizard_wifi_pass_attempts s) as H1.
  destruct (wizard_wifi_pass s) as [[] s1|s1|]; cbn [bind negb] in *.
  - by exists 0%nat.
  - specialize (IH s1).
    destruct (wizard_wifi fuel s1) as [[] s2|s2|]; [| |done];
      destruct IH as [k IH]; exists (S k);
      apply (attempts_made_trans [true] _ _ s1); done.
  - by exists 0%nat.
  - done.
Qed.

Lemma wizard_mqtt_attempts s :
  ends_in (wizard_mqtt s) (attempts_made p [] s).
Proof.
  unfold wizard_mqtt.
  pose proof (read_input_attempts "Enter MQTT Broker IP: " MQTT_BROKER
                (sizeof MQTT_BROKER) false s) as H1.
  destruct (read_input _ _ _ _ s) as [[] s1|s1|]; cbn [bind ends_in] in *;
    [|done..].
  pose proof (read_input_attempts "Enter MQTT Topic: " MQTT_TOPIC
                (sizeof MQTT_TOPIC) false s1) as H2.
  destruct (read_input _ _ _ _ s1) as [[] s2|s2|]; cbn [bind ends_in] in *;
    [|by eapply attempts_made_nil_l|done].
  pose proof (save_to_nvs_attempts "broker" (cstr (mqtt_broker s2)) s2)
    as H3.
  destruct (save_to_nvs "broker" _ s2) as [e3 s3]. cbn [snd] in H3.
  pose proof (save_to_nvs_attempts "topic" (cstr (mqtt_topic s3)) s3)
    as H4.
  destruct (save_to_nvs "topic" _ s3) as [e4 s4]. cbn [snd ends_in] in *.
  eapply attempts_made_nil_l; [exact H1|].
  eapply attempts_made_nil_l; [exact H2|].
  by eapply attempts_made_nil_l.
Qed.

Lemma wizard_mode_attempts fuel s :
  match wizard_mode fuel s with
  | Done _ s' => ∃ k, attempts_made p (replicate k true ++ [false]) s s'
  | Blocked s' => ∃ l, attempts_made p l s s'
  | OutOfFuel => True
  end.
Proof.
  unfold wizard_mode. cbn zeta.
  set (s0 := emit _ s).
  assert (attempts_made p [] s s0) as H0 by (by apply attempts_made_emit).
  pose proof (wizard_wifi_attempts fuel s0) as H1.
  destruct (wizard_wifi fuel s0) as [[] s1|s1|]; cbn [bind]; [| |done].
  - destruct H1 as [k H1].
    pose proof (wizard_mqtt_attempts s1) as H2.
    destruct (wizard_mqtt s1) as [[] s2|s2|]; cbn [bind ends_in] in *;
      [| |done].
    + exists k. eapply attempts_made_nil_l; [exact H0|].
      by eapply attempts_made_nil_r.
    + eexists. eapply attempts_made_nil_l; [exact H0|].
      by eapply attempts_made_nil_r.
  - destruct H1 as [k H1]. eexists.
    by eapply attempts_made_nil_l.
Qed.

Lemma wait_choice_attempts rx : ∀ s,
  ends_in (wait_choice rx s) (attempts_made p [] s).
Proof.
  induction rx as [|[ch|] rx IH]; intros s; cbn [wait_choice ends_in];
    try apply attempts_made_set_uart_rx.
  eapply ends_in_mono; [|apply IH]. intros s' H.
  eapply attempts_made_nil_l; [apply vTaskDelay_attempts|exact H].
Qed.

Lemma print_menu_attempts s : attempts_made p [] s (print_menu s).
Proof.
  apply (attempts_made_quiet _ _ menu_text); [apply print_menu_trace|].
  by repeat constructor.
Qed.

Lemma auto_mode_ready s :
  fst (auto_mode s) = true →
  fst (load_all (emit (a_printf msg_loading) s)) = true.
Proof.
  rewrite auto_mode_unfold. destruct (fst (load_all _)); [done|].
  by cbn.
Qed.

Lemma menu_pass_attempts fuel s :
  match menu_pass fuel s with
  | Done ready s' =>
      ∃ l, attempts_made p l s s' ∧
           (ready = true → ∃ l', l = l' ++ [false])
  | Blocked s' => ∃ l, attempts_made p l s s'
  | OutOfFuel => True
  end.
Proof.
  unfold menu_pass. cbn zeta.
  pose proof (print_menu_attempts s) as H0.
  pose proof (wait_choice_attempts (uart_rx (print_menu s)) (print_menu s))
    as H1.
  destruct (wait_choice _ _) as [ch s1|s1|]; cbn [bind ends_in] in *;
    [|eexists; by eapply attempts_made_nil_l|done].
  set (s2 := emit _ s1).
  assert (attempts_made p [] s s2) as H2.
  { eapply attempts_made_nil_l; [exact H0|].
    eapply attempts_made_nil_l; [exact H1|by apply attempts_made_emit]. }
  destruct (is_O ch).
  { pose proof (auto_mode_attempts s2) as H3.
    pose proof (auto_mode_ready s2) as H4.
    destruct (auto_mode s2) as [ready s3]. cbn [fst snd] in *.
    eexists. split; [by eapply attempts_made_nil_l|].
    intros ->. rewrite H4 by done. by exists []. }
  destruct (is_N ch).
  - pose proof (wizard_mode_attempts fuel s2) as H3.
    destruct (wizard_mode fuel s2) as [ready s3|s3|]; [| |done].
    + destruct H3 as [k H3]. eexists.
      split; [by eapply attempts_made_nil_l|]. eauto.
    + destruct H3 as [l H3]. eexists. by eapply attempts_made_nil_l.
  - exists []. split; [|done].
    eapply attempts_made_nil_l; [exact H2|by apply attempts_made_emit].
Qed.

Lemma boot_menu_attempts fuel : ∀ s,
  match boot_menu fuel s with
  | Done _ s' => ∃ l, attempts_made p (l ++ [false]) s s'
  | Blocked s' => ∃ l, attempts_made p l s s'
  | OutOfFuel => True
  end.
Proof.
  induction fuel as [|fuel IH]; intros s; cbn [boot_menu]; [done|].
  pose proof (menu_pass_attempts fuel s) as H1.
  destruct (menu_pass fuel s) as [[] s1|s1|]; cbn [bind]; [| |done..].
  - destruct H1 as (l & H1 & Hl). destruct (Hl eq_refl) as [l' ->]. eauto.
  - destruct H1 as (l & H1 & _). specialize (IH s1).
    destruct (boot_menu fuel s1) as [[] s2|s2|]; [| |done];
      destruct IH as [l2 IH]; exists (l ++ l2).
    + rewrite <- app_assoc. by eapply attempts_made_trans.
    + by eapply attempts_made_trans.
Qed.
End Selected.

Lemma is_driver_plain a : plain a = true → is_driver a = false.
Proof. by destruct a. Qed.

Lemma is_mqtt_plain a : plain a = true → is_mqtt a = false.
Proof. by destruct a. Qed.

Lemma driver_rounds l : selected is_driver (rounds l) = rounds l.
Proof.
  induction l as [|[] l IH]; [done|..];
    by rewrite rounds_cons, selected_app, IH.
Qed.

Lemma mqtt_rounds l : selected is_mqtt (rounds l) = [].
Proof.
  induction l as [|[] l IH]; [done|..];
    by rewrite rounds_cons, selected_app, IH.
Qed.

Lemma driver_attempts l s s' :
  attempts_made is_driver l s s' →
  driver_calls (trace s') = driver_calls (trace s) ++ rounds l.
Proof. unfold attempts_made. rewrite driver_rounds. done. Qed.

Lemma mqtt_attempts l s s' :
  attempts_made is_mqtt l s s' → mqtt_calls (trace s') = mqtt_calls (trace s).
Proof. unfold attempts_made. rewrite mqtt_rounds, app_nil_r. done. Qed.

(** X12. How [esp_wifi_start()] and [esp_wifi_stop()] alternate.  The auto
    mode starts the driver once when the four loads succeed and not at all
    otherwise, and it never stops it, also when the attempt fails.  The
    Wi-Fi entry of the wizard starts the driver once per pass and stops it
    after each failed pass, so it returns after [k] start/stop pairs and a
    last start.  Over the whole boot menu the driver calls are a sequence
    of attempts, each a start that may be followed by a stop; when the menu
    is left the last of these calls is a start. *)
Theorem wifi_driver_rounds fuel s :
  (Forall (λ kb, load_ret kb s = ESP_OK) cred_keys →
   driver_calls (trace (snd (auto_mode s))) =
     driver_calls (trace s) ++ [a_esp_wifi_start]) ∧
  (¬ Forall (λ kb, load_ret kb s = ESP_OK) cred_keys →
   driver_calls (trace (snd (auto_mode s))) = driver_calls (trace s)) ∧
  match wizard_wifi fuel s with
  | Done _ s' =>
      ∃ k, driver_calls (trace s') =
           driver_calls (trace s) ++ rounds (replicate k true ++ [false])
  | Blocked s' =>
      ∃ k, driver_calls (trace s') =
           driver_calls (trace s) ++ rounds (replicate k true)
  | OutOfFuel => True
  end ∧
  match boot_menu fuel s with
  | Done _ s' =>
      ∃ l, driver_calls (trace s') =
           driver_calls (trace s) ++ rounds (l ++ [false])
  | Blocked s' =>
      ∃ l, driver_calls (trace s') = driver_calls (trace s) ++ rounds l
  | OutOfFuel => True
  end.
Proof.
  pose proof (auto_mode_attempts is_driver is_driver_plain s) as Ha.
  apply driver_attempts in Ha.
  pose proof (load_all_emit_ok_iff (a_printf msg_loading) s) as Hl.
  split; [|split; [|split]].
  - intros Hall. apply Hl in Hall. by rewrite Hall in Ha.
  - intros Hnot. destruct (fst (load_all _)); [by destruct Hnot; apply Hl|].
    by rewrite app_nil_r in Ha.
  - pose proof (wizard_wifi_attempts is_driver is_driver_plain fuel s) as H.
    destruct (wizard_wifi fuel s) as [[] s'|s'|]; [| |done];
      destruct H as [k H]; exists k; by apply driver_attempts.
  - pose proof (boot_menu_attempts is_driver is_driver_plain fuel s) as H.
    destruct (boot_menu fuel s) as [[] s'|s'|]; [| |done];
      destruct H as [l H]; exists l; by apply driver_attempts.
Qed.

(** X13. Nothing reaches the MQTT client during provisioning.  As long as
    [start_mqtt] has not run there is no client and no handler for MQTT
    events: through the whole boot menu, wherever it ends, [client] stays
    unset, [mqtt_connected] keeps its value whatever events arrive, and the
    program neither starts a client nor publishes. *)
Theorem no_mqtt_before_start fuel s :
  client s = None →
  ends_in (boot_menu fuel s)
    (λ s', client s' = None ∧ mqtt_connected s' = mqtt_connected s ∧
           mqtt_calls (trace s') = mqtt_calls (trace s)).
Proof.
  intros Hc.
  pose proof (boot_menu_provisioning fuel s) as H1.
  pose proof (boot_menu_attempts is_mqtt is_mqtt_plain fuel s) as H2.
  destruct (boot_menu fuel s) as [[] s'|s'|]; cbn [ends_in] in *; [| |done];
    destruct H1 as [_ H1], H2 as [l H2]; destruct (H1 Hc) as [? ?];
    apply mqtt_attempts in H2; done.
Qed.

Lemma no_mqtt_before_start_witness :
  ends_in (boot_menu 60 wizard_example)
    (λ s', client s' = None ∧
           mqtt_connected s' = mqtt_connected wizard_example ∧
           mqtt_calls (trace s') = mqtt_calls (trace wizard_example)).
Proof. by apply (no_mqtt_before_start 60 wizard_example). Defined.

(** ** The MQTT client *)

Lemma tick_mqtt s :
  client (tick s) = client s ∧
  ∃ post, mqtt_calls (trace (tick s)) = mqtt_calls (trace s) ++ post ∧
          Forall (λ a, is_publish a = true) post.
Proof.
  unfold tick.
  destruct (vTaskDelay_effect 10000 (publish_step s))
    as ((Hc & _) & ext & T & F).
  split; [by rewrite Hc, publish_step_client|].
  unfold mqtt_calls. rewrite T, publish_step_trace, !selected_app.
  rewrite (selected_plain is_mqtt is_mqtt_plain (_ :: ext))
    by (constructor; [done|by apply handler_action_plain]).
  rewrite app_nil_r. eexists. split; [done|].
  destruct (_ && _); [by repeat constructor|].
  destruct (negb _); by repeat constructor.
Qed.

Lemma publish_loop_mqtt n : ∀ s,
  client (publish_loop n s) = client s ∧
  ∃ post, mqtt_calls (trace (publish_loop n s)) =
            mqtt_calls (trace s) ++ post ∧
          Forall (λ a, is_publish a = true) post.
Proof.
  induction n as [|n IH]; intros s; cbn [publish_loop].
  { split; [done|]. exists []. by rewrite app_nil_r. }
  destruct (tick_mqtt s) as (C1 & post1 & T1 & F1).
  destruct (IH (tick s)) as (C2 & post2 & T2 & F2).
  split; [congruence|]. exists (post1 ++ post2).
  rewrite T2, T1, app_assoc. split; [done|]. by apply Forall_app.
Qed.

(** X14. The MQTT client is started exactly once, after provisioning, for
    the broker in the buffer.  When [app_main] has reached the publish
    loop, its calls to the MQTT client since the boot menu began are one
    [esp_mqtt_client_start] with the URI ["mqtt://<broker>:1883"], not
    truncated, where [<broker>] is the string [mqtt_broker] holds, followed
    by publish calls only; [client] is that client.  While the boot menu
    waits for input no call to the client has been made. *)
Theorem mqtt_client_started_once fuel n s :
  buffers_ok s →
  match app_main fuel n s with
  | Done _ s' =>
      let uri := "mqtt://" +:+ cstr (mqtt_broker s') +:+ ":1883" in
      client s' = Some uri ∧
      ∃ post, mqtt_calls (trace s') =
                mqtt_calls (trace s) ++ a_esp_mqtt_client_start uri :: post ∧
              Forall (λ a, is_publish a = true) post
  | Blocked s' => mqtt_calls (trace s') = mqtt_calls (trace s)
  | OutOfFuel => True
  end.
Proof.
  intros Hok. unfold app_main.
  pose proof (boot_menu_ok fuel s Hok) as H1.
  pose proof (boot_menu_attempts is_mqtt is_mqtt_plain fuel s) as H2.
  destruct (boot_menu fuel s) as [[] s1|s1|]; cbn [bind ends_in] in *;
    [|by destruct H2 as [l H2%mqtt_attempts]|done].
  destruct H2 as [l H2%mqtt_attempts].
  unfold start_mqtt. cbn zeta.
  rewrite start_mqtt_uri
    by (change (mqtt_broker s1) with (get_buf MQTT_BROKER s1);
        rewrite (proj1 (H1 MQTT_BROKER)); cbn; lia).
  set (uri := "mqtt://" +:+ cstr (mqtt_broker s1) +:+ ":1883").
  set (s2 := emit (a_log _ _) _).
  destruct (publish_loop_mqtt n s2) as (C & post & T & F).
  pose proof (publish_loop_buffers n s2 MQTT_BROKER) as B.
  cbn [get_buf] in B. rewrite B. split; [by rewrite C|].
  exists post. rewrite T. split; [|done].
  subst s2. unfold mqtt_calls in *. cbn [trace emit set_client].
  by rewrite !selected_app, H2, <- !app_assoc.
Qed.

Lemma mqtt_client_started_once_witness :
  (∃ s', app_main 60 2 wizard_example = Done tt s' ∧
         client s' = Some "mqtt://10.0.0.5:1883") ∧
  match app_main 60 2 wizard_example with
  | Done _ s' =>
      let uri := "mqtt://" +:+ cstr (mqtt_broker s') +:+ ":1883" in
      client s' = Some uri ∧
      ∃ post, mqtt_calls (trace s') =
                mqtt_calls (trace wizard_example) ++
                a_esp_mqtt_client_start uri :: post ∧
              Forall (λ a, is_publish a = true) post
  | Blocked s' => mqtt_calls (trace s') = mqtt_calls (trace wizard_example)
  | OutOfFuel => True
  end.
Proof.
  split; [eexists; by vm_compute|].
  apply (mqtt_client_started_once 60 2 wizard_example), boot_state_ok.
Defined.

(** ** The credentials handed to the Wi-Fi driver *)

Lemma wait_for_link_trace budget : ∀ attempts s,
  ∃ ext, trace (snd (wait_for_link budget attempts s)) = trace s ++ ext ∧
         Forall poll_action ext.
Proof.
  induction budget as [|budget IH]; intros attempts s; cbn [wait_for_link].
  { exists []. by rewrite app_nil_r. }
  destruct (_ && _); [|exists []; by rewrite app_nil_r].
  destruct (vTaskDelay_effect 100 s) as (_ & ext1 & T1 & F1).
  destruct (IH (attempts + 1) (vTaskDelay 100 s)) as (ext2 & T2 & F2).
  exists ((a_vTaskDelay 100 :: ext1) ++ ext2).
  rewrite T2, T1, <- app_assoc. split; [done|].
  apply Forall_app. split; [|done]. constructor; [by left|].
  eapply Forall_impl; [exact F1|]. intros a Ha. by right.
Qed.

(** X15. [attempt_wifi_connect] hands the credentials over in full.  The
    [sta.ssid] and [sta.password] arrays given to [esp_wifi_set_config] have
    32 and 64 bytes and hold the same C strings as [ssid] and [wifi_pass]:
    [strncpy] cuts nothing off a string that comes from these buffers.
    After mode, configuration, start and connect, the attempt only sleeps
    100 ms at a time while handlers run. *)
Theorem attempt_hands_over s :
  (length (ssid s) ≤ 32)%nat → (length (wifi_pass s) ≤ 64)%nat →
  ∃ sta_ssid sta_password ext,
    trace (snd (attempt_wifi_connect s)) =
      trace s ++
      [a_esp_wifi_set_mode_sta; a_esp_wifi_set_config sta_ssid sta_password;
       a_esp_wifi_start; a_esp_wifi_connect] ++ ext ∧
    length sta_ssid = 32%nat ∧ length sta_password = 64%nat ∧
    cstr sta_ssid = cstr (ssid s) ∧ cstr sta_password = cstr (wifi_pass s) ∧
    Forall poll_action ext.
Proof.
  intros H1 H2. rewrite attempt_wifi_connect_snd.
  destruct (wait_for_link_trace 80 0 (attempt_begin s)) as (ext & T & F).
  exists (strncpy 32 (ssid s)), (strncpy 64 (wifi_pass s)), ext.
  rewrite T. unfold attempt_begin. cbn [trace emit set_wifi_connected].
  rewrite <- !app_assoc. split; [done|].
  rewrite !strncpy_length.
  pose proof (cstr_length (ssid s)). pose proof (cstr_length (wifi_pass s)).
  by rewrite !strncpy_cstr by lia.
Qed.

Definition entered_state : state :=
  set_buf WIFI_PASS (store_prefix (chars "pw1" ++ [NUL]) (replicate 64 NUL))
    (set_buf SSID (store_prefix (chars "net1" ++ [NUL]) (replicate 32 NUL))
       (boot_state ESP_OK ∅ [] [] [] [])).

Lemma attempt_hands_over_witness :
  cstr (ssid entered_state) = "net1" ∧
  ∃ sta_ssid sta_password ext,
    trace (snd (attempt_wifi_connect entered_state)) =
      trace entered_state ++
      [a_esp_wifi_set_mode_sta; a_esp_wifi_set_config sta_ssid sta_password;
       a_esp_wifi_start; a_esp_wifi_connect] ++ ext ∧
    length sta_ssid = 32%nat ∧ length sta_password = 64%nat ∧
    cstr sta_ssid = cstr (ssid entered_state) ∧
    cstr sta_password = cstr (wifi_pass entered_state) ∧
    Forall poll_action ext.
Proof.
  split; [done|].
  apply (attempt_hands_over entered_state); by vm_compute.
Defined.

(** ** What a batch of events leaves in the flags *)

Lemma deliver_news s e :
  wifi_connected (deliver s e) = default (wifi_connected s) (link_news e) ∧
  mqtt_connected (deliver s e) =
    match client s with
    | Some _ => default (mqtt_connected s) (session_news e)
    | None => mqtt_connected s
    end ∧
  client (deliver s e) = client s ∧
  connects (trace (deliver s e)) =
    (connects (trace s) + if is_sta_start e then 1 else 0)%nat.
Proof.
  unfold deliver, wifi_event_handler, mqtt_event_handler, connects.
  destruct e as [[] []]; destruct (client s) eqn:Hc; cbn [trace emit];
    rewrite ?List.filter_app, ?length_app; cbn; rewrite ?Hc;
    repeat split; lia || done.
Qed.

Lemma foldl_deliver_news batch : ∀ s,
  wifi_connected (foldl deliver s batch) =
    latest link_news batch (wifi_connected s) ∧
  mqtt_connected (foldl deliver s batch) =
    match client s with
    | Some _ => latest session_news batch (mqtt_connected s)
    | None => mqtt_connected s
    end ∧
  client (foldl deliver s batch) = client s ∧
  connects (trace (foldl deliver s batch)) =
    (connects (trace s) + sta_starts batch)%nat.
Proof.
  induction batch as [|e batch IH]; intros s; cbn [foldl].
  { unfold latest, sta_starts. cbn. destruct (client s); repeat split; lia. }
  destruct (deliver_news s e) as (W1 & M1 & C1 & N1).
  destruct (IH (deliver s e)) as (W2 & M2 & C2 & N2).
  rewrite W2, M2, C2, N2, W1, C1, N1.
  unfold latest, sta_starts. cbn [foldl List.filter].
  repeat split.
  - destruct (client s); [by rewrite M1|done].
  - destruct (is_sta_start e); cbn [length]; lia.
Qed.

Lemma sleep_delivers_lemma ms s :
  let batch := hd [] (events s) in
  let s' := vTaskDelay ms s in
  events s' = tail (events s) ∧
  wifi_connected s' = latest link_news batch (wifi_connected s) ∧
  mqtt_connected s' =
    match client s with
    | Some _ => latest session_news batch (mqtt_connected s)
    | None => mqtt_connected s
    end ∧
  connects (trace s') = (connects (trace s) + sta_starts batch)%nat.
Proof.
  cbn zeta. unfold vTaskDelay. cbn [events emit].
  destruct (events s) as [|batch later] eqn:E; cbn [hd tail].
  { unfold latest, sta_starts, connects. cbn [trace emit foldl].
    rewrite List.filter_app, length_app. cbn.
    destruct (client s); repeat split; lia || done. }
  destruct (foldl_deliver_news batch
              (set_events later (emit (a_vTaskDelay ms) s)))
    as (W & M & _ & N).
  rewrite foldl_deliver_events, W, M, N. cbn [events set_events].
  repeat split. unfold connects. cbn [trace emit set_events].
  rewrite List.filter_app, length_app. cbn. lia.
Qed.

(** X17. What a sleep makes of the flags.  A [vTaskDelay] consumes one
    batch of events.  Afterwards [wifi_connected] is what the last
    got-IP or station-disconnected event of the batch says, and is
    unchanged without one; [mqtt_connected] follows the last MQTT
    connected or disconnected event in the same way once the client
    exists, and is unchanged before; and [esp_wifi_connect()] has been
    called once for each station-start event of the batch. *)
Theorem sleep_delivers_latest_news ms s :
  let batch := hd [] (events s) in
  let s' := vTaskDelay ms s in
  events s' = tail (events s) ∧
  wifi_connected s' = latest link_news batch (wifi_connected s) ∧
  mqtt_connected s' =
    match client s with
    | Some _ => latest session_news batch (mqtt_connected s)
    | None => mqtt_connected s
    end ∧
  connects (trace s') = (connects (trace s) + sta_starts batch)%nat.
Proof. apply sleep_delivers_lemma. Qed.

(** ** The publish loop while nothing happens *)

Lemma tick_silent s :
  silent s → silent (tick s) ∧ same_flags s (tick s).
Proof.
  intros Hs. unfold tick.
  destruct (sleep_delivers_lemma 10000 (publish_step s)) as (E & W & M & _).
  destruct (publish_step_flags s) as [Hw Hm].
  pose proof (publish_step_events s) as He.
  assert (hd [] (events (publish_step s)) = []) as Hhd.
  { rewrite He. unfold silent in Hs. destruct Hs; [done|]. by cbn. }
  rewrite Hhd in W, M. unfold latest in W, M. cbn [foldl] in W, M.
  split.
  - unfold silent. rewrite E, He. unfold silent in Hs.
    destruct Hs; [constructor|done].
  - split; [congruence|]. rewrite M. by destruct (client _).
Qed.

Lemma tick_counts s :
  connects (trace (tick s)) =
    (connects (trace (publish_step s)) +
     sta_starts (hd [] (events s)))%nat ∧
  publishes (trace (tick s)) = publishes (trace (publish_step s)).
Proof.
  unfold tick.
  destruct (sleep_delivers_lemma 10000 (publish_step s)) as (_ & _ & _ & N).
  rewrite publish_step_events in N. split; [exact N|].
  destruct (vTaskDelay_effect 10000 (publish_step s)) as (_ & ext & T & F).
  rewrite T, publishes_app.
  change (a_vTaskDelay 10000 :: ext) with ([a_vTaskDelay 10000] ++ ext).
  rewrite publishes_app.
  assert (publishes ext = 0%nat) as ->; [|cbn; lia].
  clear T. induction F as [|a ext Ha _ IH]; [done|].
  unfold publishes in *. by destruct a.
Qed.

(** X18. The publish loop while no event arrives.  The flags then keep
    their values, and over [n] iterations: with the link down the loop
    calls [esp_wifi_connect()] [n] times, once every ten seconds, and never
    publishes; with link and session up it publishes [n] times and never
    reconnects; with the link up and the session down it does neither. *)
Theorem steady_state n : ∀ s,
  silent s →
  let s' := publish_loop n s in
  same_flags s s' ∧
  connects (trace s') =
    (connects (trace s) + if wifi_connected s then 0 else n)%nat ∧
  publishes (trace s') =
    (publishes (trace s) +
     if wifi_connected s && mqtt_connected s then n else 0)%nat.
Proof.
  induction n as [|n IH]; intros s Hs; cbn zeta; cbn [publish_loop].
  { unfold same_flags. repeat split; destruct (wifi_connected s);
      try destruct (mqtt_connected s); cbn; lia. }
  destruct (tick_silent s Hs) as [Hs1 [Hw Hm]].
  destruct (IH (tick s) Hs1) as ([Hw' Hm'] & C & P).
  destruct (tick_counts s) as [C1 P1].
  assert (hd [] (events s) = []) as Hhd.
  { unfold silent in Hs. destruct Hs; [done|]. by cbn. }
  rewrite Hhd in C1. unfold sta_starts in C1. cbn in C1.
  split; [split; congruence|].
  rewrite C, P, C1, P1, Hw, Hm, publish_step_trace, connects_app,
    publishes_app.
  destruct (wifi_connected s), (mqtt_connected s); cbn; split; lia.
Qed.

Definition link_lost : state :=
  set_mqtt_connected true (boot_state ESP_OK ∅ [] [[]; []] [] []).

Lemma steady_state_witness :
  connects (trace (publish_loop 3 link_lost)) = 3%nat ∧
  publishes (trace (publish_loop 3 link_lost)) = 0%nat.
Proof.
  destruct (steady_state 3 link_lost) as (_ & C & P);
    [by repeat constructor|]. done.
Defined.

(** ** Flash initialisation *)

(** X19. Flash initialisation.  [nvs_flash_erase()] is called exactly when
    the first [nvs_flash_init()] returns [ESP_ERR_NVS_NO_FREE_PAGES] or
    [ESP_ERR_NVS_NEW_VERSION_FOUND]: a partition that initialises, or that
    fails with any other code, is never erased.  The program goes on to the
    boot menu exactly when the first initialisation returns [ESP_OK], or
    when it returns one of the two codes and both the erase and the second
    initialisation return [ESP_OK]; in every other case it aborts. *)
Theorem flash_init_outcome init1 erase init2 :
  let r := flash_init init1 erase init2 in
  (c_nvs_flash_erase ∈ fst r ↔
   init1 = ESP_ERR_NVS_NO_FREE_PAGES ∨
   init1 = ESP_ERR_NVS_NEW_VERSION_FOUND) ∧
  (snd r = true ↔
   init1 = ESP_OK ∨
   ((init1 = ESP_ERR_NVS_NO_FREE_PAGES ∨
     init1 = ESP_ERR_NVS_NEW_VERSION_FOUND) ∧
    erase = ESP_OK ∧ init2 = ESP_OK)) ∧
  (snd r = false ↔ c_abort ∈ fst r).
Proof.
  cbn zeta. unfold flash_init.
  assert (ESP_ERR_NVS_NO_FREE_PAGES ≠ ESP_OK) as D1 by done.
  assert (ESP_ERR_NVS_NEW_VERSION_FOUND ≠ ESP_OK) as D2 by done.
  destruct (Z.eqb_spec init1 ESP_ERR_NVS_NO_FREE_PAGES) as [E1|N1];
    destruct (Z.eqb_spec init1 ESP_ERR_NVS_NEW_VERSION_FOUND) as [E2|N2];
    destruct (Z.eqb_spec init1 ESP_OK) as [E3|N3];
    destruct (Z.eqb_spec erase ESP_OK) as [E4|N4];
    destruct (Z.eqb_spec init2 ESP_OK) as [E5|N5];
    cbn [orb negb fst snd]; rewrite ?elem_of_cons, ?elem_of_nil;
    intuition congruence.
Qed.
